(** * A shallow embedding of the metadata generator's helpers and orchestrator

  The development follows the TypeScript sources:
  - [imageHelpers] (src/unnamed/part_003): [removeSymbolsFromTitle],
    [isValidMediaType], [isValidFileSize], the two category matchers and
    [formatImagesAsCSV];
  - [geminiApi] (src/unnamed/part_004): [analyzeImageWithGemini];
  - [ImageUploader] (src/unnamed/part_006): [processFiles];
  - [Index] (src/metadata-main/src/pages/Index.tsx): [handleProcessImages].

  JavaScript strings are sequences of UTF-16 code units; they are modelled as
  lists of [N].  Exceptions are modelled by an explicit completion type. *)

From Stdlib Require Import List NArith Arith Bool Lia String Ascii.
From Stdlib Require Import Sorted Permutation DecimalString.
Import ListNotations.

Set Implicit Arguments.

(* ===================================================================== *)
(** ** JavaScript strings *)
(* ===================================================================== *)

Module JsString.

(** One UTF-16 code unit. *)
Definition char16 := N.

(** A JavaScript string value. *)
Definition jsstring := list char16.

(** String literals of the source: every literal used is ASCII, so each
    character is a single code unit. *)
Definition js (s : string) : jsstring :=
  map N_of_ascii (list_ascii_of_string s).

Definition char_eqb (a b : char16) : bool := N.eqb a b.

(** Strict equality [===] on two strings. *)
Fixpoint str_eqb (a b : jsstring) : bool :=
  match a, b with
  | [], [] => true
  | x :: a', y :: b' => char_eqb x y && str_eqb a' b'
  | _, _ => false
  end.

(** [Array.prototype.join(sep)] on an array of strings. *)
Fixpoint join (sep : jsstring) (l : list jsstring) : jsstring :=
  match l with
  | [] => []
  | [x] => x
  | x :: rest => x ++ sep ++ join sep rest
  end.

(** [String.prototype.startsWith] *)
Fixpoint startsWith (s prefix : jsstring) : bool :=
  match prefix, s with
  | [], _ => true
  | p :: prefix', c :: s' => char_eqb c p && startsWith s' prefix'
  | _ :: _, [] => false
  end.

(** [String.prototype.endsWith] *)
Definition endsWith (s suffix : jsstring) : bool :=
  startsWith (rev s) (rev suffix).

(** [Array.prototype.includes] on an array of strings. *)
Definition includes (l : list jsstring) (x : jsstring) : bool :=
  existsb (str_eqb x) l.

(** A string is truthy when it is not empty. *)
Definition truthy (s : jsstring) : bool :=
  match s with [] => false | _ :: _ => true end.

(** The class [\s] of ECMAScript regular expressions (white space and line
    terminators): TAB, LF, VT, FF, CR, SPACE, NBSP, U+1680, U+2000..U+200A,
    U+2028, U+2029, U+202F, U+205F, U+3000, U+FEFF. *)
Definition isSpace (c : char16) : bool :=
  ((9 <=? c) && (c <=? 13) || (c =? 32) || (c =? 160) || (c =? 5760)
   || (8192 <=? c) && (c <=? 8202) || (c =? 8232) || (c =? 8233)
   || (c =? 8239) || (c =? 8287) || (c =? 12288) || (c =? 65279))%N.

Definition isAsciiUpper (c : char16) : bool := ((65 <=? c) && (c <=? 90))%N.
Definition isAsciiLower (c : char16) : bool := ((97 <=? c) && (c <=? 122))%N.
Definition isAsciiDigit (c : char16) : bool := ((48 <=? c) && (c <=? 57))%N.

(** The class [\w] (no [i] or [u] flag): [A-Za-z0-9_]. *)
Definition isWord (c : char16) : bool :=
  isAsciiUpper c || isAsciiLower c || isAsciiDigit c || (c =? 95)%N.

(** The members of a character class [[...]] as the sources write them. *)
Inductive ClassAtom :=
| ClassWord                  (* \w *)
| ClassSpace                 (* \s *)
| ClassLit (c : char16).     (* a literal character *)

Definition atomMatches (a : ClassAtom) (c : char16) : bool :=
  match a with
  | ClassWord => isWord c
  | ClassSpace => isSpace c
  | ClassLit d => char_eqb c d
  end.

(** A positive class [[abc]] and a negated class [[^abc]]. *)
Definition classMatches (atoms : list ClassAtom) (c : char16) : bool :=
  existsb (fun a => atomMatches a c) atoms.

Definition negClassMatches (atoms : list ClassAtom) (c : char16) : bool :=
  negb (classMatches atoms c).

(** [s.replace(/C/g, '')] for a pattern [C] matching one code unit: every
    code unit that matches is replaced by the empty string. *)
Definition replaceAllWithEmpty (matches : char16 -> bool) (s : jsstring)
  : jsstring :=
  filter (fun c => negb (matches c)) s.

(** [s.split(/\s+/)]: the pieces between maximal runs of white space.  A
    leading or trailing run yields an empty first or last piece and the empty
    string yields one empty piece.  [inRun] tells that the previous code unit
    belonged to a separator; [cur] is the piece being read, reversed. *)
Fixpoint splitSpacesFrom (inRun : bool) (cur : jsstring) (s : jsstring)
  : list jsstring :=
  match s with
  | [] => [rev cur]
  | c :: rest =>
      if isSpace c then
        if inRun then splitSpacesFrom true cur rest
        else rev cur :: splitSpacesFrom true [] rest
      else splitSpacesFrom false (c :: cur) rest
  end.

Definition splitSpaces (s : jsstring) : list jsstring :=
  splitSpacesFrom false [] s.

(** [String.prototype.toLowerCase] on the ASCII range.  The full function
    follows the Unicode case tables; the matchers below take it as a
    parameter and this instance is used on ASCII inputs. *)
Definition lowerAsciiUnit (c : char16) : char16 :=
  if isAsciiUpper c then (c + 32)%N else c.

Definition toLowerCaseAscii (s : jsstring) : jsstring := map lowerAsciiUnit s.

Definition isAscii (s : jsstring) : Prop := Forall (fun c => (c < 128)%N) s.

(** [(n).toString()] for a natural number. *)
Definition natToString (n : nat) : jsstring :=
  js (NilEmpty.string_of_uint (Nat.to_uint n)).

(** [String.prototype.includes]: [pat] occurs in [s] as a substring. *)
Fixpoint strIncludes (s pat : jsstring) : bool :=
  startsWith s pat
  || match s with
     | [] => false
     | _ :: s' => strIncludes s' pat
     end.

(** [Array.from(new Set(l))]: each string once, at its first position.
    [seen] holds the strings already in the set. *)
Fixpoint setFrom (seen : list jsstring) (l : list jsstring) : list jsstring :=
  match l with
  | [] => []
  | x :: rest =>
      if includes seen x then setFrom seen rest
      else x :: setFrom (x :: seen) rest
  end.

Definition arrayFromSet (l : list jsstring) : list jsstring := setFrom [] l.

End JsString.

Import JsString.

(* ===================================================================== *)
(** ** Exceptions *)
(* ===================================================================== *)

(** A thrown value: an [Error] object with its message, the [TypeError] that
  [for ... of] raises on a value that is not iterable (its message is the
  engine's), or a value that is not an [Error]. *)
Inductive thrown :=
| ErrorObject (message : jsstring)
| TypeErrorNotIterable
| NotAnError.

(** The completion of a statement or call: a value, or a thrown exception. *)
Inductive completion (A : Type) :=
| Normal (a : A)
| Throw (e : thrown).

Arguments Normal {A} a.
Arguments Throw {A} e.

Definition bindC {A B} (c : completion A) (k : A -> completion B)
  : completion B :=
  match c with
  | Normal a => k a
  | Throw e => Throw e
  end.

(** [try { c } catch (e) { h e }] *)
Definition tryCatch {A} (c : completion A) (h : thrown -> completion A)
  : completion A :=
  match c with
  | Normal a => Normal a
  | Throw e => h e
  end.

Declare Scope completion_scope.
Delimit Scope completion_scope with completion.
Notation "x <- c ;; k" := (bindC c (fun x => k))
  (at level 61, c at next level, right associativity) : completion_scope.


(* ===================================================================== *)
(** ** Object literals used as maps *)
(* ===================================================================== *)

Module JsObject.

(** An ordinary object with string keys, none of which is an array index:
    its own properties in insertion order. *)
Definition jsobject (V : Type) := list (jsstring * V).

Fixpoint getOwn {V} (o : jsobject V) (k : jsstring) : option V :=
  match o with
  | [] => None
  | (k', v) :: o' => if str_eqb k' k then Some v else getOwn o' k
  end.

(** [o[k] = v]: an existing key keeps its place, a new key goes last. *)
Fixpoint setOwn {V} (o : jsobject V) (k : jsstring) (v : V) : jsobject V :=
  match o with
  | [] => [(k, v)]
  | (k', v') :: o' =>
      if str_eqb k' k then (k', v) :: o' else (k', v') :: setOwn o' k v
  end.

(** [{ k1: v1, k2: v2, ... }] *)
Definition objectLiteral {V} (props : list (jsstring * V)) : jsobject V :=
  fold_left (fun o kv => setOwn o (fst kv) (snd kv)) props [].

(** [Object.entries(o)] *)
Definition entries {V} (o : jsobject V) : list (jsstring * V) := o.

(** The property names that an object literal inherits from
    [Object.prototype]. *)
Definition objectPrototypeNames : list jsstring :=
  map js
  ["constructor"; "__defineGetter__"; "__defineSetter__"; "hasOwnProperty";
   "__lookupGetter__"; "__lookupSetter__"; "isPrototypeOf";
   "propertyIsEnumerable"; "toString"; "valueOf"; "__proto__";
   "toLocaleString"]%string.

(** The outcome of reading [o[k]] on an object literal: an own property, a
    member of [Object.prototype] (a function, or the prototype itself for
    [__proto__]: truthy and not iterable), or [undefined]. *)
Inductive property (V : Type) :=
| Own (v : V)
| Inherited
| Undefined.

Arguments Own {V} v.
Arguments Inherited {V}.
Arguments Undefined {V}.

Definition getProperty {V} (o : jsobject V) (k : jsstring) : property V :=
  match getOwn o k with
  | Some v => Own v
  | None => if includes objectPrototypeNames k then Inherited else Undefined
  end.

End JsObject.

Import JsObject.

(* ===================================================================== *)
(** ** imageHelpers *)
(* ===================================================================== *)

Module ImageHelpers.

(** The browser's [File], reduced to the fields the sources read. *)
Record File := {
  name : jsstring;
  type : jsstring;
  size : N
}.

Inductive Status := pending | processing | complete | error.

Definition status_eqb (a b : Status) : bool :=
  match a, b with
  | pending, pending | processing, processing
  | complete, complete | error, error => true
  | _, _ => false
  end.

(** The [result] member of a [ProcessedImage]. *)
Record ImageResult := {
  title : jsstring;
  description : jsstring;
  keywords : list jsstring;
  prompt : option jsstring;
  baseModel : option jsstring;
  categories : option (list jsstring)
}.

Record ProcessedImage := {
  id : jsstring;
  file : File;
  previewUrl : jsstring;
  status : Status;
  result : option ImageResult;
  errorMessage : option jsstring    (* the member [error] *)
}.

(** [`"${s}"`] *)
Definition quoted (s : jsstring) : jsstring := [34%N] ++ s ++ [34%N].

(** [x || ''] for an optional string. *)
Definition orEmpty (x : option jsstring) : jsstring :=
  match x with
  | Some s => s
  | None => []
  end.

(** [/[^\w\s.,()-]/g]: the atoms of the negated class. *)
Definition titleClass : list ClassAtom :=
  [ClassWord; ClassSpace; ClassLit 46; ClassLit 44; ClassLit 40; ClassLit 41;
   ClassLit 45]%N.

Definition removeSymbolsFromTitle (title : jsstring) : jsstring :=
  replaceAllWithEmpty (negClassMatches titleClass) title.

Definition acceptedTypes : list jsstring :=
  map js
  ["image/jpeg"; "image/png"; "image/jpg"; "image/webp"; "image/svg+xml";
   "application/postscript"; "application/eps"; "application/x-eps";
   "image/eps"; "application/illustrator";
   "video/mp4"; "video/quicktime"; "video/x-msvideo"; "video/mpeg";
   "video/webm"; "video/x-matroska"]%string.

Definition isValidMediaType (file : File) : bool :=
  includes acceptedTypes (type file).

(** [maxSizeGB] defaults to 10. *)
Definition isValidFileSize (file : File) : bool :=
  (size file <=? 10 * 1024 * 1024 * 1024)%N.

Definition shutterstockCategories : list jsstring :=
  map js
  ["Abstract"; "Animals/Wildlife"; "Arts"; "Backgrounds/Textures";
   "Beauty/Fashion"; "Buildings/Landmarks"; "Business/Finance";
   "Celebrities"; "Education"; "Food and drink"; "Healthcare/Medical";
   "Holidays"; "Industrial"; "Interiors"; "Miscellaneous"; "Nature";
   "Objects"; "Parks/Outdoor"; "People"; "Religion"; "Science";
   "Signs/Symbols"; "Sports/Recreation"; "Technology"; "Transportation";
   "Vintage"]%string.

Definition adobeStockCategories : list jsstring :=
  map js
  ["Animals"; "Buildings and Architecture"; "Business"; "Drinks";
   "The Environment"; "States of Mind"; "Food"; "Graphic Resources";
   "Hobbies and Leisure"; "Industry"; "Landscapes"; "Lifestyle"; "People";
   "Plants and Flowers"; "Culture and Religion"; "Science"; "Social Issues";
   "Sports"; "Technology"; "Transport"; "Travel"]%string.

(** A word-to-categories table as the literal lists it. *)
Definition tableLiteral (props : list (string * list string))
  : jsobject (list jsstring) :=
  objectLiteral (map (fun kv => (js (fst kv), map js (snd kv))) props).

(** [categoryMatches] of [suggestCategoriesForAdobeStock]. *)
Definition adobeCategoryMatches : jsobject (list jsstring) :=
  tableLiteral
  [("animal", ["Animals"]); ("wildlife", ["Animals"]); ("pet", ["Animals"]);
   ("dog", ["Animals"]); ("cat", ["Animals"]); ("bird", ["Animals"]);
   ("fish", ["Animals"]); ("horse", ["Animals"]); ("mammal", ["Animals"]);
   ("reptile", ["Animals"]); ("building", ["Buildings and Architecture"]);
   ("architecture", ["Buildings and Architecture"]);
   ("house", ["Buildings and Architecture"]);
   ("skyscraper", ["Buildings and Architecture"]);
   ("tower", ["Buildings and Architecture"]);
   ("monument", ["Buildings and Architecture"]);
   ("bridge", ["Buildings and Architecture"]);
   ("construction", ["Buildings and Architecture"]);
   ("apartment", ["Buildings and Architecture"]); ("business", ["Business"]);
   ("office", ["Business"]); ("meeting", ["Business"]);
   ("professional", ["Business"]); ("corporate", ["Business"]);
   ("finance", ["Business"]); ("economy", ["Business"]);
   ("management", ["Business"]); ("entrepreneur", ["Business"]);
   ("startup", ["Business"]); ("drink", ["Drinks"]); ("beverage", ["Drinks"]);
   ("coffee", ["Drinks"]); ("tea", ["Drinks"]); ("wine", ["Drinks"]);
   ("beer", ["Drinks"]); ("cocktail", ["Drinks"]); ("juice", ["Drinks"]);
   ("alcohol", ["Drinks"]); ("water", ["Drinks"]);
   ("environment", ["The Environment"]); ("nature", ["The Environment"]);
   ("ecology", ["The Environment"]); ("ecosystem", ["The Environment"]);
   ("sustainable", ["The Environment"]); ("green", ["The Environment"]);
   ("climate", ["The Environment"]); ("pollution", ["The Environment"]);
   ("conservation", ["The Environment"]); ("renewable", ["The Environment"]);
   ("emotion", ["States of Mind"]); ("feeling", ["States of Mind"]);
   ("happiness", ["States of Mind"]); ("sadness", ["States of Mind"]);
   ("depression", ["States of Mind"]); ("anxiety", ["States of Mind"]);
   ("stress", ["States of Mind"]); ("joy", ["States of Mind"]);
   ("fear", ["States of Mind"]); ("love", ["States of Mind"]);
   ("food", ["Food"]); ("meal", ["Food"]); ("cuisine", ["Food"]);
   ("restaurant", ["Food"]); ("dinner", ["Food"]); ("lunch", ["Food"]);
   ("breakfast", ["Food"]); ("cooking", ["Food"]); ("fruit", ["Food"]);
   ("vegetable", ["Food"]); ("graphic", ["Graphic Resources"]);
   ("design", ["Graphic Resources"]); ("illustration", ["Graphic Resources"]);
   ("vector", ["Graphic Resources"]); ("font", ["Graphic Resources"]);
   ("typography", ["Graphic Resources"]); ("icon", ["Graphic Resources"]);
   ("logo", ["Graphic Resources"]); ("pattern", ["Graphic Resources"]);
   ("template", ["Graphic Resources"]); ("hobby", ["Hobbies and Leisure"]);
   ("leisure", ["Hobbies and Leisure"]);
   ("recreation", ["Hobbies and Leisure"]); ("game", ["Hobbies and Leisure"]);
   ("craft", ["Hobbies and Leisure"]); ("diy", ["Hobbies and Leisure"]);
   ("gardening", ["Hobbies and Leisure"]);
   ("reading", ["Hobbies and Leisure"]); ("music", ["Hobbies and Leisure"]);
   ("entertainment", ["Hobbies and Leisure"]); ("industry", ["Industry"]);
   ("factory", ["Industry"]); ("manufacturing", ["Industry"]);
   ("production", ["Industry"]); ("warehouse", ["Industry"]);
   ("machinery", ["Industry"]); ("industrial", ["Industry"]);
   ("engineering", ["Industry"]); ("mining", ["Industry"]);
   ("automation", ["Industry"]); ("landscape", ["Landscapes"]);
   ("mountain", ["Landscapes"]); ("valley", ["Landscapes"]);
   ("hill", ["Landscapes"]); ("desert", ["Landscapes"]);
   ("forest", ["Landscapes"]); ("beach", ["Landscapes"]);
   ("ocean", ["Landscapes"]); ("sea", ["Landscapes"]);
   ("river", ["Landscapes"]); ("lifestyle", ["Lifestyle"]);
   ("fashion", ["Lifestyle"]); ("beauty", ["Lifestyle"]);
   ("trend", ["Lifestyle"]); ("style", ["Lifestyle"]);
   ("luxury", ["Lifestyle"]); ("wellness", ["Lifestyle"]);
   ("health", ["Lifestyle"]); ("exercise", ["Lifestyle"]);
   ("home", ["Lifestyle"]); ("people", ["People"]); ("person", ["People"]);
   ("man", ["People"]); ("woman", ["People"]); ("child", ["People"]);
   ("family", ["People"]); ("portrait", ["People"]); ("crowd", ["People"]);
   ("human", ["People"]); ("adult", ["People"]);
   ("plant", ["Plants and Flowers"]); ("flower", ["Plants and Flowers"]);
   ("tree", ["Plants and Flowers"]); ("garden", ["Plants and Flowers"]);
   ("botanical", ["Plants and Flowers"]); ("floral", ["Plants and Flowers"]);
   ("herb", ["Plants and Flowers"]); ("leaf", ["Plants and Flowers"]);
   ("bush", ["Plants and Flowers"]); ("grass", ["Plants and Flowers"]);
   ("culture", ["Culture and Religion"]);
   ("religion", ["Culture and Religion"]); ("faith", ["Culture and Religion"]);
   ("tradition", ["Culture and Religion"]);
   ("heritage", ["Culture and Religion"]);
   ("ritual", ["Culture and Religion"]);
   ("ceremony", ["Culture and Religion"]);
   ("worship", ["Culture and Religion"]);
   ("festival", ["Culture and Religion"]);
   ("celebration", ["Culture and Religion"]); ("science", ["Science"]);
   ("research", ["Science"]); ("laboratory", ["Science"]);
   ("experiment", ["Science"]); ("chemistry", ["Science"]);
   ("physics", ["Science"]); ("biology", ["Science"]);
   ("medicine", ["Science"]); ("innovation", ["Science"]);
   ("social", ["Social Issues"]); ("issue", ["Social Issues"]);
   ("poverty", ["Social Issues"]); ("inequality", ["Social Issues"]);
   ("discrimination", ["Social Issues"]); ("protest", ["Social Issues"]);
   ("activism", ["Social Issues"]); ("community", ["Social Issues"]);
   ("diversity", ["Social Issues"]); ("inclusion", ["Social Issues"]);
   ("sport", ["Sports"]); ("athlete", ["Sports"]); ("competition", ["Sports"]);
   ("football", ["Sports"]); ("soccer", ["Sports"]);
   ("basketball", ["Sports"]); ("tennis", ["Sports"]);
   ("swimming", ["Sports"]); ("running", ["Sports"]); ("fitness", ["Sports"]);
   ("technology", ["Technology"]); ("digital", ["Technology"]);
   ("computer", ["Technology"]); ("electronic", ["Technology"]);
   ("device", ["Technology"]); ("software", ["Technology"]);
   ("hardware", ["Technology"]); ("internet", ["Technology"]);
   ("mobile", ["Technology"]); ("tech", ["Technology"]);
   ("transport", ["Transport"]); ("vehicle", ["Transport"]);
   ("car", ["Transport"]); ("bus", ["Transport"]); ("train", ["Transport"]);
   ("aircraft", ["Transport"]); ("airplane", ["Transport"]);
   ("ship", ["Transport"]); ("bicycle", ["Transport"]);
   ("motorcycle", ["Transport"]); ("travel", ["Travel"]);
   ("tourism", ["Travel"]); ("vacation", ["Travel"]); ("holiday", ["Travel"]);
   ("adventure", ["Travel"]); ("exploration", ["Travel"]);
   ("destination", ["Travel"]); ("tourist", ["Travel"]);
   ("journey", ["Travel"]); ("trip", ["Travel"])]%string.

(** [categoryMatches] of [suggestCategoriesForShutterstock]. *)
Definition shutterstockCategoryMatches : jsobject (list jsstring) :=
  tableLiteral
  [("abstract", ["Abstract"]); ("geometric", ["Abstract"]);
   ("pattern", ["Abstract"; "Backgrounds/Textures"]);
   ("animal", ["Animals/Wildlife"]); ("wildlife", ["Animals/Wildlife"]);
   ("pet", ["Animals/Wildlife"]); ("dog", ["Animals/Wildlife"]);
   ("cat", ["Animals/Wildlife"]); ("bird", ["Animals/Wildlife"]);
   ("fish", ["Animals/Wildlife"]); ("art", ["Arts"]); ("painting", ["Arts"]);
   ("sculpture", ["Arts"]); ("drawing", ["Arts"]); ("creative", ["Arts"]);
   ("background", ["Backgrounds/Textures"]);
   ("texture", ["Backgrounds/Textures"]);
   ("wallpaper", ["Backgrounds/Textures"]); ("beauty", ["Beauty/Fashion"]);
   ("fashion", ["Beauty/Fashion"]); ("makeup", ["Beauty/Fashion"]);
   ("model", ["Beauty/Fashion"; "People"]); ("style", ["Beauty/Fashion"]);
   ("clothing", ["Beauty/Fashion"]); ("building", ["Buildings/Landmarks"]);
   ("architecture", ["Buildings/Landmarks"]);
   ("landmark", ["Buildings/Landmarks"]);
   ("monument", ["Buildings/Landmarks"]);
   ("skyscraper", ["Buildings/Landmarks"]); ("house", ["Buildings/Landmarks"]);
   ("business", ["Business/Finance"]); ("finance", ["Business/Finance"]);
   ("office", ["Business/Finance"]); ("meeting", ["Business/Finance"]);
   ("corporate", ["Business/Finance"]); ("professional", ["Business/Finance"]);
   ("celebrity", ["Celebrities"]); ("famous", ["Celebrities"]);
   ("star", ["Celebrities"]); ("education", ["Education"]);
   ("school", ["Education"]); ("learning", ["Education"]);
   ("student", ["Education"]); ("book", ["Education"]);
   ("classroom", ["Education"]); ("food", ["Food and drink"]);
   ("drink", ["Food and drink"]); ("meal", ["Food and drink"]);
   ("restaurant", ["Food and drink"]); ("cooking", ["Food and drink"]);
   ("kitchen", ["Food and drink"]); ("health", ["Healthcare/Medical"]);
   ("medical", ["Healthcare/Medical"]); ("doctor", ["Healthcare/Medical"]);
   ("hospital", ["Healthcare/Medical"]); ("nurse", ["Healthcare/Medical"]);
   ("medicine", ["Healthcare/Medical"]); ("holiday", ["Holidays"]);
   ("christmas", ["Holidays"]); ("halloween", ["Holidays"]);
   ("easter", ["Holidays"]); ("celebration", ["Holidays"]);
   ("festival", ["Holidays"]); ("industrial", ["Industrial"]);
   ("factory", ["Industrial"]); ("manufacturing", ["Industrial"]);
   ("machinery", ["Industrial"]); ("construction", ["Industrial"]);
   ("interior", ["Interiors"]); ("room", ["Interiors"]);
   ("furniture", ["Interiors"]); ("home", ["Interiors"]);
   ("decoration", ["Interiors"]); ("indoor", ["Interiors"]);
   ("misc", ["Miscellaneous"]); ("various", ["Miscellaneous"]);
   ("assorted", ["Miscellaneous"]); ("nature", ["Nature"]);
   ("landscape", ["Nature"; "Parks/Outdoor"]);
   ("mountain", ["Nature"; "Parks/Outdoor"]); ("forest", ["Nature"]);
   ("plant", ["Nature"]); ("flower", ["Nature"]); ("tree", ["Nature"]);
   ("river", ["Nature"]); ("lake", ["Nature"]); ("ocean", ["Nature"]);
   ("sea", ["Nature"]); ("object", ["Objects"]); ("item", ["Objects"]);
   ("tool", ["Objects"]); ("product", ["Objects"]);
   ("park", ["Parks/Outdoor"]); ("outdoor", ["Parks/Outdoor"]);
   ("garden", ["Parks/Outdoor"]); ("yard", ["Parks/Outdoor"]);
   ("camping", ["Parks/Outdoor"]); ("people", ["People"]);
   ("person", ["People"]); ("man", ["People"]); ("woman", ["People"]);
   ("child", ["People"]); ("family", ["People"]); ("group", ["People"]);
   ("religion", ["Religion"]); ("church", ["Religion"]);
   ("temple", ["Religion"]); ("mosque", ["Religion"]);
   ("prayer", ["Religion"]); ("spiritual", ["Religion"]);
   ("science", ["Science"]); ("research", ["Science"]); ("lab", ["Science"]);
   ("chemistry", ["Science"]); ("biology", ["Science"]);
   ("physics", ["Science"]); ("sign", ["Signs/Symbols"]);
   ("symbol", ["Signs/Symbols"]); ("icon", ["Signs/Symbols"]);
   ("logo", ["Signs/Symbols"]); ("sport", ["Sports/Recreation"]);
   ("game", ["Sports/Recreation"]); ("play", ["Sports/Recreation"]);
   ("athlete", ["Sports/Recreation"]); ("fitness", ["Sports/Recreation"]);
   ("exercise", ["Sports/Recreation"]); ("recreation", ["Sports/Recreation"]);
   ("technology", ["Technology"]); ("computer", ["Technology"]);
   ("digital", ["Technology"]); ("electronic", ["Technology"]);
   ("device", ["Technology"]); ("smartphone", ["Technology"]);
   ("internet", ["Technology"]); ("transportation", ["Transportation"]);
   ("vehicle", ["Transportation"]); ("car", ["Transportation"]);
   ("bus", ["Transportation"]); ("train", ["Transportation"]);
   ("plane", ["Transportation"]); ("airplane", ["Transportation"]);
   ("ship", ["Transportation"]); ("boat", ["Transportation"]);
   ("vintage", ["Vintage"]); ("retro", ["Vintage"]); ("antique", ["Vintage"]);
   ("old", ["Vintage"]); ("classic", ["Vintage"])]%string.

(** [categoryCount[category] = (categoryCount[category] || 0) + 1].  The
    categories of both tables are not names of [Object.prototype] (lemma
    [table_categories_not_inherited]), so the read is an own count or
    [undefined]. *)
Definition countCategory (categoryCount : jsobject nat) (category : jsstring)
  : jsobject nat :=
  let old := match getOwn categoryCount category with
             | Some n => n
             | None => 0
             end in
  setOwn categoryCount category (old + 1).

(** The loop [for (const word of words) { if (categoryMatches[word]) { for
    (const category of categoryMatches[word]) { ... } } }].  A word that names
    a member of [Object.prototype] passes the test, and iterating the member
    raises a [TypeError]. *)
Fixpoint countWords (categoryMatches : jsobject (list jsstring))
  (words : list jsstring) (categoryCount : jsobject nat)
  : completion (jsobject nat) :=
  match words with
  | [] => Normal categoryCount
  | word :: rest =>
      match getProperty categoryMatches word with
      | Undefined => countWords categoryMatches rest categoryCount
      | Inherited => Throw TypeErrorNotIterable
      | Own cats =>
          countWords categoryMatches rest
            (fold_left countCategory cats categoryCount)
      end
  end.

(** [.sort((a, b) => b[1] - a[1])]: the sort is stable, so among the stable
    sorts it is determined by the comparator; insertion from the right. *)
Fixpoint insertByCount (e : jsstring * nat) (l : list (jsstring * nat))
  : list (jsstring * nat) :=
  match l with
  | [] => [e]
  | e' :: l' =>
      if snd e <? snd e' then e' :: insertByCount e l' else e :: e' :: l'
  end.

Definition sortByCount (l : list (jsstring * nat)) : list (jsstring * nat) :=
  fold_right insertByCount [] l.

(** [Object.entries(categoryCount).sort(...).map(entry => entry[0])] *)
Definition sortedCategoriesOf (categoryCount : jsobject nat) : list jsstring :=
  map fst (sortByCount (entries categoryCount)).

Section Matchers.

(** [String.prototype.toLowerCase] *)
Variable toLowerCase : jsstring -> jsstring.

Definition adobeWords (title : jsstring) (keywords : list jsstring)
  : list jsstring :=
  let combinedText :=
    toLowerCase (title ++ js " " ++ join (js " ") keywords) in
  splitSpaces combinedText.

(** The object [categoryCount] when the loop of
    [suggestCategoriesForAdobeStock] ends. *)
Definition adobeCategoryCount (title : jsstring) (keywords : list jsstring)
  : completion (jsobject nat) :=
  countWords adobeCategoryMatches (adobeWords title keywords) [].

Definition suggestCategoriesForAdobeStock (title : jsstring)
  (keywords : list jsstring) : completion (list jsstring) :=
  (categoryCount <- adobeCategoryCount title keywords ;;
   let sortedCategories := sortedCategoriesOf categoryCount in
   Normal (if 1 <=? List.length sortedCategories
           then firstn 1 sortedCategories
           else [js "Animals"]))%completion.

Definition shutterstockWords (title description : jsstring) : list jsstring :=
  let combinedText := toLowerCase (title ++ js " " ++ description) in
  splitSpaces combinedText.

(** The object [categoryCount] when the loop of
    [suggestCategoriesForShutterstock] ends. *)
Definition shutterstockCategoryCount (title description : jsstring)
  : completion (jsobject nat) :=
  countWords shutterstockCategoryMatches (shutterstockWords title description)
    [].

Definition suggestCategoriesForShutterstock (title description : jsstring)
  : completion (list jsstring) :=
  (categoryCount <- shutterstockCategoryCount title description ;;
   let sortedCategories := sortedCategoriesOf categoryCount in
   Normal (if 2 <=? List.length sortedCategories
           then firstn 2 sortedCategories
           else firstn 2 (sortedCategories
                            ++ [js "Miscellaneous"; js "Objects"])))%completion.

End Matchers.

(** [array.findIndex(c => c === x)]; [None] stands for -1. *)
Fixpoint findIndex (l : list jsstring) (x : jsstring) : option nat :=
  match l with
  | [] => None
  | y :: l' => if str_eqb y x then Some 0 else option_map S (findIndex l' x)
  end.

(** The header cells of [formatImagesAsCSV], each written with its quotes. *)
Definition headers (isFreepikOnly isShutterstock isAdobeStock : bool)
  : list jsstring :=
  map (fun h => quoted (js h))
    (if isFreepikOnly
     then ["File name"; "Title"; "Keywords"; "Prompt"; "Base-Model"]
     else if isShutterstock
     then ["Filename"; "Description"; "Keywords"; "Categories"]
     else if isAdobeStock
     then ["Filename"; "Title"; "Keywords"; "Category"]
     else ["Filename"; "Title"; "Description"; "Keywords"])%string.

Definition headerRow (isFreepikOnly isShutterstock isAdobeStock : bool)
  : jsstring :=
  join (if isFreepikOnly then js ";" else js ",")
    (headers isFreepikOnly isShutterstock isAdobeStock).

(** [img.result?.keywords?.join(sep) || ''] *)
Definition keywordsCell (sep : jsstring) (img : ProcessedImage) : jsstring :=
  match result img with
  | Some r => join sep (keywords r)
  | None => []
  end.

(** [img.result?.categories?.join(',') || ''] *)
Definition categoriesCell (img : ProcessedImage) : jsstring :=
  match result img with
  | Some r => match categories r with
              | Some cats => join (js ",") cats
              | None => []
              end
  | None => []
  end.

(** The body of the [.map(img => ...)] callback. *)
Definition csvRow (isFreepikOnly isShutterstock isAdobeStock : bool)
  (img : ProcessedImage) : jsstring :=
  let isVideo := startsWith (type (file img)) (js "video/") in
  let cleanTitle :=
    match result img with
    | Some r =>
        if truthy (title r) then removeSymbolsFromTitle (title r) else []
    | None => []
    end in
  if isVideo then
    let categoryIndex :=
      match result img with
      | Some r =>
          match categories r with
          | Some (cat :: _) =>
              match findIndex adobeStockCategories cat with
              | Some idx => natToString (idx + 1)
              | None => []
              end
          | _ => []
          end
      | None => []
      end in
    join (js ",")
      [quoted (name (file img)); quoted cleanTitle;
       quoted (keywordsCell (js ",") img); quoted categoryIndex]
  else if isFreepikOnly then
    join (js ";")
      [quoted (name (file img)); quoted cleanTitle;
       quoted (keywordsCell (js ", ") img);
       quoted (match result img with
               | Some r => orEmpty (prompt r)
               | None => []
               end);
       quoted (js "leonardo")]
  else if isShutterstock then
    join (js ",")
      [quoted (name (file img));
       quoted (match result img with
               | Some r => description r
               | None => []
               end);
       quoted (keywordsCell (js ",") img); quoted (categoriesCell img)]
  else if isAdobeStock then
    join (js ",")
      [quoted (name (file img)); quoted cleanTitle;
       quoted (keywordsCell (js ", ") img); quoted (categoriesCell img)]
  else
    join (js ",")
      [quoted (name (file img)); quoted cleanTitle;
       quoted (match result img with
               | Some r => description r
               | None => []
               end);
       quoted (keywordsCell (js ", ") img)].

(** [img.status === 'complete' && img.result] *)
Definition isExported (img : ProcessedImage) : bool :=
  status_eqb (status img) complete
  && match result img with Some _ => true | None => false end.

(** The three flags default to [false]. *)
Definition formatImagesAsCSV (images : list ProcessedImage)
  (isFreepikOnly isShutterstock isAdobeStock : bool) : jsstring :=
  join [10%N]
    (headerRow isFreepikOnly isShutterstock isAdobeStock
     :: map (csvRow isFreepikOnly isShutterstock isAdobeStock)
          (filter isExported images)).

(** [downloadCSV]: the folder of the download, chosen by the platform.
    [None] stands for an omitted platform; an empty name is falsy.  The
    Adobe Stock folder ends with the character U+2728. *)
Definition folderName (platform : option jsstring) : jsstring :=
  match platform with
  | Some p =>
      if str_eqb p (js "AdobeStock")
      then js "AdobeStock-MetaData By Pikshine " ++ [10024%N]
      else if str_eqb p (js "Freepik") then js "Freepik-MetaData By Pikshine"
      else if truthy p then p ++ js "-MetaData"
      else js "metadata"
  | None => js "metadata"
  end.

(** The [download] attribute that [downloadCSV] sets on the link;
    [filename] defaults to [image-metadata.csv]. *)
Definition customFilename (filename : jsstring) (platform : option jsstring)
  : jsstring :=
  folderName platform ++ js "/" ++ filename.

(** The word lists of [categories], in the order of [Object.entries]:
    objects, nature, animals, colors, materials, concepts. *)
Definition freepikCategories : list (list jsstring) :=
  map (map js)
  [["table"; "chair"; "desk"; "lamp"; "computer"; "phone"; "book"; "pen";
    "pencil"; "notebook"; "cup"; "mug"; "bottle"; "glass"; "plate"; "bowl";
    "fork"; "knife"; "spoon"; "watch"; "clock"; "bag"; "box"; "container";
    "bin"; "trash"; "recycle"];
   ["tree"; "plant"; "flower"; "grass"; "leaf"; "mountain"; "river"; "lake";
    "ocean"; "sea"; "beach"; "forest"; "garden"; "park"; "sky"; "cloud";
    "rain"; "snow"; "sun"; "moon"; "star"];
   ["dog"; "cat"; "bird"; "fish"; "horse"; "cow"; "sheep"; "goat"; "chicken";
    "pig"; "duck"; "rabbit"; "mouse"; "rat"; "hamster"; "guinea"; "turtle";
    "snake"; "lizard"; "frog"];
   ["red"; "blue"; "green"; "yellow"; "orange"; "purple"; "pink"; "brown";
    "black"; "white"; "gray"; "gold"; "silver"; "bronze"; "copper";
    "turquoise"; "teal"; "navy"; "maroon"; "olive"];
   ["wood"; "metal"; "plastic"; "glass"; "ceramic"; "cotton"; "wool"; "silk";
    "leather"; "paper"; "cardboard"; "stone"; "marble"; "granite"; "concrete";
    "brick"; "rubber"];
   ["happy"; "sad"; "angry"; "calm"; "quiet"; "loud"; "fast"; "slow"; "big";
    "small"; "tall"; "short"; "long"; "wide"; "narrow"; "thick"; "thin";
    "heavy"; "light"; "old"; "new"; "young"; "ancient"; "modern";
    "futuristic"; "vintage"; "retro"; "classic"; "traditional"; "contemporary"]]%string.

Definition styleAdjectives : list jsstring :=
  map js
  ["elegant"; "beautiful"; "stylish"; "modern"; "rustic"; "minimalist";
   "luxurious"; "colorful"; "vintage"; "artistic"]%string.

(** [if (description.includes(word) && !keywords.includes(word))
    keywords.push(word)] *)
Definition pushIfFound (description : jsstring) (keywords : list jsstring)
  (word : jsstring) : list jsstring :=
  if strIncludes description word && negb (includes keywords word)
  then keywords ++ [word]
  else keywords.

Section FreepikKeywords.

(** [String.prototype.toLowerCase] *)
Variable toLowerCase : jsstring -> jsstring.

Definition getRelevantFreepikKeywords (imageDescription : jsstring)
  : list jsstring :=
  let description := toLowerCase imageDescription in
  let words :=
    filter (fun word => 0 <? List.length word)
      (map (replaceAllWithEmpty (negClassMatches [ClassWord]))
         (filter (fun word => 3 <? List.length word)
            (splitSpaces description))) in
  let uniqueWords := arrayFromSet words in
  let keywords0 := uniqueWords in
  let keywords1 :=
    fold_left (fun keywords words =>
                 fold_left (pushIfFound description) words keywords)
      freepikCategories keywords0 in
  let keywords2 :=
    fold_left (pushIfFound description) styleAdjectives keywords1 in
  let keywords3 :=
    if List.length keywords2 <? 15 then
      let k1 :=
        if strIncludes description (js "indoor")
           || strIncludes description (js "room")
           || strIncludes description (js "interior")
        then keywords2 ++ map js ["interior"; "indoor"; "home"; "decor"]%string
        else keywords2 in
      let k2 :=
        if strIncludes description (js "outdoor")
           || strIncludes description (js "outside")
           || strIncludes description (js "garden")
        then k1 ++ map js ["outdoor"; "exterior"; "garden"; "nature"]%string
        else k1 in
      if strIncludes description (js "person")
         || strIncludes description (js "people")
         || strIncludes description (js "man")
         || strIncludes description (js "woman")
      then k2 ++ map js ["person"; "people"; "lifestyle"; "portrait"]%string
      else k2
    else keywords2 in
  firstn 30 (arrayFromSet keywords3).

End FreepikKeywords.

End ImageHelpers.

(* ===================================================================== *)
(** ** geminiApi *)
(* ===================================================================== *)

Module GeminiApi.

Import ImageHelpers.

Inductive Platform :=
| Freepik | AdobeStock | Shutterstock | Vecteezy | Canva | P123RF | Dreamstime.

Definition platform_eqb (a b : Platform) : bool :=
  match a, b with
  | Freepik, Freepik | AdobeStock, AdobeStock | Shutterstock, Shutterstock
  | Vecteezy, Vecteezy | Canva, Canva | P123RF, P123RF
  | Dreamstime, Dreamstime => true
  | _, _ => false
  end.

Inductive GenerationMode := metadata | imageToPrompt.

(** Every member is optional. *)
Record AnalysisOptions := {
  titleLength : option nat;
  descriptionLength : option nat;
  keywordCount : option nat;
  platforms : option (list Platform);
  generationMode : option GenerationMode;
  minTitleWords : option nat;
  maxTitleWords : option nat;
  minKeywords : option nat;
  maxKeywords : option nat;
  minDescriptionWords : option nat;
  maxDescriptionWords : option nat
}.

Record AnalysisResult := {
  title : jsstring;
  description : jsstring;
  keywords : list jsstring;
  prompt : option jsstring;
  baseModel : option jsstring;
  categories : option (list jsstring);
  error : option jsstring
}.

(** A JSON value, as [response.json()] resolves to.  A number is carried by
    the string that [String] makes of it. *)
#[local] Set Warnings "-register-all".
Inductive Json :=
| JsonNull
| JsonBoolean (b : bool)
| JsonNumber (text : jsstring)
| JsonString (s : jsstring)
| JsonArray (items : list Json)
| JsonObject (members : list (jsstring * Json)).
#[local] Set Warnings "register-all".

(** The own member [key] of an object that [JSON.parse] built: of members
    with the same key the last one stays. *)
Fixpoint ownMember (key : jsstring) (members : list (jsstring * Json))
  : option Json :=
  match members with
  | [] => None
  | (k, v) :: rest =>
      match ownMember key rest with
      | Some w => Some w
      | None => if str_eqb k key then Some v else None
      end
  end.

(** [v?.key] for a key that no prototype defines: the own member of an
    object, [undefined] for [null] and for every other value. *)
Definition member (key : jsstring) (v : Json) : option Json :=
  match v with
  | JsonObject members => ownMember key members
  | _ => None
  end.

(** [errorData?.error?.message] *)
Definition errorMessage (errorData : Json) : option Json :=
  match member (js "error") errorData with
  | Some e => member (js "message") e
  | None => None
  end.

Definition jsonTruthy (v : Json) : bool :=
  match v with
  | JsonNull => false
  | JsonBoolean b => b
  | JsonNumber text => negb (str_eqb text (js "0"))
  | JsonString s => truthy s
  | JsonArray _ | JsonObject _ => true
  end.

(** [String(v)], the conversion that [new Error(v)] applies to its argument.
    An array joins the conversions of its items with commas, [null] items
    giving nothing.  An object gives [[object Object]] through
    [Object.prototype.toString], unless an own member [toString] hides that
    method: a member of a JSON object is never a function, [valueOf] returns
    no primitive either, and the conversion throws a [TypeError] with the
    engine's text [notPrimitive]. *)
Fixpoint jsonToString (notPrimitive : jsstring) (v : Json)
  : completion jsstring :=
  match v with
  | JsonNull => Normal (js "null")
  | JsonBoolean b => Normal (if b then js "true" else js "false")
  | JsonNumber text => Normal text
  | JsonString s => Normal s
  | JsonArray items =>
      (fix joinItems (l : list Json) : completion jsstring :=
         match l with
         | [] => Normal []
         | x :: rest =>
             match match x with
                   | JsonNull => Normal []
                   | _ => jsonToString notPrimitive x
                   end with
             | Normal a =>
                 match rest with
                 | [] => Normal a
                 | _ :: _ =>
                     match joinItems rest with
                     | Normal b => Normal (a ++ js "," ++ b)
                     | Throw e => Throw e
                     end
                 end
             | Throw e => Throw e
             end
         end) items
  | JsonObject members =>
      match ownMember (js "toString") members with
      | Some _ => Throw (ErrorObject notPrimitive)
      | None => Normal (js "[object Object]")
      end
  end.

(** What the function reads of the [Response] of [fetch].  [errorBody] is
    [await response.json()] in the branch of an HTTP error: the call rejects,
    or resolves to the JSON value of the body.  [replyText] is
    [await response.json()] followed by
    [data.candidates[0]?.content?.parts[0]?.text || '']: a rejection, a
    [TypeError] of the member chain, or the text. *)
Record Response := {
  ok : bool;
  errorBody : completion Json;
  replyText : completion jsstring
}.

(** The object that [JSON.parse] returns, with the members the function
    reads, each absent or of the type that [AnalysisResult] declares. *)
Record ParsedReply := {
  r_title : option jsstring;
  r_description : option jsstring;
  r_keywords : option (list jsstring);
  r_prompt : option jsstring;
  r_baseModel : option jsstring;
  r_categories : option (list jsstring)
}.

(** The runtime around the function: built-ins, the browser's readers and
    the remote model.  [svgToPng] is [readFileAsText] followed by
    [convertSvgToPng]; [fetchGenerateContent] is the POST to the model
    endpoint, given the key, the options the prompt is built from, the file
    whose MIME type is sent and the inline data; [JSON_parse] is [None] when
    [JSON.parse] throws; [notIterableMessage] and [notPrimitiveMessage] are
    the texts the engine gives the [TypeError] of [for ... of] and the
    [TypeError] of a conversion to a string. *)
Record Runtime := {
  toLowerCase : jsstring -> jsstring;
  svgToPng : File -> completion File;
  fileToBase64 : File -> completion jsstring;
  fetchGenerateContent :
    jsstring -> AnalysisOptions -> File -> option jsstring
    -> completion Response;
  JSON_parse : jsstring -> option ParsedReply;
  notIterableMessage : jsstring;
  notPrimitiveMessage : jsstring
}.

(** [x ?? d] of a destructuring default. *)
Definition withDefault {A} (x : option A) (d : A) : A :=
  match x with
  | Some a => a
  | None => d
  end.

(** Index of the first occurrence of [pat] in [s]. *)
Fixpoint firstOccurrence (pat s : jsstring) : option nat :=
  if startsWith s pat then Some 0
  else match s with
       | [] => None
       | _ :: s' => option_map S (firstOccurrence pat s')
       end.

(** [text.match(/OPEN([\s\S]*?)CLOSE/)] for literal [OPEN] and [CLOSE]: the
    whole match and the group. *)
Definition matchBetween (opener closer text : jsstring)
  : option (jsstring * jsstring) :=
  match firstOccurrence opener text with
  | None => None
  | Some i =>
      let inner := skipn (i + List.length opener) text in
      match firstOccurrence closer inner with
      | None => None
      | Some j =>
          Some (firstn (List.length opener + j + List.length closer)
                  (skipn i text),
                firstn j inner)
      end
  end.

(** [s.replace(/^[^{]*/, '')] with the code unit [c] for the brace. *)
Fixpoint dropUntil (c : char16) (s : jsstring) : jsstring :=
  match s with
  | [] => []
  | x :: s' => if char_eqb x c then s else dropUntil c s'
  end.

(** [text.match(/\{[\s\S]*\}/)]: from the first opening brace to the last
    closing brace after it. *)
Definition matchBraces (text : jsstring) : option jsstring :=
  match dropUntil 123%N text with
  | [] => None
  | b :: after =>
      match dropUntil 125%N (rev after) with
      | [] => None
      | kept => Some (b :: rev kept)
      end
  end.

Definition fenceJson : jsstring := js "```json" ++ [10%N].
Definition fencePlain : jsstring := js "```" ++ [10%N].
Definition fenceClose : jsstring := [10%N] ++ js "```".

(** [jsonMatch ? jsonMatch[1] || jsonMatch[0] : text], then the two
    [replace] calls that cut what precedes the first opening brace and what
    follows the last closing brace. *)
Definition extractJson (text : jsstring) : jsstring :=
  let pick (m : jsstring * jsstring) :=
    if truthy (snd m) then snd m else fst m in
  let jsonStr :=
    match matchBetween fenceJson fenceClose text with
    | Some m => pick m
    | None =>
        match matchBetween fencePlain fenceClose text with
        | Some m => pick m
        | None =>
            match matchBraces text with
            | Some whole => whole
            | None => text
            end
        end
    end in
  rev (dropUntil 125%N (rev (dropUntil 123%N jsonStr))).

(** [String.prototype.trim] *)
Fixpoint trimStart (s : jsstring) : jsstring :=
  match s with
  | [] => []
  | c :: s' => if isSpace c then trimStart s' else s
  end.

Definition trim (s : jsstring) : jsstring :=
  rev (trimStart (rev (trimStart s))).

(** [s.split(',')[1]] *)
Fixpoint splitOn (sep : char16) (cur : jsstring) (s : jsstring)
  : list jsstring :=
  match s with
  | [] => [rev cur]
  | c :: rest =>
      if char_eqb c sep then rev cur :: splitOn sep [] rest
      else splitOn sep (c :: cur) rest
  end.

Definition secondPiece (s : jsstring) : option jsstring :=
  nth_error (splitOn 44%N [] s) 1.

(** [platforms.length === 1 && platforms[0] === p] *)
Definition isOnly (platforms : list Platform) (p : Platform) : bool :=
  match platforms with
  | [q] => platform_eqb q p
  | _ => false
  end.

(** [x || ''] and [x || []] *)
Definition strOr (x : option jsstring) : jsstring :=
  match x with Some s => s | None => [] end.

Definition listOr (x : option (list jsstring)) : list jsstring :=
  match x with Some l => l | None => [] end.

(** [error instanceof Error ? error.message : 'Unknown error occurred'] *)
Definition messageOf (rt : Runtime) (e : thrown) : jsstring :=
  match e with
  | ErrorObject m => m
  | TypeErrorNotIterable => notIterableMessage rt
  | NotAnError => js "Unknown error occurred"
  end.

(** The result of the [catch] clause of [analyzeImageWithGemini]. *)
Definition failureResult (message : jsstring) : AnalysisResult :=
  {| title := []; description := []; keywords := [];
     prompt := None; baseModel := None; categories := None;
     error := Some message |}.

Section Analyze.

Variable rt : Runtime.

(** The statements after [JSON.parse]: the title is cleaned, Freepik falls
    back on generated keywords, and the categories are suggested, which can
    raise the [TypeError] of the matchers. *)
Definition finishResult (isFreepikOnly isShutterstock isAdobeStock : bool)
  (minKeywords : nat) (parsed : ParsedReply) : completion AnalysisResult :=
  let title1 :=
    match r_title parsed with
    | Some t => if truthy t then Some (removeSymbolsFromTitle t) else Some t
    | None => None
    end in
  let keywords1 :=
    if isFreepikOnly then
      match r_keywords parsed with
      | Some ks =>
          if List.length ks <? minKeywords
          then Some (getRelevantFreepikKeywords (toLowerCase rt)
                       (strOr (r_prompt parsed)))
          else Some ks
      | None =>
          Some (getRelevantFreepikKeywords (toLowerCase rt)
                  (strOr (r_prompt parsed)))
      end
    else r_keywords parsed in
  let baseModel1 :=
    if isFreepikOnly then Some (js "leonardo") else r_baseModel parsed in
  (categories1 <-
     (if isShutterstock
      then cats <- suggestCategoriesForShutterstock (toLowerCase rt)
                     (strOr title1) (strOr (r_description parsed)) ;;
           Normal (Some cats)
      else Normal (r_categories parsed)) ;;
   categories2 <-
     (if isAdobeStock
      then cats <- suggestCategoriesForAdobeStock (toLowerCase rt)
                     (strOr title1) (listOr keywords1) ;;
           Normal (Some cats)
      else Normal categories1) ;;
   Normal {| title := strOr title1;
             description := strOr (r_description parsed);
             keywords := listOr keywords1;
             prompt := r_prompt parsed;
             baseModel :=
               Some (match baseModel1 with
                     | Some m => if truthy m then m else js "leonardo"
                     | None => js "leonardo"
                     end);
             categories := categories2;
             error := None |})%completion.

(** The file that is sent: the PNG rendering of an SVG when the conversion
    succeeds, the file itself otherwise. *)
Definition fileToProcess (imageFile : File) : File :=
  let isSvg :=
    str_eqb (type imageFile) (js "image/svg+xml")
    || endsWith (toLowerCase rt (name imageFile)) (js ".svg") in
  if isSvg then
    match svgToPng rt imageFile with
    | Normal png => png
    | Throw _ => imageFile
    end
  else imageFile.

(** The statements of the [try] block up to [await fetch(...)]. *)
Definition sendRequest (imageFile : File) (apiKey : jsstring)
  (options : AnalysisOptions) : completion Response :=
  (base64Image <- fileToBase64 rt (fileToProcess imageFile) ;;
   let base64Data := secondPiece base64Image in
   fetchGenerateContent rt apiKey options (fileToProcess imageFile)
     base64Data)%completion.

(** The statements of the [try] block after [await fetch(...)]. *)
Definition readResponse (options : AnalysisOptions) (response : Response)
  : completion AnalysisResult :=
  let platforms := withDefault (platforms options) [AdobeStock] in
  let generationMode := withDefault (generationMode options) metadata in
  let minKeywords := withDefault (minKeywords options) 25 in
  let isFreepikOnly := isOnly platforms Freepik in
  let isShutterstock := isOnly platforms Shutterstock in
  let isAdobeStock := isOnly platforms AdobeStock in
  if negb (ok response) then
    (errorData <- errorBody response ;;
     message <-
       jsonToString (notPrimitiveMessage rt)
         (match errorMessage errorData with
          | Some m =>
              if jsonTruthy m then m
              else JsonString (js "Failed to analyze image")
          | None => JsonString (js "Failed to analyze image")
          end) ;;
     Throw (ErrorObject message))%completion
  else
    (text <- replyText response ;;
    match generationMode with
    | imageToPrompt =>
        Normal {| title := []; description := trim text; keywords := [];
                  prompt := None; baseModel := None; categories := None;
                  error := None |}
    | metadata =>
        match JSON_parse rt (extractJson text) with
        | None =>
            Throw (ErrorObject
                     (js "Failed to parse metadata from the API response"))
        | Some parsed =>
            finishResult isFreepikOnly isShutterstock isAdobeStock
              minKeywords parsed
        end
    end)%completion.

(** The [try] block of [analyzeImageWithGemini]. *)
Definition analyzeTry (imageFile : File) (apiKey : jsstring)
  (options : AnalysisOptions) : completion AnalysisResult :=
  (response <- sendRequest imageFile apiKey options ;;
   readResponse options response)%completion.

Definition analyzeImageWithGemini (imageFile : File) (apiKey : jsstring)
  (options : AnalysisOptions) : completion AnalysisResult :=
  tryCatch (analyzeTry imageFile apiKey options)
    (fun e => Normal (failureResult (messageOf rt e))).

End Analyze.

End GeminiApi.

(* ===================================================================== *)
(** ** ImageUploader *)
(* ===================================================================== *)

Module ImageUploader.

Import ImageHelpers.

(** What the asynchronous closure of [processFiles] yields for one file: the
    image, or [null] after an error notice. *)
Inductive FileOutcome :=
| Accepted (image : ProcessedImage)
| Rejected (notice : jsstring).

Section ProcessFiles.

(** [createImagePreview] reads the file through a [FileReader] and can
    reject; [generateId] draws a random identifier, here the one drawn for
    the file at a given position of the list. *)
Variable createImagePreview : File -> completion jsstring.
Variable generateId : nat -> jsstring.

Definition processFile (position : nat) (file : File) : FileOutcome :=
  if negb (isValidMediaType file) then
    Rejected (name file ++ js " is not a valid image or video file. Only JPEG, PNG, SVG, AI, EPS images and MP4, MOV, AVI videos are supported.")
  else if negb (isValidFileSize file) then
    Rejected (name file ++ js " exceeds the 10GB size limit.")
  else
    match createImagePreview file with
    | Normal previewUrl =>
        Accepted {| id := generateId position; file := file;
                    previewUrl := previewUrl; status := pending;
                    result := None; errorMessage := None |}
    | Throw _ => Rejected (js "Failed to process " ++ name file)
    end.

Fixpoint processFrom (position : nat) (files : list File)
  : list FileOutcome :=
  match files with
  | [] => []
  | file :: rest => processFile position file :: processFrom (S position) rest
  end.

(** [results.filter(Boolean)] *)
Fixpoint validResults (results : list FileOutcome) : list ProcessedImage :=
  match results with
  | [] => []
  | Accepted image :: rest => image :: validResults rest
  | Rejected _ :: rest => validResults rest
  end.

(** The argument of [onImagesSelected], or [None] when the callback is not
    called because no file passed. *)
Definition processFiles (files : list File) : option (list ProcessedImage) :=
  match validResults (processFrom 0 files) with
  | [] => None
  | images => Some images
  end.

End ProcessFiles.

End ImageUploader.

(* ===================================================================== *)
(** ** Index: the page state and the processing run *)
(* ===================================================================== *)

Module Index.

Import ImageHelpers.

(** What a run does besides returning: notices, state updates (with the image
    list that the update produces), timers and calls of
    [analyzeImageWithGemini]. *)
Inductive Effect :=
| ToastError (message : jsstring)
| ToastInfo (message : jsstring)
| ToastSuccess (message : jsstring)
| SetIsProcessing (value : bool)
| SetImages (images : list ProcessedImage)
| Timeout (milliseconds : nat)
| Analyze (file : File).

(** [setImages(prev => [...prev, ...newImages])] *)
Definition handleImagesSelected (images newImages : list ProcessedImage)
  : list ProcessedImage :=
  images ++ newImages.

(** [setImages(prev => prev.filter(img => img.id !== id))] *)
Definition handleRemoveImage (images : list ProcessedImage) (id0 : jsstring)
  : list ProcessedImage :=
  filter (fun img => negb (str_eqb (id img) id0)) images.

Definition handleClearAll : list ProcessedImage := [].

(** [{ ...img, status: 'processing' }] for the pending images. *)
Definition markProcessing (images : list ProcessedImage)
  : list ProcessedImage :=
  map (fun img =>
         if status_eqb (status img) pending
         then {| id := id img; file := file img; previewUrl := previewUrl img;
                 status := processing; result := result img;
                 errorMessage := errorMessage img |}
         else img) images.

(** A string-valued member is truthy when present and not empty. *)
Definition truthyError (e : option jsstring) : bool :=
  match e with
  | Some m => truthy m
  | None => false
  end.

(** The object that replaces the image whose [id] matches after the call
    returned [r]. *)
Definition withResult (isFreepikOnly isShutterstock : bool)
  (img : ProcessedImage) (r : GeminiApi.AnalysisResult) : ProcessedImage :=
  {| id := id img; file := file img; previewUrl := previewUrl img;
     status := if truthyError (GeminiApi.error r) then error else complete;
     result :=
       if truthyError (GeminiApi.error r) then None
       else Some {| title := GeminiApi.title r;
                    description := GeminiApi.description r;
                    keywords := GeminiApi.keywords r;
                    prompt := if isFreepikOnly then GeminiApi.prompt r
                              else None;
                    baseModel := if isFreepikOnly then GeminiApi.baseModel r
                                 else None;
                    categories := if isShutterstock
                                  then GeminiApi.categories r else None |};
     errorMessage := GeminiApi.error r |}.

(** The object that replaces the image in the [catch] clause of the loop. *)
Definition withException (img : ProcessedImage) (message : jsstring)
  : ProcessedImage :=
  {| id := id img; file := file img; previewUrl := previewUrl img;
     status := error; result := result img; errorMessage := Some message |}.

(** [prev.map(img => img.id === image.id ? f img : img)] *)
Definition updateById (id0 : jsstring) (f : ProcessedImage -> ProcessedImage)
  (prev : list ProcessedImage) : list ProcessedImage :=
  map (fun img => if str_eqb (id img) id0 then f img else img) prev.

Section Run.

(** [analyzeImageWithGemini(image.file, apiKey, options)] for the key and
    options of the run, and the message text of a caught exception. *)
Variable analyze : File -> completion GeminiApi.AnalysisResult.
Variable messageOf : thrown -> jsstring.
Variable platforms : list GeminiApi.Platform.

(** The object that the update after the call for [image] puts in place of
    [img]: the [try] branch when the call returned, the [catch] branch when
    it threw. *)
Definition replacement (image img : ProcessedImage) : ProcessedImage :=
  let isFreepikOnly := GeminiApi.isOnly platforms GeminiApi.Freepik in
  let isShutterstock := GeminiApi.isOnly platforms GeminiApi.Shutterstock in
  match analyze (file image) with
  | Normal r => withResult isFreepikOnly isShutterstock img r
  | Throw e => withException img (messageOf e)
  end.

(** The body of [for (const image of pendingImages)], from the image at
    position [index] on.  The elements of [pendingImages] are distinct
    objects, so [pendingImages.indexOf(image)] is the position of [image].
    [images] is the state the updates apply to; the result is the effects in
    order and the state at the end. *)
Fixpoint processLoop (index : nat) (pendingImages : list ProcessedImage)
  (images : list ProcessedImage) : list Effect * list ProcessedImage :=
  match pendingImages with
  | [] => ([], images)
  | image :: rest =>
      let delay := if 0 <? index then [Timeout 2000] else [] in
      let images1 := updateById (id image) (replacement image) images in
      let (effects, final) := processLoop (S index) rest images1 in
      (delay ++ [Analyze (file image); SetImages images1] ++ effects, final)
  end.

(** [handleProcessImages], run on the state [images] with no other update
    of the state in between.  [canGenerateMetadata] and [creditsGranted] are
    the flag of the context and the value [incrementCreditsUsed()] resolves
    to. *)
Definition handleProcessImages (apiKey : jsstring)
  (canGenerateMetadata creditsGranted : bool) (images : list ProcessedImage)
  : list Effect * list ProcessedImage :=
  if negb (truthy apiKey) then
    ([ToastError (js "Please enter your Gemini API key first")], images)
  else
    let pendingImages :=
      filter (fun img => status_eqb (status img) pending) images in
    match pendingImages with
    | [] => ([ToastInfo (js "No images to process")], images)
    | _ :: _ =>
        if negb canGenerateMetadata then
          ([ToastError (js "You have reached your free limit. Please upgrade to premium.")],
           images)
        else if negb creditsGranted then ([], images)
        else
          let images0 := markProcessing images in
          let (effects, final) := processLoop 0 pendingImages images0 in
          ([SetIsProcessing true; SetImages images0] ++ effects
           ++ [ToastSuccess (js "All images processed successfully");
               SetIsProcessing false],
           final)
    end.

End Run.

(** What the user does on the page.  An upload carries the behaviour of the
    file reader and of the identifier generator during that upload; a
    processing run carries the behaviour of the model call during that run. *)
Inductive Action :=
| Upload (createImagePreview : File -> completion jsstring)
    (generateId : nat -> jsstring) (files : list File)
| Remove (id0 : jsstring)
| ClearAll
| Process (analyze : File -> completion GeminiApi.AnalysisResult)
    (messageOf : thrown -> jsstring) (platforms : list GeminiApi.Platform)
    (apiKey : jsstring) (canGenerateMetadata creditsGranted : bool).

Definition act (images : list ProcessedImage) (a : Action)
  : list Effect * list ProcessedImage :=
  match a with
  | Upload createImagePreview generateId files =>
      match ImageUploader.processFiles createImagePreview generateId files
      with
      | Some newImages => ([], handleImagesSelected images newImages)
      | None => ([], images)
      end
  | Remove id0 => ([], handleRemoveImage images id0)
  | ClearAll => ([], handleClearAll)
  | Process analyze messageOf platforms apiKey can granted =>
      handleProcessImages analyze messageOf platforms apiKey can granted
        images
  end.

(** A session of the page from the state [images]: all effects in order and
    the last state. *)
Fixpoint session (actions : list Action) (images : list ProcessedImage)
  : list Effect * list ProcessedImage :=
  match actions with
  | [] => ([], images)
  | a :: rest =>
      let (effects1, images1) := act images a in
      let (effects2, images2) := session rest images1 in
      (effects1 ++ effects2, images2)
  end.

(** The files that [analyzeImageWithGemini] was called on. *)
Fixpoint analyzedFiles (effects : list Effect) : list File :=
  match effects with
  | [] => []
  | Analyze f :: rest => f :: analyzedFiles rest
  | _ :: rest => analyzedFiles rest
  end.

(** The timers of a run and the states it went through. *)
Fixpoint timeouts (effects : list Effect) : list nat :=
  match effects with
  | [] => []
  | Timeout ms :: rest => ms :: timeouts rest
  | _ :: rest => timeouts rest
  end.

Fixpoint states (effects : list Effect) : list (list ProcessedImage) :=
  match effects with
  | [] => []
  | SetImages images :: rest => images :: states rest
  | _ :: rest => states rest
  end.

(** The status of the image with a given [id] in a state. *)
Definition statusOf (images : list ProcessedImage) (id0 : jsstring)
  : option Status :=
  option_map status (find (fun img => str_eqb (id img) id0) images).


Definition isTerminal (s : Status) : bool :=
  match s with
  | complete | error => true
  | _ => false
  end.

End Index.

(* ===================================================================== *)
(** ** The specification's wording, for comparison with the code *)
(* ===================================================================== *)

Module Spec.

(** Title cleaning as the specification words it: everything is removed
    except alphanumeric characters, spaces, commas, periods, hyphens and
    parentheses. *)
Definition allowedInTitle (c : char16) : bool :=
  isAsciiUpper c || isAsciiLower c || isAsciiDigit c
  || (c =? 32)%N || (c =? 44)%N || (c =? 46)%N || (c =? 45)%N
  || (c =? 40)%N || (c =? 41)%N.

Definition containsBannedSymbol (s : jsstring) : bool :=
  existsb (fun c => negb (allowedInTitle c)) s.

Definition cleanedTitle (s : jsstring) : jsstring := filter allowedInTitle s.

(** The category matcher as section 4.1 words it.  Every token is looked up
    in the table; [tokenMatches] lists the categories found, token after
    token. *)
Definition tokenMatches (table : jsobject (list jsstring))
  (tokens : list jsstring) : list jsstring :=
  flat_map (fun w => match getOwn table w with
                     | Some cats => cats
                     | None => []
                     end) tokens.

(** The frequency count of a category. *)
Definition frequency (matches : list jsstring) (c : jsstring) : nat :=
  List.length (filter (str_eqb c) matches).

(** The matched categories, each once, in the order of first insertion. *)
Definition firstInsertions (matches : list jsstring) : list jsstring :=
  fold_left (fun seen c => if includes seen c then seen else seen ++ [c])
    matches [].

(** The frequency count per category: one entry for each matched category,
    in the order of first insertion. *)
Definition frequencyTable (table : jsobject (list jsstring))
  (tokens : list jsstring) : jsobject nat :=
  let matches := tokenMatches table tokens in
  map (fun c => (c, frequency matches c)) (firstInsertions matches).

(** Stable sort, descending by a key. *)
Fixpoint insertDescending (key : jsstring -> nat) (c : jsstring)
  (l : list jsstring) : list jsstring :=
  match l with
  | [] => [c]
  | d :: l' =>
      if key c <? key d then d :: insertDescending key c l' else c :: d :: l'
  end.

Definition sortDescending (key : jsstring -> nat) (l : list jsstring)
  : list jsstring :=
  fold_right (insertDescending key) [] l.

(** The matched categories, most frequent first, ties in the order of first
    insertion. *)
Definition rankedCategories (table : jsobject (list jsstring))
  (tokens : list jsstring) : list jsstring :=
  let matches := tokenMatches table tokens in
  sortDescending (frequency matches) (firstInsertions matches).

(** The top [n] matched categories, or the default list when no token
    matches. *)
Definition topCategories (n : nat) (default : list jsstring)
  (table : jsobject (list jsstring)) (tokens : list jsstring)
  : list jsstring :=
  match tokenMatches table tokens with
  | [] => default
  | _ :: _ => firstn n (rankedCategories table tokens)
  end.

End Spec.

(* ===================================================================== *)
(** ** Descriptions used in the statements *)
(* ===================================================================== *)

(** The code units that [removeSymbolsFromTitle] keeps, written out. *)
Definition keptInTitle (c : char16) : bool :=
  isAsciiUpper c || isAsciiLower c || isAsciiDigit c || (c =? 95)%N
  || isSpace c
  || (c =? 46)%N || (c =? 44)%N || (c =? 40)%N || (c =? 41)%N || (c =? 45)%N.

(** Descending order of a count. *)
Definition byCount (key : jsstring -> nat) (a b : jsstring) : Prop :=
  key b <= key a.

(** Reading [table[w]] finds nothing of [Object.prototype]. *)
Definition readsOwnOrNothing (table : jsobject (list jsstring))
  (w : jsstring) : Prop :=
  getProperty table w <> Inherited.

(** A lower-casing function that agrees with ECMAScript's on ASCII
    strings. *)
Definition lowersAscii (toLowerCase : jsstring -> jsstring) : Prop :=
  forall s, isAscii s -> toLowerCase s = toLowerCaseAscii s.

(** The data row that the specification words for the default platform:
    four quoted fields, the file name, the title, the description and the
    keywords joined by a comma and a space. *)
Definition fourQuotedFields (fileName title description : jsstring)
  (keywords : list jsstring) : jsstring :=
  join (js ",")
    [ImageHelpers.quoted fileName; ImageHelpers.quoted title;
     ImageHelpers.quoted description;
     ImageHelpers.quoted (join (js ", ") keywords)].

(** The header of the default platform. *)
Definition defaultHeader : jsstring :=
  join (js ",")
    (map (fun h => ImageHelpers.quoted (js h))
       ["Filename"; "Title"; "Description"; "Keywords"]%string).

(** The header of the selected platform, written out: each cell between
    double quotes (code unit 34), the cells separated by a semicolon for
    Freepik and by a comma for the others.  Freepik comes before
    Shutterstock, Shutterstock before Adobe Stock. *)
Definition cell (text : string) : jsstring := 34%N :: js text ++ [34%N].

Definition selectedHeader (isFreepikOnly isShutterstock isAdobeStock : bool)
  : jsstring :=
  if isFreepikOnly then
    cell "File name" ++ js ";" ++ cell "Title" ++ js ";" ++ cell "Keywords"
    ++ js ";" ++ cell "Prompt" ++ js ";" ++ cell "Base-Model"
  else if isShutterstock then
    cell "Filename" ++ js "," ++ cell "Description" ++ js ","
    ++ cell "Keywords" ++ js "," ++ cell "Categories"
  else if isAdobeStock then
    cell "Filename" ++ js "," ++ cell "Title" ++ js "," ++ cell "Keywords"
    ++ js "," ++ cell "Category"
  else
    cell "Filename" ++ js "," ++ cell "Title" ++ js ","
    ++ cell "Description" ++ js "," ++ cell "Keywords".

(** The columns of the export for an image that is not a video: the name in
    each header cell with the content of the field that stands under it. *)
Definition columnsOf (isFreepikOnly isShutterstock isAdobeStock : bool)
  (fileName : jsstring) (r : ImageHelpers.ImageResult)
  : list (string * jsstring) :=
  let cleanTitle :=
    ImageHelpers.removeSymbolsFromTitle (ImageHelpers.title r) in
  let categories :=
    match ImageHelpers.categories r with
    | Some cats => join (js ",") cats
    | None => []
    end in
  if isFreepikOnly then
    [("File name", fileName); ("Title", cleanTitle);
     ("Keywords", join (js ", ") (ImageHelpers.keywords r));
     ("Prompt", match ImageHelpers.prompt r with
                | Some p => p
                | None => []
                end);
     ("Base-Model", js "leonardo")]%string
  else if isShutterstock then
    [("Filename", fileName); ("Description", ImageHelpers.description r);
     ("Keywords", join (js ",") (ImageHelpers.keywords r));
     ("Categories", categories)]%string
  else if isAdobeStock then
    [("Filename", fileName); ("Title", cleanTitle);
     ("Keywords", join (js ", ") (ImageHelpers.keywords r));
     ("Category", categories)]%string
  else
    [("Filename", fileName); ("Title", cleanTitle);
     ("Description", ImageHelpers.description r);
     ("Keywords", join (js ", ") (ImageHelpers.keywords r))]%string.

(** A video clip that finished processing, with an empty description. *)
Definition sampleVideo : ImageHelpers.ProcessedImage :=
  {| ImageHelpers.id := js "k3j9x2a";
     ImageHelpers.file :=
       {| ImageHelpers.name := js "clip.mp4";
          ImageHelpers.type := js "video/mp4";
          ImageHelpers.size := 1048576%N |};
     ImageHelpers.previewUrl := js "data:video/mp4;base64,AAAA";
     ImageHelpers.status := ImageHelpers.complete;
     ImageHelpers.result :=
       Some {| ImageHelpers.title := js "Sunset over the sea";
               ImageHelpers.description := [];
               ImageHelpers.keywords := [js "sunset"; js "sea"];
               ImageHelpers.prompt := None;
               ImageHelpers.baseModel := None;
               ImageHelpers.categories := None |};
     ImageHelpers.errorMessage := None |}.

(** A photograph that finished processing, with an empty description. *)
Definition samplePhoto : ImageHelpers.ProcessedImage :=
  {| ImageHelpers.id := js "q8w2e1z";
     ImageHelpers.file :=
       {| ImageHelpers.name := js "beach.jpg";
          ImageHelpers.type := js "image/jpeg";
          ImageHelpers.size := 204800%N |};
     ImageHelpers.previewUrl := js "data:image/jpeg;base64,AAAA";
     ImageHelpers.status := ImageHelpers.complete;
     ImageHelpers.result :=
       Some {| ImageHelpers.title := js "Sunset & sea!";
               ImageHelpers.description := [];
               ImageHelpers.keywords := [js "sunset"; js "sea"];
               ImageHelpers.prompt := None;
               ImageHelpers.baseModel := None;
               ImageHelpers.categories := None |};
     ImageHelpers.errorMessage := None |}.

(** An upload that is still waiting. *)
Definition samplePending : ImageHelpers.ProcessedImage :=
  {| ImageHelpers.id := js "m4n5b6v";
     ImageHelpers.file :=
       {| ImageHelpers.name := js "tree.png";
          ImageHelpers.type := js "image/png";
          ImageHelpers.size := 4096%N |};
     ImageHelpers.previewUrl := js "data:image/png;base64,AAAA";
     ImageHelpers.status := ImageHelpers.pending;
     ImageHelpers.result := None;
     ImageHelpers.errorMessage := None |}.

(** A PDF document offered for upload. *)
Definition samplePdf : ImageHelpers.File :=
  {| ImageHelpers.name := js "report.pdf";
     ImageHelpers.type := js "application/pdf";
     ImageHelpers.size := 52000%N |}.

(** The files that pass the type check of the uploader. *)
Definition validFile (f : ImageHelpers.File) : Prop :=
  ImageHelpers.isValidMediaType f = true.

(** The status that the run gives an image once its call ended. *)
Definition statusAfter (c : completion GeminiApi.AnalysisResult)
  : ImageHelpers.Status :=
  match c with
  | Normal r =>
      if Index.truthyError (GeminiApi.error r)
      then ImageHelpers.error else ImageHelpers.complete
  | Throw _ => ImageHelpers.error
  end.

(** The image of the batch as the first update of the run leaves it. *)
Definition asProcessing (img : ImageHelpers.ProcessedImage)
  : ImageHelpers.ProcessedImage :=
  {| ImageHelpers.id := ImageHelpers.id img;
     ImageHelpers.file := ImageHelpers.file img;
     ImageHelpers.previewUrl := ImageHelpers.previewUrl img;
     ImageHelpers.status := ImageHelpers.processing;
     ImageHelpers.result := ImageHelpers.result img;
     ImageHelpers.errorMessage := ImageHelpers.errorMessage img |}.

(** An image marked as failed with a message. *)
Definition asFailed (img : ImageHelpers.ProcessedImage) (message : jsstring)
  : ImageHelpers.ProcessedImage :=
  {| ImageHelpers.id := ImageHelpers.id img;
     ImageHelpers.file := ImageHelpers.file img;
     ImageHelpers.previewUrl := ImageHelpers.previewUrl img;
     ImageHelpers.status := ImageHelpers.error;
     ImageHelpers.result := None;
     ImageHelpers.errorMessage := Some message |}.

(** The AI call for a file fails with a message that is not empty: the
    endpoint answers with an HTTP error status, whose body gives a message
    that converts to a string that is not empty, or gives none, or gives one
    that cannot be converted, or whose body cannot be read (the engine's
    error then has a message that is not empty); or the reply is read in
    metadata mode and [JSON.parse] throws on the text extracted from it. *)
Inductive AiCallFails (rt : GeminiApi.Runtime) (imageFile : ImageHelpers.File)
  (apiKey : jsstring) (options : GeminiApi.AnalysisOptions)
  : jsstring -> Prop :=
| HttpErrorWithMessage response errorData value message :
    GeminiApi.sendRequest rt imageFile apiKey options = Normal response ->
    GeminiApi.ok response = false ->
    GeminiApi.errorBody response = Normal errorData ->
    GeminiApi.errorMessage errorData = Some value ->
    GeminiApi.jsonTruthy value = true ->
    GeminiApi.jsonToString (GeminiApi.notPrimitiveMessage rt) value
    = Normal message ->
    truthy message = true ->
    AiCallFails rt imageFile apiKey options message
| HttpErrorWithoutMessage response errorData :
    GeminiApi.sendRequest rt imageFile apiKey options = Normal response ->
    GeminiApi.ok response = false ->
    GeminiApi.errorBody response = Normal errorData ->
    GeminiApi.errorMessage errorData = None
    \/ (exists value,
          GeminiApi.errorMessage errorData = Some value
          /\ GeminiApi.jsonTruthy value = false) ->
    AiCallFails rt imageFile apiKey options (js "Failed to analyze image")
| HttpErrorNotConvertible response errorData value e :
    GeminiApi.sendRequest rt imageFile apiKey options = Normal response ->
    GeminiApi.ok response = false ->
    GeminiApi.errorBody response = Normal errorData ->
    GeminiApi.errorMessage errorData = Some value ->
    GeminiApi.jsonTruthy value = true ->
    GeminiApi.jsonToString (GeminiApi.notPrimitiveMessage rt) value
    = Throw e ->
    truthy (GeminiApi.messageOf rt e) = true ->
    AiCallFails rt imageFile apiKey options (GeminiApi.messageOf rt e)
| HttpErrorUnreadable response e :
    GeminiApi.sendRequest rt imageFile apiKey options = Normal response ->
    GeminiApi.ok response = false ->
    GeminiApi.errorBody response = Throw e ->
    truthy (GeminiApi.messageOf rt e) = true ->
    AiCallFails rt imageFile apiKey options (GeminiApi.messageOf rt e)
| UnparsableReply response text :
    GeminiApi.sendRequest rt imageFile apiKey options = Normal response ->
    GeminiApi.ok response = true ->
    GeminiApi.replyText response = Normal text ->
    GeminiApi.withDefault (GeminiApi.generationMode options)
      GeminiApi.metadata = GeminiApi.metadata ->
    GeminiApi.JSON_parse rt (GeminiApi.extractJson text) = None ->
    AiCallFails rt imageFile apiKey options
      (js "Failed to parse metadata from the API response").

(** Two more uploads that are still waiting, and a batch of three. *)
Definition samplePending2 : ImageHelpers.ProcessedImage :=
  {| ImageHelpers.id := js "a1s2d3f";
     ImageHelpers.file :=
       {| ImageHelpers.name := js "harbour.jpg";
          ImageHelpers.type := js "image/jpeg";
          ImageHelpers.size := 8192%N |};
     ImageHelpers.previewUrl := js "data:image/jpeg;base64,BBBB";
     ImageHelpers.status := ImageHelpers.pending;
     ImageHelpers.result := None;
     ImageHelpers.errorMessage := None |}.

Definition samplePending3 : ImageHelpers.ProcessedImage :=
  {| ImageHelpers.id := js "z9y8x7w";
     ImageHelpers.file :=
       {| ImageHelpers.name := js "market.webp";
          ImageHelpers.type := js "image/webp";
          ImageHelpers.size := 16384%N |};
     ImageHelpers.previewUrl := js "data:image/webp;base64,CCCC";
     ImageHelpers.status := ImageHelpers.pending;
     ImageHelpers.result := None;
     ImageHelpers.errorMessage := None |}.

Definition sampleBatch : list ImageHelpers.ProcessedImage :=
  [samplePending; samplePending2; samplePending3].

(** A runtime in which the endpoint refuses the file [tree.png] with an HTTP
    error and answers every other file with a JSON object. *)
Definition sampleRuntime : GeminiApi.Runtime :=
  {| GeminiApi.toLowerCase := toLowerCaseAscii;
     GeminiApi.svgToPng := fun f => Normal f;
     GeminiApi.fileToBase64 :=
       fun _ => Normal (js "data:image/png;base64,AAAA");
     GeminiApi.fetchGenerateContent :=
       fun _ _ f _ =>
         if str_eqb (ImageHelpers.name f) (js "tree.png")
         then Normal {| GeminiApi.ok := false;
                        GeminiApi.errorBody :=
                          Normal
                            (GeminiApi.JsonObject
                               [(js "error",
                                 GeminiApi.JsonObject
                                   [(js "code", GeminiApi.JsonNumber (js "429"));
                                    (js "message",
                                     GeminiApi.JsonString
                                       (js "Quota exceeded"))])]);
                        GeminiApi.replyText := Normal [] |}
         else Normal {| GeminiApi.ok := true;
                        GeminiApi.errorBody :=
                          Normal (GeminiApi.JsonObject []);
                        GeminiApi.replyText :=
                          Normal (js "{ title: Boats, keywords: [boat] }") |};
     GeminiApi.JSON_parse :=
       fun _ => Some {| GeminiApi.r_title := Some (js "Boats & nets");
                        GeminiApi.r_description := None;
                        GeminiApi.r_keywords := Some [js "boat"; js "ship"];
                        GeminiApi.r_prompt := None;
                        GeminiApi.r_baseModel := None;
                        GeminiApi.r_categories := None |};
     GeminiApi.notIterableMessage := js "object is not iterable";
     GeminiApi.notPrimitiveMessage :=
       js "Cannot convert object to primitive value" |}.

(** The body [{"error": {"message": []}}] of an HTTP error response, and a
    runtime in which the endpoint answers every request with it. *)
Definition emptyMessageResponse : GeminiApi.Response :=
  {| GeminiApi.ok := false;
     GeminiApi.errorBody :=
       Normal
         (GeminiApi.JsonObject
            [(js "error",
              GeminiApi.JsonObject
                [(js "message", GeminiApi.JsonArray [])])]);
     GeminiApi.replyText := Normal [] |}.

Definition emptyMessageRuntime : GeminiApi.Runtime :=
  {| GeminiApi.toLowerCase := toLowerCaseAscii;
     GeminiApi.svgToPng := fun f => Normal f;
     GeminiApi.fileToBase64 :=
       fun _ => Normal (js "data:image/png;base64,AAAA");
     GeminiApi.fetchGenerateContent :=
       fun _ _ _ _ => Normal emptyMessageResponse;
     GeminiApi.JSON_parse := fun _ => None;
     GeminiApi.notIterableMessage := js "object is not iterable";
     GeminiApi.notPrimitiveMessage :=
       js "Cannot convert object to primitive value" |}.

(** An image with the identifier of [samplePending] and another file. *)
Definition sampleTwin : ImageHelpers.ProcessedImage :=
  {| ImageHelpers.id := js "m4n5b6v";
     ImageHelpers.file :=
       {| ImageHelpers.name := js "harbour.jpg";
          ImageHelpers.type := js "image/jpeg";
          ImageHelpers.size := 8192%N |};
     ImageHelpers.previewUrl := js "data:image/jpeg;base64,BBBB";
     ImageHelpers.status := ImageHelpers.pending;
     ImageHelpers.result := None;
     ImageHelpers.errorMessage := None |}.

(** The options the page passes with its initial settings. *)
Definition sampleOptions : GeminiApi.AnalysisOptions :=
  {| GeminiApi.titleLength := Some 200;
     GeminiApi.descriptionLength := Some 200;
     GeminiApi.keywordCount := Some 50;
     GeminiApi.platforms := Some [GeminiApi.AdobeStock];
     GeminiApi.generationMode := Some GeminiApi.metadata;
     GeminiApi.minTitleWords := Some 12;
     GeminiApi.maxTitleWords := Some 15;
     GeminiApi.minKeywords := Some 35;
     GeminiApi.maxKeywords := Some 45;
     GeminiApi.minDescriptionWords := Some 12;
     GeminiApi.maxDescriptionWords := Some 30 |}.

Definition sampleAnalyze (f : ImageHelpers.File)
  : completion GeminiApi.AnalysisResult :=
  GeminiApi.analyzeImageWithGemini sampleRuntime f (js "AIza-key")
    sampleOptions.

(** A keyword made of word characters only, and not empty. *)
Definition plainKeyword (k : jsstring) : Prop :=
  k <> [] /\ Forall (fun c => isWord c = true) k.

(** The words that [getRelevantFreepikKeywords] looks for in a description,
    and the general words it adds to a short list. *)
Definition listedWords : list jsstring :=
  List.concat ImageHelpers.freepikCategories ++ ImageHelpers.styleAdjectives.

Definition generalWords : list jsstring :=
  map js ["interior"; "indoor"; "home"; "decor"; "outdoor"; "exterior";
          "garden"; "nature"; "person"; "people"; "lifestyle";
          "portrait"]%string.

Definition generalTriggers : list jsstring :=
  map js ["indoor"; "room"; "interior"; "outdoor"; "outside"; "garden";
          "person"; "people"; "man"; "woman"]%string.

(** The separator of a layout. *)
Definition layoutSeparator (isFreepikOnly : bool) : jsstring :=
  if isFreepikOnly then js ";" else js ",".

(** A file that the export treats as a video. *)
Definition isVideoFile (f : ImageHelpers.File) : bool :=
  startsWith (ImageHelpers.type f) (js "video/").

(** The platforms, the mode and the keyword minimum that
    [analyzeImageWithGemini] works with, after the defaults. *)
Definition platformsOf (options : GeminiApi.AnalysisOptions)
  : list GeminiApi.Platform :=
  GeminiApi.withDefault (GeminiApi.platforms options) [GeminiApi.AdobeStock].

Definition modeOf (options : GeminiApi.AnalysisOptions)
  : GeminiApi.GenerationMode :=
  GeminiApi.withDefault (GeminiApi.generationMode options) GeminiApi.metadata.

Definition minKeywordsOf (options : GeminiApi.AnalysisOptions) : nat :=
  GeminiApi.withDefault (GeminiApi.minKeywords options) 25.

(** The keywords of a result for Freepik alone: those of the reply when it
    has at least the minimum asked for, otherwise (too few, or none at all)
    those generated from the prompt of the reply, or from the empty string
    when the reply has no prompt. *)
Definition freepikKeywordsOf (toLowerCase : jsstring -> jsstring)
  (minKeywords : nat) (parsed : GeminiApi.ParsedReply) : list jsstring :=
  let generated :=
    ImageHelpers.getRelevantFreepikKeywords toLowerCase
      (match GeminiApi.r_prompt parsed with
       | Some p => p
       | None => []
       end) in
  match GeminiApi.r_keywords parsed with
  | Some ks => if minKeywords <=? List.length ks then ks else generated
  | None => generated
  end.

(** The reply to a request was received, read in metadata mode and parsed. *)
Definition replyParsed (rt : GeminiApi.Runtime) (imageFile : ImageHelpers.File)
  (apiKey : jsstring) (options : GeminiApi.AnalysisOptions)
  (parsed : GeminiApi.ParsedReply) : Prop :=
  exists response text,
    GeminiApi.sendRequest rt imageFile apiKey options = Normal response
    /\ GeminiApi.ok response = true
    /\ GeminiApi.replyText response = Normal text
    /\ modeOf options = GeminiApi.metadata
    /\ GeminiApi.JSON_parse rt (GeminiApi.extractJson text) = Some parsed.


(** The reply parsed by the next runtime: its title holds the word
    [Constructor]. *)
Definition constructorReply : GeminiApi.ParsedReply :=
  {| GeminiApi.r_title := Some (js "Constructor at work!");
     GeminiApi.r_description := None;
     GeminiApi.r_keywords := Some [js "helmet"; js "building"];
     GeminiApi.r_prompt := None;
     GeminiApi.r_baseModel := None;
     GeminiApi.r_categories := None |}.

(** The sample runtime, with that reply. *)
Definition constructorRuntime : GeminiApi.Runtime :=
  {| GeminiApi.toLowerCase := toLowerCaseAscii;
     GeminiApi.svgToPng := GeminiApi.svgToPng sampleRuntime;
     GeminiApi.fileToBase64 := GeminiApi.fileToBase64 sampleRuntime;
     GeminiApi.fetchGenerateContent :=
       GeminiApi.fetchGenerateContent sampleRuntime;
     GeminiApi.JSON_parse := fun _ => Some constructorReply;
     GeminiApi.notIterableMessage := js "object is not iterable";
     GeminiApi.notPrimitiveMessage :=
       js "Cannot convert object to primitive value" |}.

(** The sample options with Freepik as the only platform. *)
Definition freepikOptions : GeminiApi.AnalysisOptions :=
  {| GeminiApi.titleLength := Some 200;
     GeminiApi.descriptionLength := Some 200;
     GeminiApi.keywordCount := Some 50;
     GeminiApi.platforms := Some [GeminiApi.Freepik];
     GeminiApi.generationMode := Some GeminiApi.metadata;
     GeminiApi.minTitleWords := Some 12;
     GeminiApi.maxTitleWords := Some 15;
     GeminiApi.minKeywords := Some 35;
     GeminiApi.maxKeywords := Some 45;
     GeminiApi.minDescriptionWords := Some 12;
     GeminiApi.maxDescriptionWords := Some 30 |}.

(** What the runtime with the constructor reply returns for [harbour.jpg]
    when Freepik is selected: two keywords do not reach the minimum of 35, and
    the reply has no prompt to generate others from. *)
Definition freepikResult : GeminiApi.AnalysisResult :=
  {| GeminiApi.title := js "Constructor at work";
     GeminiApi.description := [];
     GeminiApi.keywords := [];
     GeminiApi.prompt := None;
     GeminiApi.baseModel := Some (js "leonardo");
     GeminiApi.categories := None;
     GeminiApi.error := None |}.

(** A file that [processFiles] keeps: accepted type, accepted size, and a
    preview that could be read. *)
Definition keptByUpload (createImagePreview :
                           ImageHelpers.File -> completion jsstring)
  (f : ImageHelpers.File) : bool :=
  ImageHelpers.isValidMediaType f && ImageHelpers.isValidFileSize f
  && match createImagePreview f with
     | Normal _ => true
     | Throw _ => false
     end.

(** An image as an upload creates it. *)
Definition freshlyUploaded (createImagePreview :
                              ImageHelpers.File -> completion jsstring)
  (img : ImageHelpers.ProcessedImage) : Prop :=
  ImageHelpers.status img = ImageHelpers.pending
  /\ ImageHelpers.result img = None
  /\ ImageHelpers.errorMessage img = None
  /\ createImagePreview (ImageHelpers.file img)
     = Normal (ImageHelpers.previewUrl img).

(** An image whose call ended: it is complete with a result, or in error
    with a message. *)
Definition settled (img : ImageHelpers.ProcessedImage) : Prop :=
  Index.isTerminal (ImageHelpers.status img) = true
  /\ (ImageHelpers.status img = ImageHelpers.complete ->
      ImageHelpers.result img <> None)
  /\ (ImageHelpers.status img = ImageHelpers.error ->
      ImageHelpers.errorMessage img <> None).

(** What holds of every image of the page between two actions. *)
Definition consistent (img : ImageHelpers.ProcessedImage) : Prop :=
  ImageHelpers.status img <> ImageHelpers.processing
  /\ (ImageHelpers.status img = ImageHelpers.pending ->
      ImageHelpers.result img = None /\ ImageHelpers.errorMessage img = None)
  /\ (ImageHelpers.status img = ImageHelpers.complete ->
      ImageHelpers.result img <> None)
  /\ (ImageHelpers.status img = ImageHelpers.error ->
      ImageHelpers.errorMessage img <> None).

(** The pending images of a list. *)
Definition pendingOf (images : list ImageHelpers.ProcessedImage)
  : list ImageHelpers.ProcessedImage :=
  filter (fun img =>
            ImageHelpers.status_eqb (ImageHelpers.status img)
              ImageHelpers.pending) images.

(** The complete images of a list. *)
Definition completeOf (images : list ImageHelpers.ProcessedImage)
  : list ImageHelpers.ProcessedImage :=
  filter (fun img =>
            ImageHelpers.status_eqb (ImageHelpers.status img)
              ImageHelpers.complete) images.


(** An effect without the image list that a state update carries. *)
Definition withoutState (e : Index.Effect) : Index.Effect :=
  match e with
  | Index.SetImages _ => Index.SetImages []
  | _ => e
  end.

(** A session of two uploads, a run, a removal and a second run. *)
Definition sampleSession : list Index.Action :=
  [Index.Upload (fun _ => Normal (js "data:,"))
     (fun position => js "img" ++ natToString position)
     [ImageHelpers.file samplePending; samplePdf;
      ImageHelpers.file samplePending2];
   Index.Process sampleAnalyze (GeminiApi.messageOf sampleRuntime)
     [GeminiApi.AdobeStock] (js "AIza-key") true true;
   Index.Upload (fun _ => Normal (js "data:,"))
     (fun position => js "img" ++ natToString position)
     [ImageHelpers.file samplePending3];
   Index.Remove (js "img0");
   Index.Process sampleAnalyze (GeminiApi.messageOf sampleRuntime)
     [GeminiApi.AdobeStock] (js "AIza-key") true true].

(* ===================================================================== *)
(** * Properties *)
(* ===================================================================== *)

Import ImageHelpers.

Unset Implicit Arguments.

Section StringFacts.

Lemma char_eqb_eq a b : char_eqb a b = true <-> a = b.
Proof. apply N.eqb_eq. Qed.

Lemma str_eqb_eq a : forall b, str_eqb a b = true <-> a = b.
Proof.
  induction a as [|x a IH]; intros [|y b]; simpl; split; intro H;
    try reflexivity; try discriminate.
  - apply andb_true_iff in H. destruct H as [H1 H2].
    apply char_eqb_eq in H1. apply IH in H2. now subst.
  - inversion H; subst. apply andb_true_iff. split.
    + now apply char_eqb_eq.
    + now apply IH.
Qed.

Lemma str_eqb_refl a : str_eqb a a = true.
Proof. now apply str_eqb_eq. Qed.

Lemma str_eqb_neq a b : str_eqb a b = false <-> a <> b.
Proof.
  split.
  - intros H E. apply str_eqb_eq in E. congruence.
  - intro H. destruct (str_eqb a b) eqn:E; [|reflexivity].
    apply str_eqb_eq in E. contradiction.
Qed.

Lemma str_eqb_sym a b : str_eqb a b = str_eqb b a.
Proof.
  destruct (str_eqb a b) eqn:E.
  - apply str_eqb_eq in E. subst. symmetry. apply str_eqb_refl.
  - symmetry. apply str_eqb_neq. apply str_eqb_neq in E. congruence.
Qed.

Lemma includes_In l x : includes l x = true <-> In x l.
Proof.
  unfold includes. rewrite existsb_exists. split.
  - intros [y [Hy E]]. apply str_eqb_eq in E. now subst.
  - intro H. exists x. split; [assumption | apply str_eqb_refl].
Qed.

Lemma includes_not_In l x : includes l x = false <-> ~ In x l.
Proof.
  rewrite <- includes_In. destruct (includes l x); split; congruence.
Qed.

Lemma forallb_rev {A} (f : A -> bool) (l : list A) :
  forallb f l = true -> forallb f (rev l) = true.
Proof.
  rewrite !forallb_forall. intros H x Hx. apply H. now apply in_rev.
Qed.

(** The pieces of [split(/\s+/)] hold no white space. *)
Lemma splitSpacesFrom_pieces s : forall inRun cur,
  forallb (fun c => negb (isSpace c)) cur = true ->
  Forall (fun w => forallb (fun c => negb (isSpace c)) w = true)
    (splitSpacesFrom inRun cur s).
Proof.
  induction s as [|c s IH]; intros inRun cur Hcur; cbn [splitSpacesFrom].
  - constructor; [now apply forallb_rev | constructor].
  - destruct (isSpace c) eqn:E.
    + destruct inRun; [now apply IH|].
      constructor; [now apply forallb_rev | now apply IH].
    + apply IH. cbn [forallb]. now rewrite E.
Qed.

Lemma splitSpaces_pieces s :
  Forall (fun w => forallb (fun c => negb (isSpace c)) w = true)
    (splitSpaces s).
Proof. now apply splitSpacesFrom_pieces. Qed.

(** A string without white space is its own single piece. *)
Lemma splitSpacesFrom_word s : forall cur,
  forallb (fun c => negb (isSpace c)) s = true ->
  splitSpacesFrom false cur s = [rev cur ++ s].
Proof.
  induction s as [|c s IH]; intros cur H; cbn [splitSpacesFrom].
  - now rewrite app_nil_r.
  - cbn [forallb] in H. apply andb_true_iff in H. destruct H as [Hc Hs].
    apply negb_true_iff in Hc. rewrite Hc, (IH _ Hs). cbn [rev].
    now rewrite <- app_assoc.
Qed.

End StringFacts.

(* --------------------------------------------------------------------- *)
(** ** Title cleaning *)
(* --------------------------------------------------------------------- *)

Section TitleFacts.

Lemma titleClass_kept c :
  negb (negClassMatches titleClass c) = keptInTitle c.
Proof.
  unfold negClassMatches, classMatches, titleClass, keptInTitle. simpl.
  unfold isWord, char_eqb. rewrite negb_involutive, orb_false_r.
  now rewrite !orb_assoc.
Qed.

Lemma removeSymbolsFromTitle_filter s :
  removeSymbolsFromTitle s = filter keptInTitle s.
Proof.
  unfold removeSymbolsFromTitle, replaceAllWithEmpty.
  apply filter_ext. intro c. apply titleClass_kept.
Qed.

Lemma filter_idempotent {A} (f : A -> bool) (l : list A) :
  filter f (filter f l) = filter f l.
Proof.
  induction l as [|x l IH]; simpl; [reflexivity|].
  destruct (f x) eqn:E; simpl; [rewrite E|]; now rewrite IH.
Qed.

(** C2, as amended: for every input string, with or without a banned symbol,
    [removeSymbolsFromTitle] returns the string with every code unit removed
    except the word characters of [\w] (ASCII letters, digits and the
    underscore), the white space of [\s] (space, tab, line breaks and the
    Unicode spaces), commas, periods, hyphens and parentheses; the kept code
    units stay in their order. *)
Theorem removeSymbolsFromTitle_keeps_word_space_punctuation :
  forall s : jsstring,
    removeSymbolsFromTitle s = filter keptInTitle s
    /\ Forall (fun c => keptInTitle c = true) (removeSymbolsFromTitle s)
    /\ (forall c, In c s -> keptInTitle c = true ->
                  In c (removeSymbolsFromTitle s)).
Proof.
  intro s. rewrite removeSymbolsFromTitle_filter. split; [reflexivity|split].
  - apply Forall_forall. intros c Hc. now apply filter_In in Hc.
  - intros c Hin Hk. apply filter_In. now split.
Qed.

(** C2, as stated, fails: the title [a_b$] contains the banned symbol [$],
    the code keeps the underscore and returns [a_b], while the wording
    (alphanumeric characters, spaces, commas, periods, hyphens, parentheses)
    gives [ab]. *)
Lemma removeSymbolsFromTitle_keeps_underscore :
  Spec.containsBannedSymbol (js "a_b$") = true
  /\ removeSymbolsFromTitle (js "a_b$") = js "a_b"
  /\ Spec.cleanedTitle (js "a_b$") = js "ab"
  /\ removeSymbolsFromTitle (js "a_b$") <> Spec.cleanedTitle (js "a_b$").
Proof.
  repeat split; try reflexivity. vm_compute. discriminate.
Qed.

(** C9: [removeSymbolsFromTitle] is idempotent. *)
Theorem removeSymbolsFromTitle_idempotent :
  forall s : jsstring,
    removeSymbolsFromTitle (removeSymbolsFromTitle s)
    = removeSymbolsFromTitle s.
Proof.
  intro s. unfold removeSymbolsFromTitle, replaceAllWithEmpty.
  apply filter_idempotent.
Qed.

End TitleFacts.

(* --------------------------------------------------------------------- *)
(** ** Objects used as maps, and the counting loop *)
(* --------------------------------------------------------------------- *)

Section ObjectFacts.

Context {V : Type}.

Lemma getOwn_keys (g : jsstring -> V) (l : list jsstring) (k : jsstring) :
  getOwn (map (fun c => (c, g c)) l) k
  = if includes l k then Some (g k) else None.
Proof.
  induction l as [|c l IH]; simpl; [reflexivity|].
  rewrite (str_eqb_sym k c). destruct (str_eqb c k) eqn:E; simpl.
  - apply str_eqb_eq in E. now subst.
  - exact IH.
Qed.

Lemma setOwn_absent (o : jsobject V) (k : jsstring) (v : V) :
  ~ In k (map fst o) -> setOwn o k v = o ++ [(k, v)].
Proof.
  induction o as [|[k' v'] o IH]; simpl; intro H; [reflexivity|].
  destruct (str_eqb k' k) eqn:E.
  - apply str_eqb_eq in E. subst. exfalso. apply H. now left.
  - rewrite IH; [reflexivity|]. intro Hin. apply H. now right.
Qed.

Lemma setOwn_present (g : jsstring -> V) (l : list jsstring) (k : jsstring)
  (v : V) :
  NoDup l -> In k l ->
  setOwn (map (fun c => (c, g c)) l) k v
  = map (fun c => (c, if str_eqb c k then v else g c)) l.
Proof.
  induction l as [|c l IH]; simpl; intros Hnd Hin; [contradiction|].
  inversion Hnd as [|? ? Hc Hnd']; subst.
  destruct (str_eqb c k) eqn:E.
  - apply str_eqb_eq in E. subst. f_equal.
    apply map_ext_in. intros a Ha.
    destruct (str_eqb a k) eqn:E'; [|reflexivity].
    apply str_eqb_eq in E'. subst. contradiction.
  - f_equal. apply IH; [assumption|].
    destruct Hin as [->|Hin]; [|assumption].
    rewrite str_eqb_refl in E. discriminate.
Qed.

End ObjectFacts.

Section CountFacts.

Variable table : jsobject (list jsstring).

Lemma firstInsertions_snoc m c :
  Spec.firstInsertions (m ++ [c])
  = if includes (Spec.firstInsertions m) c
    then Spec.firstInsertions m
    else Spec.firstInsertions m ++ [c].
Proof. unfold Spec.firstInsertions. now rewrite fold_left_app. Qed.

Lemma firstInsertions_In m : forall c,
  In c (Spec.firstInsertions m) <-> In c m.
Proof.
  induction m as [|d m IH] using rev_ind; intro c; [simpl; tauto|].
  rewrite firstInsertions_snoc, in_app_iff. simpl.
  destruct (includes (Spec.firstInsertions m) d) eqn:E.
  - rewrite IH. apply includes_In, IH in E.
    split; [tauto|]. intros [H|[<-|[]]]; assumption.
  - rewrite in_app_iff, IH. simpl. tauto.
Qed.

Lemma firstInsertions_NoDup m : NoDup (Spec.firstInsertions m).
Proof.
  induction m as [|d m IH] using rev_ind; [constructor|].
  rewrite firstInsertions_snoc.
  destruct (includes (Spec.firstInsertions m) d) eqn:E; [assumption|].
  apply includes_not_In in E.
  apply NoDup_app; [assumption | repeat constructor; simpl; tauto |].
  intros a Ha [<-|[]]. contradiction.
Qed.

Lemma frequency_snoc m c d :
  Spec.frequency (m ++ [c]) d
  = Spec.frequency m d + (if str_eqb d c then 1 else 0).
Proof.
  unfold Spec.frequency. rewrite filter_app, length_app. simpl.
  now destruct (str_eqb d c).
Qed.

Lemma frequency_absent m d : ~ In d m -> Spec.frequency m d = 0.
Proof.
  unfold Spec.frequency. induction m as [|c m IH]; simpl; intro H;
    [reflexivity|].
  destruct (str_eqb d c) eqn:E.
  - apply str_eqb_eq in E. subst. exfalso. apply H. now left.
  - apply IH. intro Hin. apply H. now right.
Qed.

(** The object that the assignments build is the table of frequencies, in the
    order of first insertion. *)
Lemma countCategory_frequencies m :
  fold_left countCategory m []
  = map (fun c => (c, Spec.frequency m c)) (Spec.firstInsertions m).
Proof.
  induction m as [|c m IH] using rev_ind; [reflexivity|].
  rewrite fold_left_app. simpl. rewrite IH. unfold countCategory.
  rewrite getOwn_keys, firstInsertions_snoc.
  destruct (includes (Spec.firstInsertions m) c) eqn:E.
  - rewrite setOwn_present;
      [| apply firstInsertions_NoDup | now apply includes_In].
    apply map_ext. intro a. rewrite frequency_snoc.
    destruct (str_eqb a c) eqn:Ea; [|now rewrite Nat.add_0_r].
    apply str_eqb_eq in Ea. now subst.
  - pose proof E as Hnot. apply includes_not_In in Hnot.
    rewrite setOwn_absent.
    2:{ rewrite map_map. simpl. now rewrite map_id. }
    rewrite map_app. simpl. f_equal.
    + apply map_ext_in. intros a Ha. rewrite frequency_snoc.
      destruct (str_eqb a c) eqn:Ea; [|now rewrite Nat.add_0_r].
      apply str_eqb_eq in Ea. subst. contradiction.
    + rewrite frequency_snoc, str_eqb_refl, frequency_absent; [reflexivity|].
      intro H. apply Hnot. now apply firstInsertions_In.
Qed.

Lemma getProperty_not_inherited w :
  includes objectPrototypeNames w = false ->
  getProperty table w
  = match getOwn table w with Some cats => Own cats | None => Undefined end.
Proof. unfold getProperty. intros ->. reflexivity. Qed.

(** Without a word that reads a member of [Object.prototype], the loop ends
    and has counted every match. *)
Lemma countWords_counts words : forall count,
  Forall (fun w => getProperty table w <> Inherited) words ->
  countWords table words count
  = Normal (fold_left countCategory (Spec.tokenMatches table words) count).
Proof.
  induction words as [|w ws IH]; intros count H; [reflexivity|].
  inversion H as [|? ? Hw Hws]; subst. simpl. rewrite fold_left_app.
  unfold getProperty in *. destruct (getOwn table w) as [cats|] eqn:E.
  - now apply IH.
  - destruct (includes objectPrototypeNames w); [congruence|]. now apply IH.
Qed.

(** The loop throws when it meets a word that is not a key of the table and
    names a member of [Object.prototype]. *)
Lemma countWords_throws words : forall count,
  Exists (fun w => getProperty table w = Inherited) words ->
  countWords table words count = Throw TypeErrorNotIterable.
Proof.
  induction words as [|w ws IH]; intros count H; inversion H; subst; simpl.
  - match goal with E : getProperty _ _ = _ |- _ => now rewrite E end.
  - destruct (getProperty table w); auto.
Qed.


Lemma not_in_prototype_not_inherited w :
  includes objectPrototypeNames w = false -> getProperty table w <> Inherited.
Proof. intro H. rewrite (getProperty_not_inherited _ H). now destruct getOwn. Qed.


End CountFacts.

(* --------------------------------------------------------------------- *)
(** ** The stable sort by descending count *)
(* --------------------------------------------------------------------- *)

Section SortFacts.

Variable key : jsstring -> nat.

Let paired (c : jsstring) : jsstring * nat := (c, key c).

Lemma insertByCount_keys c l :
  insertByCount (paired c) (map paired l)
  = map paired (Spec.insertDescending key c l).
Proof.
  induction l as [|d l IH]; simpl; [reflexivity|].
  destruct (key c <? key d); simpl; [now rewrite IH | reflexivity].
Qed.

Lemma sortByCount_keys l :
  sortByCount (map paired l) = map paired (Spec.sortDescending key l).
Proof.
  induction l as [|c l IH]; simpl; [reflexivity|].
  unfold sortByCount in *. rewrite IH. apply insertByCount_keys.
Qed.

Lemma sortedCategoriesOf_keys l :
  sortedCategoriesOf (map paired l) = Spec.sortDescending key l.
Proof.
  unfold sortedCategoriesOf, entries. rewrite sortByCount_keys, map_map. simpl.
  apply map_id.
Qed.

Lemma insertDescending_perm c l :
  Permutation (Spec.insertDescending key c l) (c :: l).
Proof.
  induction l as [|d l IH]; simpl; [reflexivity|].
  destruct (key c <? key d); [|reflexivity].
  rewrite IH. apply perm_swap.
Qed.

Lemma sortDescending_perm l : Permutation (Spec.sortDescending key l) l.
Proof.
  induction l as [|c l IH]; simpl; [reflexivity|].
  rewrite insertDescending_perm. now constructor.
Qed.

Lemma sortDescending_length l :
  List.length (Spec.sortDescending key l) = List.length l.
Proof. apply Permutation_length, sortDescending_perm. Qed.

Lemma insertDescending_sorted c l :
  StronglySorted (byCount key) l ->
  StronglySorted (byCount key) (Spec.insertDescending key c l).
Proof.
  induction l as [|d l IH]; simpl; intro H.
  - repeat constructor.
  - inversion H as [|? ? Hl Hd]; subst.
    destruct (key c <? key d) eqn:E.
    + apply Nat.ltb_lt in E. constructor; [now apply IH|].
      apply Forall_forall. intros x Hx.
      apply (Permutation_in _ (insertDescending_perm c l)) in Hx.
      destruct Hx as [<-|Hx]; [unfold byCount; lia|].
      now apply (proj1 (Forall_forall _ _) Hd).
    + apply Nat.ltb_ge in E. constructor; [assumption|].
      constructor; [exact E|].
      apply Forall_forall. intros x Hx.
      pose proof (proj1 (Forall_forall _ _) Hd x Hx) as Hdx.
      unfold byCount in *. lia.
Qed.

Lemma sortDescending_sorted l :
  StronglySorted (byCount key) (Spec.sortDescending key l).
Proof.
  induction l as [|c l IH]; simpl; [constructor|].
  now apply insertDescending_sorted.
Qed.

(** Stability: the categories with one count keep their order. *)
Lemma insertDescending_stable n c l :
  filter (fun d => key d =? n) (Spec.insertDescending key c l)
  = filter (fun d => key d =? n) (c :: l).
Proof.
  induction l as [|d l IH]; [reflexivity|].
  cbn [Spec.insertDescending]. destruct (key c <? key d) eqn:E;
    [|reflexivity].
  apply Nat.ltb_lt in E. cbn [filter] in *. rewrite IH.
  destruct (key d =? n) eqn:Ed; destruct (key c =? n) eqn:Ec;
    try reflexivity.
  apply Nat.eqb_eq in Ed, Ec. lia.
Qed.

Lemma sortDescending_stable n l :
  filter (fun d => key d =? n) (Spec.sortDescending key l)
  = filter (fun d => key d =? n) l.
Proof.
  induction l as [|c l IH]; [reflexivity|].
  cbn [Spec.sortDescending fold_right].
  fold (Spec.sortDescending key l).
  rewrite insertDescending_stable. cbn [filter]. now rewrite IH.
Qed.

End SortFacts.

(* --------------------------------------------------------------------- *)
(** ** The category matchers *)
(* --------------------------------------------------------------------- *)

Section MatcherFacts.

Variable table : jsobject (list jsstring).

(** The common part of both matchers: count, sort, keep the names. *)
Lemma ranked_of_count {A} (f : list jsstring -> A) (words : list jsstring) :
  Forall (readsOwnOrNothing table) words ->
  bindC (countWords table words [])
    (fun categoryCount => Normal (f (sortedCategoriesOf categoryCount)))
  = Normal (f (Spec.rankedCategories table words)).
Proof.
  intro H. rewrite (countWords_counts table words [] H). simpl.
  rewrite countCategory_frequencies.
  now rewrite (sortedCategoriesOf_keys
                 (Spec.frequency (Spec.tokenMatches table words))).
Qed.

Lemma count_is_frequencyTable (words : list jsstring) :
  Forall (readsOwnOrNothing table) words ->
  countWords table words [] = Normal (Spec.frequencyTable table words).
Proof.
  intro H. rewrite (countWords_counts table words [] H).
  now rewrite countCategory_frequencies.
Qed.

Lemma throws_of_count {A} (k : jsobject nat -> completion A) words :
  Exists (fun w => getProperty table w = Inherited) words ->
  bindC (countWords table words []) k = Throw TypeErrorNotIterable.
Proof. intro H. now rewrite (countWords_throws table words [] H). Qed.

Lemma rankedCategories_length words :
  List.length (Spec.rankedCategories table words)
  = List.length (Spec.firstInsertions (Spec.tokenMatches table words)).
Proof. unfold Spec.rankedCategories. apply sortDescending_length. Qed.

Lemma firstInsertions_nil m : Spec.firstInsertions m = [] <-> m = [].
Proof.
  split; [|now intros ->].
  destruct m as [|c m]; [reflexivity|]. intro H.
  assert (Hin : In c (Spec.firstInsertions (c :: m)))
    by (apply firstInsertions_In; now left).
  rewrite H in Hin. contradiction.
Qed.

Lemma rankedCategories_nil words :
  Spec.rankedCategories table words = []
  <-> Spec.tokenMatches table words = [].
Proof.
  pose proof (rankedCategories_length words) as Hlen. split; intro H.
  - apply firstInsertions_nil, length_zero_iff_nil.
    now rewrite <- Hlen, H.
  - apply length_zero_iff_nil. rewrite Hlen.
    apply length_zero_iff_nil, firstInsertions_nil, H.
Qed.

Lemma rankedCategories_In words c :
  In c (Spec.rankedCategories table words)
  <-> In c (Spec.tokenMatches table words).
Proof.
  rewrite <- (firstInsertions_In (Spec.tokenMatches table words)).
  unfold Spec.rankedCategories. split; intro H.
  - eapply Permutation_in; [apply sortDescending_perm | exact H].
  - eapply Permutation_in;
      [apply Permutation_sym, sortDescending_perm | exact H].
Qed.

(** The ranking is by descending frequency, holds each matched category
    once, and leaves categories of equal frequency in the order of first
    insertion. *)
Lemma rankedCategories_ranking words :
  let matches := Spec.tokenMatches table words in
  let ranked := Spec.rankedCategories table words in
  StronglySorted (byCount (Spec.frequency matches)) ranked
  /\ Permutation ranked (Spec.firstInsertions matches)
  /\ NoDup ranked
  /\ (forall n, filter (fun c => Spec.frequency matches c =? n) ranked
                = filter (fun c => Spec.frequency matches c =? n)
                    (Spec.firstInsertions matches)).
Proof.
  cbv zeta. unfold Spec.rankedCategories. repeat split.
  - apply sortDescending_sorted.
  - apply sortDescending_perm.
  - eapply Permutation_NoDup;
      [apply Permutation_sym, sortDescending_perm
      | apply firstInsertions_NoDup].
  - intro n. apply sortDescending_stable.
Qed.

(** The choice of [suggestCategoriesForAdobeStock] is the specification's
    top one with its default. *)
Lemma top1_or_default (default : list jsstring) words :
  (if 1 <=? List.length (Spec.rankedCategories table words)
   then firstn 1 (Spec.rankedCategories table words)
   else default)
  = Spec.topCategories 1 default table words.
Proof.
  unfold Spec.topCategories.
  destruct (Spec.tokenMatches table words) as [|c m] eqn:E.
  - apply rankedCategories_nil in E. now rewrite E.
  - destruct (Spec.rankedCategories table words) as [|d r] eqn:Er;
      [|reflexivity].
    apply rankedCategories_nil in Er. congruence.
Qed.

(** The choice of [suggestCategoriesForShutterstock] pads the ranking with
    the two defaults. *)
Lemma top2_padded (d1 d2 : jsstring) (ranked : list jsstring) :
  (if 2 <=? List.length ranked then firstn 2 ranked
   else firstn 2 (ranked ++ [d1; d2]))
  = firstn 2 (ranked ++ [d1; d2]).
Proof. destruct ranked as [|a [|b r]]; reflexivity. Qed.

Lemma top2_is_spec (d1 d2 : jsstring) words :
  List.length (Spec.rankedCategories table words) <> 1 ->
  firstn 2 (Spec.rankedCategories table words ++ [d1; d2])
  = Spec.topCategories 2 [d1; d2] table words.
Proof.
  intro H. unfold Spec.topCategories.
  destruct (Spec.tokenMatches table words) as [|c m] eqn:E.
  - apply rankedCategories_nil in E. now rewrite E.
  - destruct (Spec.rankedCategories table words) as [|a [|b r]] eqn:Er.
    + apply rankedCategories_nil in Er. congruence.
    + simpl in H. congruence.
    + reflexivity.
Qed.

End MatcherFacts.

(* --------------------------------------------------------------------- *)
(** ** The two tables and the two matchers *)
(* --------------------------------------------------------------------- *)

Section TableFacts.

Lemma isAscii_forallb s : forallb (fun c => (c <? 128)%N) s = true -> isAscii s.
Proof.
  intro H. apply Forall_forall. intros c Hc.
  apply N.ltb_lt. exact (proj1 (forallb_forall _ _) H c Hc).
Qed.




(** No category of the tables names a member of [Object.prototype], so
    [categoryCount[category]] reads an own count or [undefined]. *)
Lemma table_categories_not_inherited :
  forallb (fun c => negb (includes objectPrototypeNames c))
    (adobeStockCategories ++ shutterstockCategories) = true.
Proof. vm_compute. reflexivity. Qed.

(** The keys of each literal are pairwise distinct: no entry overrides an
    earlier one. *)
Lemma table_keys_distinct :
  List.length adobeCategoryMatches = 208
  /\ List.length shutterstockCategoryMatches = 148.
Proof. split; vm_compute; reflexivity. Qed.

End TableFacts.

Section SuggestFacts.

Variable toLowerCase : jsstring -> jsstring.

Lemma adobe_suggest_ranked title keywords :
  Forall (readsOwnOrNothing adobeCategoryMatches)
    (adobeWords toLowerCase title keywords) ->
  suggestCategoriesForAdobeStock toLowerCase title keywords
  = Normal (Spec.topCategories 1 [js "Animals"] adobeCategoryMatches
              (adobeWords toLowerCase title keywords)).
Proof.
  intro H. unfold suggestCategoriesForAdobeStock, adobeCategoryCount.
  rewrite (ranked_of_count adobeCategoryMatches
             (fun sorted => if 1 <=? List.length sorted then firstn 1 sorted
                            else [js "Animals"]) _ H).
  f_equal. apply top1_or_default.
Qed.

Lemma shutterstock_suggest_ranked title description :
  Forall (readsOwnOrNothing shutterstockCategoryMatches)
    (shutterstockWords toLowerCase title description) ->
  suggestCategoriesForShutterstock toLowerCase title description
  = Normal (firstn 2
              (Spec.rankedCategories shutterstockCategoryMatches
                 (shutterstockWords toLowerCase title description)
               ++ [js "Miscellaneous"; js "Objects"])).
Proof.
  intro H. unfold suggestCategoriesForShutterstock, shutterstockCategoryCount.
  rewrite (ranked_of_count shutterstockCategoryMatches
             (fun sorted =>
                if 2 <=? List.length sorted then firstn 2 sorted
                else firstn 2 (sorted ++ [js "Miscellaneous"; js "Objects"]))
             _ H).
  f_equal. apply top2_padded.
Qed.

Lemma adobe_suggest_throws title keywords :
  Exists (fun w => getProperty adobeCategoryMatches w = Inherited)
    (adobeWords toLowerCase title keywords) ->
  suggestCategoriesForAdobeStock toLowerCase title keywords
  = Throw TypeErrorNotIterable.
Proof. intro H. now apply throws_of_count. Qed.





End SuggestFacts.

Section MatcherClaims.

Ltac lower_ascii H :=
  repeat match goal with
         | |- context [?f ?x] =>
             match type of H with
             | lowersAscii f =>
                 rewrite (H x (isAscii_forallb x eq_refl))
             end
         end.

(** C3, as amended: for the title [A cat and a dog] and the keywords [cat]
    and [dog], [suggestCategoriesForAdobeStock] returns exactly [Animals], and
    the count accumulated for that category is 4: the title and the keywords
    are joined before counting, so [cat] and [dog] are each counted twice.
    The Shutterstock variant, on the same title with an empty description,
    counts 2 for [Animals/Wildlife] and returns it followed by the default
    [Miscellaneous]. *)
Theorem cat_and_dog_suggestion :
  forall toLowerCase : jsstring -> jsstring,
    lowersAscii toLowerCase ->
    suggestCategoriesForAdobeStock toLowerCase (js "A cat and a dog")
      [js "cat"; js "dog"]
    = Normal [js "Animals"]
    /\ adobeCategoryCount toLowerCase (js "A cat and a dog")
         [js "cat"; js "dog"]
       = Normal [(js "Animals", 4)]
    /\ shutterstockCategoryCount toLowerCase (js "A cat and a dog") (js "")
       = Normal [(js "Animals/Wildlife", 2)]
    /\ suggestCategoriesForShutterstock toLowerCase (js "A cat and a dog")
         (js "")
       = Normal [js "Animals/Wildlife"; js "Miscellaneous"].
Proof.
  intros lc H.
  unfold suggestCategoriesForAdobeStock, suggestCategoriesForShutterstock,
    adobeCategoryCount, shutterstockCategoryCount, adobeWords,
    shutterstockWords.
  lower_ascii H. repeat split; vm_compute; reflexivity.
Qed.

Lemma toLowerCaseAscii_lowersAscii : lowersAscii toLowerCaseAscii.
Proof. intros s _. reflexivity. Qed.

Lemma cat_and_dog_suggestion_witness :
  suggestCategoriesForAdobeStock toLowerCaseAscii (js "A cat and a dog")
    [js "cat"; js "dog"]
  = Normal [js "Animals"]
  /\ adobeCategoryCount toLowerCaseAscii (js "A cat and a dog")
       [js "cat"; js "dog"]
     = Normal [(js "Animals", 4)]
  /\ shutterstockCategoryCount toLowerCaseAscii (js "A cat and a dog")
       (js "")
     = Normal [(js "Animals/Wildlife", 2)]
  /\ suggestCategoriesForShutterstock toLowerCaseAscii
       (js "A cat and a dog") (js "")
     = Normal [js "Animals/Wildlife"; js "Miscellaneous"].
Proof.
  exact (cat_and_dog_suggestion toLowerCaseAscii
           toLowerCaseAscii_lowersAscii).
Defined.

(** C3, as stated, fails: on that input the count accumulated for [Animals]
    is 4, not 2. *)
Lemma cat_and_dog_count_is_not_two :
  adobeCategoryCount toLowerCaseAscii (js "A cat and a dog")
    [js "cat"; js "dog"]
  = Normal [(js "Animals", 4)]
  /\ adobeCategoryCount toLowerCaseAscii (js "A cat and a dog")
       [js "cat"; js "dog"]
     <> Normal [(js "Animals", 2)].
Proof. split; vm_compute; [reflexivity | discriminate]. Qed.

(** C4, as amended: for every input none of whose words reads a member of
    [Object.prototype], each matcher splits the lower-cased text on white
    space, counts the categories of the words found in its table, and ranks
    the matched categories by descending count, ties in the order of first
    insertion.  [suggestCategoriesForAdobeStock] returns the first category
    of the ranking, or [Animals] when no word matches.
    [suggestCategoriesForShutterstock] returns the first two entries of the
    ranking followed by [Miscellaneous] and [Objects]: the two top
    categories when two or more matched, the single matched category
    followed by [Miscellaneous] when one matched, and both defaults when none
    matched. *)
Theorem matchers_rank_by_count :
  forall (toLowerCase : jsstring -> jsstring)
         (title : jsstring) (keywords : list jsstring)
         (title' description : jsstring),
    let adobe := adobeWords toLowerCase title keywords in
    let shutter := shutterstockWords toLowerCase title' description in
    let ranked := Spec.rankedCategories shutterstockCategoryMatches shutter in
    Forall (readsOwnOrNothing adobeCategoryMatches) adobe ->
    Forall (readsOwnOrNothing shutterstockCategoryMatches) shutter ->
    adobe = splitSpaces
              (toLowerCase (title ++ js " " ++ join (js " ") keywords))
    /\ shutter = splitSpaces (toLowerCase (title' ++ js " " ++ description))
    /\ adobeCategoryCount toLowerCase title keywords
       = Normal (Spec.frequencyTable adobeCategoryMatches adobe)
    /\ shutterstockCategoryCount toLowerCase title' description
       = Normal (Spec.frequencyTable shutterstockCategoryMatches shutter)
    /\ suggestCategoriesForAdobeStock toLowerCase title keywords
       = Normal (Spec.topCategories 1 [js "Animals"] adobeCategoryMatches
                   adobe)
    /\ suggestCategoriesForShutterstock toLowerCase title' description
       = Normal (firstn 2 (ranked ++ [js "Miscellaneous"; js "Objects"]))
    /\ (List.length ranked <> 1 ->
        suggestCategoriesForShutterstock toLowerCase title' description
        = Normal (Spec.topCategories 2 [js "Miscellaneous"; js "Objects"]
                    shutterstockCategoryMatches shutter))
    /\ (forall c, ranked = [c] ->
        suggestCategoriesForShutterstock toLowerCase title' description
        = Normal [c; js "Miscellaneous"])
    /\ (forall table words,
          let matches := Spec.tokenMatches table words in
          let ranking := Spec.rankedCategories table words in
          StronglySorted (byCount (Spec.frequency matches)) ranking
          /\ Permutation ranking (Spec.firstInsertions matches)
          /\ NoDup ranking
          /\ (forall n,
                filter (fun c => Spec.frequency matches c =? n) ranking
                = filter (fun c => Spec.frequency matches c =? n)
                    (Spec.firstInsertions matches))).
Proof.
  intros lc title keywords title' description adobe shutter ranked Ha Hs.
  split; [reflexivity|]. split; [reflexivity|].
  split; [now apply count_is_frequencyTable|].
  split; [now apply count_is_frequencyTable|].
  split; [now apply adobe_suggest_ranked|].
  pose proof (shutterstock_suggest_ranked lc title' description Hs) as E.
  fold shutter in E. fold ranked in E.
  split; [exact E|]. split; [|split].
  - intro Hlen. rewrite E. f_equal. now apply top2_is_spec.
  - intros c Hc. rewrite E, Hc. reflexivity.
  - intros table words. apply rankedCategories_ranking.
Qed.

Lemma matchers_rank_by_count_witness :
  suggestCategoriesForAdobeStock toLowerCaseAscii (js "Red car on a bridge")
    [js "car"; js "vehicle"; js "tower"]
  = Normal [js "Transport"]
  /\ suggestCategoriesForShutterstock toLowerCaseAscii
       (js "Old car in the forest") (js "a retro car near a tree")
     = Normal [js "Vintage"; js "Transportation"].
Proof.
  pose proof (matchers_rank_by_count toLowerCaseAscii
                (js "Red car on a bridge")
                [js "car"; js "vehicle"; js "tower"]
                (js "Old car in the forest") (js "a retro car near a tree"))
    as H.
  cbv zeta in H.
  assert (Ha : Forall (readsOwnOrNothing adobeCategoryMatches)
                 (adobeWords toLowerCaseAscii (js "Red car on a bridge")
                    [js "car"; js "vehicle"; js "tower"])).
  { vm_compute. repeat constructor; discriminate. }
  assert (Hs : Forall (readsOwnOrNothing shutterstockCategoryMatches)
                 (shutterstockWords toLowerCaseAscii
                    (js "Old car in the forest")
                    (js "a retro car near a tree"))).
  { vm_compute. repeat constructor; discriminate. }
  destruct (H Ha Hs) as [_ [_ [_ [_ [E1 [E2 _]]]]]].
  split.
  - rewrite E1. vm_compute. reflexivity.
  - rewrite E2. vm_compute. reflexivity.
Defined.

(** C4, as stated, fails: with exactly one matched category the Shutterstock
    matcher does not return the top matched categories alone, nor the default
    list; it pads the match with the first default. *)
Lemma shutterstock_single_match_is_padded :
  suggestCategoriesForShutterstock toLowerCaseAscii (js "cat") (js "")
  = Normal [js "Animals/Wildlife"; js "Miscellaneous"]
  /\ Spec.topCategories 2 [js "Miscellaneous"; js "Objects"]
       shutterstockCategoryMatches
       (shutterstockWords toLowerCaseAscii (js "cat") (js ""))
     = [js "Animals/Wildlife"]
  /\ suggestCategoriesForShutterstock toLowerCaseAscii (js "cat") (js "")
     <> Normal (Spec.topCategories 2 [js "Miscellaneous"; js "Objects"]
                  shutterstockCategoryMatches
                  (shutterstockWords toLowerCaseAscii (js "cat") (js ""))).
Proof.
  split; [|split]; vm_compute; [reflexivity | reflexivity | discriminate].
Qed.

(** C10 fails on the code: a title with the word [constructor] makes both
    matchers throw a [TypeError] instead of returning categories. *)
Theorem constructor_word_makes_matchers_throw :
  suggestCategoriesForAdobeStock toLowerCaseAscii
    (js "Constructor building a house") [js "house"; js "worker"]
  = Throw TypeErrorNotIterable
  /\ suggestCategoriesForShutterstock toLowerCaseAscii
       (js "Constructor building a house") (js "A worker builds a house")
     = Throw TypeErrorNotIterable.
Proof. split; vm_compute; reflexivity. Qed.

End MatcherClaims.

(* --------------------------------------------------------------------- *)
(** ** The CSV export *)
(* --------------------------------------------------------------------- *)

Section CsvFacts.

Lemma no_line_feed (s : jsstring) :
  existsb (N.eqb 10) s = false -> ~ In 10%N s.
Proof.
  intros H Hin.
  assert (E : existsb (N.eqb 10) s = true)
    by (apply existsb_exists; exists 10%N; split;
        [assumption | apply N.eqb_refl]).
  congruence.
Qed.

Lemma headerRow_one_line f s a : ~ In 10%N (headerRow f s a).
Proof.
  apply no_line_feed. destruct f, s, a; vm_compute; reflexivity.
Qed.

Lemma filter_none_exported images :
  Forall (fun img => status img <> complete) images ->
  filter isExported images = [].
Proof.
  induction 1 as [|img images Himg _ IH]; simpl; [reflexivity|].
  unfold isExported at 1. destruct (status img); simpl; try exact IH.
  congruence.
Qed.

(** C6: for the empty list, and for any list with no image of status
    [complete], [formatImagesAsCSV] returns the header row of the selected
    platform alone, with its cells and its separator as written out in
    [selectedHeader]: no line feed, no data row. *)
Theorem formatImagesAsCSV_header_only :
  forall (images : list ProcessedImage)
         (isFreepikOnly isShutterstock isAdobeStock : bool),
    Forall (fun img => status img <> complete) images ->
    formatImagesAsCSV images isFreepikOnly isShutterstock isAdobeStock
    = selectedHeader isFreepikOnly isShutterstock isAdobeStock
    /\ ~ In 10%N
         (formatImagesAsCSV images isFreepikOnly isShutterstock isAdobeStock).
Proof.
  intros images f s a H.
  assert (E : formatImagesAsCSV images f s a = headerRow f s a).
  { unfold formatImagesAsCSV. rewrite (filter_none_exported images H).
    reflexivity. }
  split; [|rewrite E; apply headerRow_one_line].
  rewrite E. destruct f, s, a; reflexivity.
Qed.

Lemma formatImagesAsCSV_header_only_witness :
  formatImagesAsCSV [] false false false = defaultHeader
  /\ formatImagesAsCSV [samplePending] true false false
     = selectedHeader true false false.
Proof.
  split.
  - apply (formatImagesAsCSV_header_only [] false false false).
    constructor.
  - apply (formatImagesAsCSV_header_only [samplePending] true false false).
    repeat constructor. simpl. discriminate.
Defined.

Lemma removeSymbolsFromTitle_or_empty t :
  (if truthy t then removeSymbolsFromTitle t else []) = removeSymbolsFromTitle t.
Proof. destruct t; reflexivity. Qed.

(** C5, as amended: for a list of exactly one image of status [complete]
    whose file is not a video (its MIME type does not start with [video/])
    and whose result has an empty description, [formatImagesAsCSV] with the
    default platform returns the header, a line feed, and one data row of
    four quoted fields: the file name, the cleaned title, the empty
    description and the keywords joined by a comma and a space. *)
Theorem formatImagesAsCSV_single_default_row :
  forall (img : ProcessedImage) (r : ImageResult),
    status img = complete ->
    result img = Some r ->
    description r = [] ->
    startsWith (type (file img)) (js "video/") = false ->
    formatImagesAsCSV [img] false false false
    = defaultHeader ++ [10%N]
      ++ fourQuotedFields (name (file img)) (removeSymbolsFromTitle (title r))
           [] (keywords r).
Proof.
  intros img r Hs Hr Hd Hv.
  unfold formatImagesAsCSV. cbn [filter]. unfold isExported at 1.
  rewrite Hs, Hr. cbn [status_eqb andb map join].
  unfold csvRow, keywordsCell. rewrite Hv, Hr, Hd.
  rewrite removeSymbolsFromTitle_or_empty. reflexivity.
Qed.

Lemma formatImagesAsCSV_single_default_row_witness :
  formatImagesAsCSV [samplePhoto] false false false
  = defaultHeader ++ [10%N]
    ++ fourQuotedFields (js "beach.jpg") (js "Sunset  sea") []
         [js "sunset"; js "sea"].
Proof.
  exact (formatImagesAsCSV_single_default_row samplePhoto _
           eq_refl eq_refl eq_refl eq_refl).
Defined.

(** C5, as stated, fails: a completed video clip with an empty description is
    an image of the list like any other, and its row has another shape: the
    third field holds the keywords joined by a comma alone and the fourth the
    category index. *)
Lemma formatImagesAsCSV_video_row :
  status sampleVideo = complete
  /\ option_map description (result sampleVideo) = Some []
  /\ formatImagesAsCSV [sampleVideo] false false false
     = defaultHeader ++ [10%N]
       ++ join (js ",")
            [quoted (js "clip.mp4"); quoted (js "Sunset over the sea");
             quoted (js "sunset,sea"); quoted []]
  /\ formatImagesAsCSV [sampleVideo] false false false
     <> defaultHeader ++ [10%N]
        ++ fourQuotedFields (js "clip.mp4") (js "Sunset over the sea") []
             [js "sunset"; js "sea"].
Proof.
  split; [|split; [|split]]; vm_compute;
    [reflexivity | reflexivity | reflexivity | discriminate].
Qed.

End CsvFacts.

(* --------------------------------------------------------------------- *)
(** ** The processing run *)
(* --------------------------------------------------------------------- *)

Import Index.

Section RunFacts.

Variable analyze : File -> completion GeminiApi.AnalysisResult.
Variable messageOf : thrown -> jsstring.
Variable platforms : list GeminiApi.Platform.

Let replacement := Index.replacement analyze messageOf platforms.
Let processLoop := Index.processLoop analyze messageOf platforms.

Lemma replacement_id image img : id (replacement image img) = id img.
Proof.
  unfold replacement, Index.replacement.
  destruct (analyze (file image)); reflexivity.
Qed.

Lemma replacement_file image img : file (replacement image img) = file img.
Proof.
  unfold replacement, Index.replacement.
  destruct (analyze (file image)); reflexivity.
Qed.

Lemma updateById_ids id0 f images :
  (forall img, id (f img) = id img) ->
  map id (updateById id0 f images) = map id images.
Proof.
  intro Hf. unfold updateById. rewrite map_map. apply map_ext.
  intro img. destruct (str_eqb (id img) id0); [apply Hf | reflexivity].
Qed.

Lemma updateById_files id0 f images :
  (forall img, file (f img) = file img) ->
  map file (updateById id0 f images) = map file images.
Proof.
  intro Hf. unfold updateById. rewrite map_map. apply map_ext.
  intro img. destruct (str_eqb (id img) id0); [apply Hf | reflexivity].
Qed.

Lemma processLoop_step index image rest images :
  processLoop index (image :: rest) images
  = let images1 := updateById (id image) (replacement image) images in
    ((if 0 <? index then [Timeout 2000] else [])
     ++ [Analyze (file image); SetImages images1]
     ++ fst (processLoop (S index) rest images1),
     snd (processLoop (S index) rest images1)).
Proof.
  unfold processLoop. cbn [Index.processLoop].
  fold replacement.
  destruct (Index.processLoop analyze messageOf platforms (S index) rest
              (updateById (id image) (replacement image) images)).
  reflexivity.
Qed.

Lemma analyzedFiles_app e1 e2 :
  analyzedFiles (e1 ++ e2) = analyzedFiles e1 ++ analyzedFiles e2.
Proof.
  induction e1 as [|e e1 IH]; [reflexivity|].
  destruct e; simpl; now rewrite IH.
Qed.

Lemma timeouts_app e1 e2 : timeouts (e1 ++ e2) = timeouts e1 ++ timeouts e2.
Proof.
  induction e1 as [|e e1 IH]; [reflexivity|].
  destruct e; simpl; now rewrite IH.
Qed.

Lemma states_app e1 e2 : states (e1 ++ e2) = states e1 ++ states e2.
Proof.
  induction e1 as [|e e1 IH]; [reflexivity|].
  destruct e; simpl; now rewrite IH.
Qed.

(** The calls of a loop are those of its images, one each, in order. *)
Lemma processLoop_analyzed pendingImages : forall index images,
  analyzedFiles (fst (processLoop index pendingImages images))
  = map file pendingImages.
Proof.
  induction pendingImages as [|image rest IH]; intros index images;
    [reflexivity|].
  rewrite processLoop_step. cbn [fst]. rewrite !analyzedFiles_app.
  cbn [map]. rewrite IH. destruct (0 <? index); reflexivity.
Qed.

(** Every image but the first of the batch waits two seconds. *)
Lemma processLoop_timeouts pendingImages : forall index images,
  timeouts (fst (processLoop index pendingImages images))
  = repeat 2000 (if 0 <? index then List.length pendingImages
                 else List.length pendingImages - 1).
Proof.
  induction pendingImages as [|image rest IH]; intros index images.
  - now destruct (0 <? index).
  - rewrite processLoop_step. cbn [fst]. rewrite !timeouts_app.
    rewrite IH. cbn [Nat.ltb Nat.leb List.length].
    destruct index; cbn [Nat.ltb Nat.leb]; simpl;
      now rewrite ?Nat.sub_0_r.
Qed.

Lemma processLoop_files pendingImages : forall index images,
  map file (snd (processLoop index pendingImages images)) = map file images.
Proof.
  induction pendingImages as [|image rest IH]; intros index images;
    [reflexivity|].
  rewrite processLoop_step. cbn [snd]. rewrite IH.
  apply updateById_files, replacement_file.
Qed.

Lemma processLoop_ids pendingImages : forall index images,
  map id (snd (processLoop index pendingImages images)) = map id images.
Proof.
  induction pendingImages as [|image rest IH]; intros index images;
    [reflexivity|].
  rewrite processLoop_step. cbn [snd]. rewrite IH.
  apply updateById_ids, replacement_id.
Qed.

Lemma markProcessing_files images :
  map file (markProcessing images) = map file images.
Proof.
  unfold markProcessing. rewrite map_map. apply map_ext. intro img.
  now destruct (status_eqb (status img) pending).
Qed.

Lemma markProcessing_ids images :
  map id (markProcessing images) = map id images.
Proof.
  unfold markProcessing. rewrite map_map. apply map_ext. intro img.
  now destruct (status_eqb (status img) pending).
Qed.

(** The shape of a run that passes the three guards. *)
Lemma handleProcessImages_runs apiKey images image rest :
  truthy apiKey = true ->
  filter (fun img => status_eqb (status img) pending) images = image :: rest ->
  handleProcessImages analyze messageOf platforms apiKey true true images
  = ([SetIsProcessing true; SetImages (markProcessing images)]
     ++ fst (processLoop 0 (image :: rest) (markProcessing images))
     ++ [ToastSuccess (js "All images processed successfully");
         SetIsProcessing false],
     snd (processLoop 0 (image :: rest) (markProcessing images))).
Proof.
  intros Hk Hp. unfold handleProcessImages. rewrite Hk, Hp.
  cbn [negb]. unfold processLoop.
  destruct (Index.processLoop analyze messageOf platforms 0 (image :: rest)
              (markProcessing images)).
  reflexivity.
Qed.

(** Whatever the guards, a run calls the model on files of images of the
    list only, and leaves the files of the list as they are. *)
Lemma handleProcessImages_calls apiKey can granted images :
  incl (analyzedFiles
          (fst (handleProcessImages analyze messageOf platforms apiKey can
                  granted images)))
    (map file images)
  /\ map file (snd (handleProcessImages analyze messageOf platforms apiKey
                      can granted images))
     = map file images.
Proof.
  unfold handleProcessImages.
  destruct (truthy apiKey); cbn [negb];
    [|split; [apply incl_nil_l | reflexivity]].
  destruct (filter (fun img => status_eqb (status img) pending) images)
    as [|image rest] eqn:Hp; [split; [apply incl_nil_l | reflexivity]|].
  destruct can; cbn [negb]; [|split; [apply incl_nil_l | reflexivity]].
  destruct granted; cbn [negb]; [|split; [apply incl_nil_l | reflexivity]].
  pose proof (processLoop_analyzed (image :: rest) 0 (markProcessing images))
    as Ha.
  pose proof (processLoop_files (image :: rest) 0 (markProcessing images))
    as Hf.
  unfold processLoop in Ha, Hf.
  destruct (Index.processLoop analyze messageOf platforms 0 (image :: rest)
              (markProcessing images)) as [effects final].
  cbn [fst snd] in *. split.
  - cbn [analyzedFiles app]. rewrite analyzedFiles_app, Ha. cbn [analyzedFiles].
    rewrite app_nil_r, <- Hp. intros f Hf'. apply in_map_iff in Hf'.
    destruct Hf' as [img [<- Hin]]. apply filter_In in Hin.
    apply in_map. tauto.
  - now rewrite Hf, markProcessing_files.
Qed.

End RunFacts.

(* --------------------------------------------------------------------- *)
(** ** The upload validation *)
(* --------------------------------------------------------------------- *)

Section UploadFacts.

Import ImageUploader.

Lemma processFile_accepts createImagePreview generateId position f image :
  processFile createImagePreview generateId position f = Accepted image ->
  file image = f /\ validFile f /\ isValidFileSize f = true
  /\ status image = pending.
Proof.
  unfold processFile, validFile.
  destruct (isValidMediaType f); cbn [negb]; [|discriminate].
  destruct (isValidFileSize f); cbn [negb]; [|discriminate].
  destruct (createImagePreview f); [|discriminate].
  intro H. inversion H; subst. now repeat split.
Qed.

Lemma processFrom_valid createImagePreview generateId files : forall position,
  Forall validFile
    (map file
       (validResults
          (processFrom createImagePreview generateId position files))).
Proof.
  induction files as [|f files IH]; intro position; [constructor|].
  cbn [processFrom validResults].
  destruct (processFile createImagePreview generateId position f)
    as [image|notice] eqn:E; cbn [validResults]; [|apply IH].
  cbn [map]. constructor; [|apply IH].
  apply processFile_accepts in E. destruct E as [-> [Hv _]]. exact Hv.
Qed.

Lemma processFiles_valid createImagePreview generateId files images :
  processFiles createImagePreview generateId files = Some images ->
  Forall validFile (map file images).
Proof.
  unfold processFiles. intro H.
  pose proof (processFrom_valid createImagePreview generateId files 0) as Hv.
  destruct (validResults (processFrom createImagePreview generateId 0 files));
    [discriminate|].
  now inversion H; subst.
Qed.

Lemma act_keeps_valid images a :
  Forall validFile (map file images) ->
  Forall validFile (analyzedFiles (fst (act images a)))
  /\ Forall validFile (map file (snd (act images a))).
Proof.
  intro H. destruct a as [cp gid files|id0| |an mo pl key can granted];
    cbn [act].
  - destruct (processFiles cp gid files) as [newImages|] eqn:E;
      cbn [fst snd analyzedFiles]; split; try constructor; try assumption.
    unfold handleImagesSelected. rewrite map_app. apply Forall_app.
    split; [assumption | eapply processFiles_valid; eassumption].
  - cbn [fst snd analyzedFiles]. split; [constructor|].
    unfold handleRemoveImage. apply Forall_forall. intros f Hf.
    apply in_map_iff in Hf. destruct Hf as [img [<- Hin]].
    apply filter_In in Hin. destruct Hin as [Hin _].
    apply (proj1 (Forall_forall _ _) H). now apply in_map.
  - cbn [fst snd analyzedFiles]. split; constructor.
  - destruct (handleProcessImages_calls an mo pl key can granted images)
      as [Hc Hf].
    split; [|now rewrite Hf].
    apply Forall_forall. intros f Hin.
    apply (proj1 (Forall_forall _ _) H). now apply Hc.
Qed.

Lemma session_keeps_valid actions : forall images,
  Forall validFile (map file images) ->
  Forall validFile (analyzedFiles (fst (session actions images)))
  /\ Forall validFile (map file (snd (session actions images))).
Proof.
  induction actions as [|a actions IH]; intros images H.
  - split; [constructor | exact H].
  - cbn [session].
    destruct (act_keeps_valid images a H) as [Ha Hs].
    destruct (act images a) as [effects1 images1]. cbn [fst snd] in *.
    destruct (IH images1 Hs) as [Ha2 Hs2].
    destruct (session actions images1) as [effects2 images2].
    cbn [fst snd] in *. split; [|exact Hs2].
    rewrite analyzedFiles_app. apply Forall_app. now split.
Qed.

(** C7: a file whose MIME type is [application/pdf] fails
    [isValidMediaType]; [processFiles] rejects it with a notice and never
    hands it to the image list; and in no session of the page, started with an
    empty list, is [analyzeImageWithGemini] called on it, so that no request
    is sent for it. *)
Theorem pdf_is_rejected_and_never_analyzed :
  forall pdf : File,
    type pdf = js "application/pdf" ->
    isValidMediaType pdf = false
    /\ (forall createImagePreview generateId position,
          exists notice,
            processFile createImagePreview generateId position pdf
            = Rejected notice)
    /\ (forall createImagePreview generateId files images,
          processFiles createImagePreview generateId files = Some images ->
          ~ In pdf (map file images))
    /\ (forall actions,
          ~ In pdf (analyzedFiles (fst (session actions [])))
          /\ ~ In pdf (map file (snd (session actions [])))).
Proof.
  intros pdf Ht.
  assert (Hv : isValidMediaType pdf = false).
  { unfold isValidMediaType. rewrite Ht. vm_compute. reflexivity. }
  assert (Hnot : forall l, Forall validFile l -> ~ In pdf l).
  { intros l Hl Hin. pose proof (proj1 (Forall_forall _ _) Hl pdf Hin) as Hp.
    unfold validFile in Hp. congruence. }
  split; [exact Hv|]. split; [|split].
  - intros cp gid position. unfold processFile. rewrite Hv. cbn [negb].
    eexists. reflexivity.
  - intros cp gid files images E. apply Hnot.
    eapply processFiles_valid; eassumption.
  - intro actions.
    destruct (session_keeps_valid actions [] (Forall_nil _)) as [Ha Hs].
    split; now apply Hnot.
Qed.

Lemma pdf_is_rejected_and_never_analyzed_witness :
  isValidMediaType samplePdf = false.
Proof.
  apply (pdf_is_rejected_and_never_analyzed samplePdf). reflexivity.
Defined.

End UploadFacts.

(* --------------------------------------------------------------------- *)
(** ** The analysis of one image *)
(* --------------------------------------------------------------------- *)

Section AnalyzeFacts.

Variable rt : GeminiApi.Runtime.

(** The [catch] clause turns every exception of the [try] block into a
    result: the function never throws. *)
Lemma analyzeImageWithGemini_returns imageFile apiKey options :
  exists r,
    GeminiApi.analyzeImageWithGemini rt imageFile apiKey options = Normal r.
Proof.
  unfold GeminiApi.analyzeImageWithGemini, tryCatch.
  destruct (GeminiApi.analyzeTry rt imageFile apiKey options);
    eexists; reflexivity.
Qed.

(** A failed call yields the result that carries the message alone. *)
Lemma analyzeImageWithGemini_failure imageFile apiKey options message :
  AiCallFails rt imageFile apiKey options message ->
  GeminiApi.analyzeImageWithGemini rt imageFile apiKey options
  = Normal (GeminiApi.failureResult message)
  /\ truthy message = true.
Proof.
  intro H. unfold GeminiApi.analyzeImageWithGemini, GeminiApi.analyzeTry.
  destruct H as [response errorData value message Hs Hok Hb Hv Hj Hc Ht
                |response errorData Hs Hok Hb Hbody
                |response errorData value e Hs Hok Hb Hv Hj Hc Ht
                |response e Hs Hok Hb Ht
                |response text Hs Hok Hr Hm Hp];
    rewrite Hs; cbn [bindC]; unfold GeminiApi.readResponse;
    rewrite Hok; cbn [negb].
  - rewrite Hb. cbn [bindC]. rewrite Hv, Hj, Hc. cbn [bindC tryCatch].
    now split.
  - rewrite Hb. cbn [bindC].
    destruct Hbody as [-> | [value [-> ->]]]; now split.
  - rewrite Hb. cbn [bindC]. rewrite Hv, Hj, Hc. cbn [bindC tryCatch].
    now split.
  - rewrite Hb. cbn [bindC tryCatch]. now split.
  - rewrite Hr. cbn [bindC]. rewrite Hm, Hp. now split.
Qed.

End AnalyzeFacts.

(* --------------------------------------------------------------------- *)
(** ** The state of the page during a run *)
(* --------------------------------------------------------------------- *)

Section StateFacts.

Lemma find_by_id_map (g : ProcessedImage -> ProcessedImage) images i :
  (forall x, id (g x) = id x) ->
  find (fun x => str_eqb (id x) i) (map g images)
  = option_map g (find (fun x => str_eqb (id x) i) images).
Proof.
  intro Hg. induction images as [|x images IH]; [reflexivity|].
  cbn [map find]. rewrite Hg. now destruct (str_eqb (id x) i).
Qed.

Lemma find_by_id_absent images i :
  ~ In i (map id images) -> find (fun x => str_eqb (id x) i) images = None.
Proof.
  induction images as [|x images IH]; intro H; [reflexivity|].
  cbn [find]. destruct (str_eqb (id x) i) eqn:E.
  - apply str_eqb_eq in E. exfalso. apply H. now left.
  - apply IH. intro Hin. apply H. now right.
Qed.

Lemma find_by_id_present images p :
  NoDup (map id images) -> In p images ->
  find (fun x => str_eqb (id x) (id p)) images = Some p.
Proof.
  induction images as [|x images IH]; intros Hnd Hin; [contradiction|].
  cbn [map] in Hnd. inversion Hnd as [|? ? Hx Hnd']; subst. cbn [find].
  destruct Hin as [->|Hin]; [now rewrite str_eqb_refl|].
  destruct (str_eqb (id x) (id p)) eqn:E; [|now apply IH].
  apply str_eqb_eq in E. exfalso. apply Hx. rewrite E. now apply in_map.
Qed.

Lemma NoDup_ids_filter (f : ProcessedImage -> bool) images :
  NoDup (map id images) -> NoDup (map id (filter f images)).
Proof.
  induction images as [|x images IH]; intro H; [constructor|].
  cbn [map] in H. inversion H as [|? ? Hx Hnd]; subst. cbn [filter].
  destruct (f x); [|now apply IH].
  cbn [map]. constructor; [|now apply IH].
  intro Hin. apply Hx. apply in_map_iff in Hin.
  destruct Hin as [y [E Hy]]. apply filter_In in Hy.
  rewrite <- E. apply in_map. tauto.
Qed.




Lemma markProcessing_map images :
  markProcessing images
  = map (fun img => if status_eqb (status img) pending
                    then asProcessing img else img) images.
Proof. reflexivity. Qed.



End StateFacts.

Section BatchFacts.

Variable analyze : File -> completion GeminiApi.AnalysisResult.
Variable messageOf : thrown -> jsstring.
Variable platforms : list GeminiApi.Platform.

Let replacement := Index.replacement analyze messageOf platforms.
Let processLoop := Index.processLoop analyze messageOf platforms.

Lemma replacement_status image img :
  status (replacement image img) = statusAfter (analyze (file image)).
Proof.
  unfold replacement, Index.replacement, statusAfter.
  destruct (analyze (file image)); reflexivity.
Qed.


(** When the batch has pairwise distinct identifiers, the loop replaces each
    image of the state by the replacement of the batch image that has its
    identifier, and leaves the others. *)
Lemma processLoop_final pendingImages : forall index images,
  NoDup (map id pendingImages) ->
  snd (processLoop index pendingImages images)
  = map (fun img =>
           match find (fun p => str_eqb (id p) (id img)) pendingImages with
           | Some p => replacement p img
           | None => img
           end) images.
Proof.
  induction pendingImages as [|image rest IH]; intros index images Hnd.
  - cbn [find]. now rewrite map_id.
  - cbn [map] in Hnd. inversion Hnd as [|? ? Hi Hnd']; subst.
    unfold processLoop. rewrite (processLoop_step analyze messageOf platforms).
    cbn [snd]. fold processLoop. rewrite (IH _ _ Hnd').
    unfold updateById. rewrite map_map. apply map_ext. intro img.
    cbn [find]. rewrite (str_eqb_sym (id image) (id img)).
    fold replacement.
    destruct (str_eqb (id img) (id image)) eqn:E; [|reflexivity].
    apply str_eqb_eq in E.
    rewrite (replacement_id analyze messageOf platforms).
    rewrite find_by_id_absent; [reflexivity|]. now rewrite E.
Qed.

Lemma same_id_same_image images p x :
  NoDup (map id images) -> In p images -> In x images -> id p = id x -> p = x.
Proof.
  intros Hnd Hp Hx E.
  pose proof (find_by_id_present images p Hnd Hp) as F1.
  pose proof (find_by_id_present images x Hnd Hx) as F2.
  rewrite E in F1. congruence.
Qed.

(** The state at the end of a run that passes the guards: every image that
    was pending is replaced according to its own call, the others are
    untouched. *)
Lemma handleProcessImages_final apiKey images image rest :
  truthy apiKey = true ->
  NoDup (map id images) ->
  filter (fun img => status_eqb (status img) pending) images = image :: rest ->
  snd (handleProcessImages analyze messageOf platforms apiKey true true images)
  = map (fun x => if status_eqb (status x) pending
                  then replacement x (asProcessing x) else x) images.
Proof.
  intros Hk Hnd Hp.
  rewrite (handleProcessImages_runs analyze messageOf platforms apiKey images
             image rest Hk Hp).
  cbn [snd]. fold processLoop. rewrite <- Hp.
  rewrite processLoop_final by now apply NoDup_ids_filter.
  rewrite markProcessing_map, map_map. apply map_ext_in. intros x Hx.
  set (pend := filter (fun img => status_eqb (status img) pending) images).
  destruct (status_eqb (status x) pending) eqn:Es.
  - assert (Hin : In x pend) by (apply filter_In; now split).
    change (id (asProcessing x)) with (id x).
    rewrite find_by_id_present;
      [reflexivity | now apply NoDup_ids_filter | exact Hin].
  - destruct (find (fun p => str_eqb (id p) (id x)) pend) as [p|] eqn:F;
      [|reflexivity].
    apply find_some in F. destruct F as [Hin E].
    apply str_eqb_eq in E. apply filter_In in Hin. destruct Hin as [Hin Hs].
    assert (p = x) by (eapply same_id_same_image; eassumption).
    subst. congruence.
Qed.

End BatchFacts.

(* --------------------------------------------------------------------- *)
(** ** Runs of the orchestrator *)
(* --------------------------------------------------------------------- *)

Section RunClaims.

Variable analyze : File -> completion GeminiApi.AnalysisResult.
Variable messageOf : thrown -> jsstring.
Variable platforms : list GeminiApi.Platform.

Let replacement := Index.replacement analyze messageOf platforms.



Lemma statusOf_map_present (g : ProcessedImage -> ProcessedImage) images p :
  (forall x, id (g x) = id x) -> NoDup (map id images) -> In p images ->
  statusOf (map g images) (id p) = Some (status (g p)).
Proof.
  intros Hg Hnd Hin. unfold statusOf.
  rewrite find_by_id_map by exact Hg.
  now rewrite find_by_id_present.
Qed.


End RunClaims.

Section SampleRun.

Lemma sampleBatch_ids_distinct : NoDup (map id sampleBatch).
Proof.
  cbn. repeat constructor; cbn; intro H;
    repeat (destruct H as [H|H]; [discriminate|]); exact H.
Qed.



End SampleRun.

Section FailureClaims.

Variable rt : GeminiApi.Runtime.
Variable apiKey : jsstring.
Variable options : GeminiApi.AnalysisOptions.
Variable platforms : list GeminiApi.Platform.

Let analyze (f : File) : completion GeminiApi.AnalysisResult :=
  GeminiApi.analyzeImageWithGemini rt f apiKey options.

Let replacement :=
  Index.replacement analyze (GeminiApi.messageOf rt) platforms.

Lemma replacement_of_failure image img message :
  analyze (file image) = Normal (GeminiApi.failureResult message) ->
  truthy message = true ->
  replacement image img = asFailed img message.
Proof.
  intros E Ht. unfold replacement, Index.replacement. rewrite E.
  unfold withResult, GeminiApi.failureResult, asFailed. cbn.
  now rewrite Ht.
Qed.

(** C8, as amended: when the AI call for a pending image fails with a
    message that is not empty, by an HTTP error response or by a reply whose
    JSON cannot be parsed, [analyzeImageWithGemini] does not throw: it
    returns the result that holds the error message and nothing else (empty
    title, description and keywords).  When the identifiers of the images are
    pairwise distinct, the run then puts that image in the status [error]
    with the message and without result, gives every other image of the batch
    the status that its own call decides, leaves the images outside the batch
    as they were, and calls the model exactly once per image of the batch:
    the failed image is not tried again. *)
Theorem failed_call_marks_image_and_run_continues :
  forall (images : list ProcessedImage) (img : ProcessedImage)
         (message : jsstring),
    let run :=
      handleProcessImages analyze (GeminiApi.messageOf rt) platforms apiKey
        true true images in
    truthy apiKey = true ->
    NoDup (map id images) ->
    In img images ->
    status img = pending ->
    AiCallFails rt (file img) apiKey options message ->
    analyze (file img)
    = Normal {| GeminiApi.title := []; GeminiApi.description := [];
                GeminiApi.keywords := []; GeminiApi.prompt := None;
                GeminiApi.baseModel := None; GeminiApi.categories := None;
                GeminiApi.error := Some message |}
    /\ (forall f, exists r, analyze f = Normal r)
    /\ snd run
       = map (fun x => if status_eqb (status x) pending
                       then replacement x (asProcessing x) else x) images
    /\ replacement img (asProcessing img) = asFailed img message
    /\ In (asFailed img message) (snd run)
    /\ statusOf (snd run) (id img) = Some error
    /\ (forall x, In x images -> x <> img ->
          statusOf (snd run) (id x)
          = Some (if status_eqb (status x) pending
                  then statusAfter (analyze (file x)) else status x))
    /\ analyzedFiles (fst run)
       = map file (filter (fun x => status_eqb (status x) pending) images).
Proof.
  intros images img message run Hk Hnd Hin Hs Hfail.
  destruct (analyzeImageWithGemini_failure rt (file img) apiKey options
              message Hfail) as [Ea Ht].
  fold (analyze (file img)) in Ea.
  assert (Hpend : In img
                    (filter (fun x => status_eqb (status x) pending) images))
    by (apply filter_In; split; [assumption | now rewrite Hs]).
  destruct (filter (fun x => status_eqb (status x) pending) images)
    as [|image rest] eqn:Hp; [contradiction|].
  pose proof (handleProcessImages_final analyze (GeminiApi.messageOf rt)
                platforms apiKey images image rest Hk Hnd Hp) as Hfinal.
  fold replacement in Hfinal. fold run in Hfinal.
  assert (Hrep : replacement img (asProcessing img) = asFailed img message)
    by exact (replacement_of_failure img (asProcessing img) message Ea Ht).
  assert (Hid : forall x,
             id (if status_eqb (status x) pending
                 then replacement x (asProcessing x) else x) = id x).
  { intro x. destruct (status_eqb (status x) pending); [|reflexivity].
    unfold replacement.
    now rewrite (replacement_id analyze (GeminiApi.messageOf rt) platforms). }
  split; [exact Ea|]. split.
  { intro f. apply analyzeImageWithGemini_returns. }
  split; [exact Hfinal|]. split; [exact Hrep|]. split; [|split; [|split]].
  - rewrite Hfinal. apply in_map_iff. exists img. split; [|assumption].
    now rewrite Hs, <- Hrep.
  - rewrite Hfinal, (statusOf_map_present _ images img Hid Hnd Hin).
    now rewrite Hs, Hrep.
  - intros x Hx _.
    rewrite Hfinal, (statusOf_map_present _ images x Hid Hnd Hx).
    destruct (status_eqb (status x) pending); [|reflexivity].
    unfold replacement.
    now rewrite (replacement_status analyze (GeminiApi.messageOf rt)
                   platforms).
  - unfold run.
    rewrite (handleProcessImages_runs analyze (GeminiApi.messageOf rt)
               platforms apiKey images image rest Hk Hp).
    cbn [fst]. rewrite !analyzedFiles_app.
    rewrite (processLoop_analyzed analyze (GeminiApi.messageOf rt) platforms).
    cbn [analyzedFiles app]. now rewrite app_nil_r.
Qed.

End FailureClaims.

Section SampleFailure.

(** C8, the claim as it was made fails on two inputs.  An HTTP error
    response whose body is [{"error": {"message": []}}]: the empty array is
    truthy, [new Error([])] has the empty message, the result carries the
    error [''], which is falsy, and the run marks the image [complete].  And
    a list in which a later image has the identifier of the failed one: the
    update after the later call replaces both, and the failed image ends
    [complete]. *)
Lemma failed_call_can_leave_image_complete :
  GeminiApi.sendRequest emptyMessageRuntime (file samplePending)
    (js "AIza-key") sampleOptions
  = Normal emptyMessageResponse
  /\ GeminiApi.ok emptyMessageResponse = false
  /\ GeminiApi.analyzeImageWithGemini emptyMessageRuntime (file samplePending)
       (js "AIza-key") sampleOptions
     = Normal (GeminiApi.failureResult [])
  /\ map status
       (snd (handleProcessImages
               (fun f =>
                  GeminiApi.analyzeImageWithGemini emptyMessageRuntime f
                    (js "AIza-key") sampleOptions)
               (GeminiApi.messageOf emptyMessageRuntime)
               [GeminiApi.AdobeStock] (js "AIza-key") true true
               [samplePending]))
     = [complete]
  /\ sampleAnalyze (file samplePending)
     = Normal (GeminiApi.failureResult (js "Quota exceeded"))
  /\ map status
       (snd (handleProcessImages sampleAnalyze
               (GeminiApi.messageOf sampleRuntime) [GeminiApi.AdobeStock]
               (js "AIza-key") true true [samplePending; sampleTwin]))
     = [complete; complete].
Proof.
  split; [reflexivity|]. split; [reflexivity|]. split; [reflexivity|].
  split; [reflexivity|]. split; reflexivity.
Qed.

Lemma sample_call_fails :
  AiCallFails sampleRuntime (file samplePending) (js "AIza-key") sampleOptions
    (js "Quota exceeded").
Proof.
  eapply HttpErrorWithMessage; reflexivity.
Defined.

Lemma failed_call_marks_image_and_run_continues_witness :
  statusOf
    (snd (handleProcessImages sampleAnalyze (GeminiApi.messageOf sampleRuntime)
            [GeminiApi.AdobeStock] (js "AIza-key") true true sampleBatch))
    (id samplePending)
  = Some error.
Proof.
  destruct (failed_call_marks_image_and_run_continues sampleRuntime
              (js "AIza-key") sampleOptions [GeminiApi.AdobeStock]
              sampleBatch samplePending (js "Quota exceeded") eq_refl
              sampleBatch_ids_distinct (or_introl eq_refl) eq_refl
              sample_call_fails) as [_ [_ [_ [_ [_ [E _]]]]]].
  exact E.
Defined.

(** The run of the sample batch: the refused image ends in [error], the
    two others in [complete]. *)
Lemma sample_run_statuses :
  map (statusOf
         (snd (handleProcessImages sampleAnalyze
                 (GeminiApi.messageOf sampleRuntime) [GeminiApi.AdobeStock]
                 (js "AIza-key") true true sampleBatch)))
    (map id sampleBatch)
  = [Some error; Some complete; Some complete].
Proof. vm_compute. reflexivity. Qed.

End SampleFailure.

(* ===================================================================== *)
(** * Further properties of the code *)
(* ===================================================================== *)

(* --------------------------------------------------------------------- *)
(** ** Sets of strings and substrings *)
(* --------------------------------------------------------------------- *)

Section SetFacts.

Lemma setFrom_In l : forall seen x,
  In x (setFrom seen l) <-> In x l /\ ~ In x seen.
Proof.
  induction l as [|y l IH]; intros seen x; cbn [setFrom].
  - simpl. tauto.
  - destruct (includes seen y) eqn:E.
    + apply includes_In in E. rewrite IH. simpl. split.
      * tauto.
      * intros [[->|H] Hn]; [contradiction | tauto].
    + apply includes_not_In in E. simpl. rewrite IH. simpl. split.
      * intros [->|[H Hn]]; [tauto|]. split; [tauto|]. intro Hs. apply Hn.
        now right.
      * intros [[->|H] Hn]; [now left|].
        destruct (list_eq_dec N.eq_dec y x) as [->|Hne]; [now left|].
        right. split; [exact H|]. intros [Hy|Hs]; [contradiction | tauto].
Qed.

Lemma setFrom_NoDup l : forall seen, NoDup (setFrom seen l).
Proof.
  induction l as [|y l IH]; intro seen; cbn [setFrom]; [constructor|].
  destruct (includes seen y); [apply IH|].
  constructor; [|apply IH]. intro H. apply setFrom_In in H.
  destruct H as [_ H]. apply H. now left.
Qed.

Lemma arrayFromSet_In l x : In x (arrayFromSet l) <-> In x l.
Proof. unfold arrayFromSet. rewrite setFrom_In. simpl. tauto. Qed.

Lemma arrayFromSet_NoDup l : NoDup (arrayFromSet l).
Proof. apply setFrom_NoDup. Qed.

Lemma NoDup_firstn {A} n (l : list A) : NoDup l -> NoDup (firstn n l).
Proof.
  intro H. rewrite <- (firstn_skipn n l) in H.
  exact (NoDup_app_remove_r _ _ H).
Qed.

Lemma In_firstn {A} n (l : list A) x : In x (firstn n l) -> In x l.
Proof.
  intro H. rewrite <- (firstn_skipn n l). apply in_or_app. now left.
Qed.

Lemma strIncludes_empty pat : strIncludes [] pat = true -> pat = [].
Proof. destruct pat; [reflexivity | discriminate]. Qed.

End SetFacts.

(* --------------------------------------------------------------------- *)
(** ** Keywords generated from a description *)
(* --------------------------------------------------------------------- *)

Section FreepikFacts.

Lemma pushIfFound_In d ks w k :
  In k (pushIfFound d ks w) ->
  In k ks \/ (k = w /\ strIncludes d w = true).
Proof.
  unfold pushIfFound.
  destruct (strIncludes d w) eqn:E; cbn [andb]; [|now left].
  destruct (negb (includes ks w)); [|now left].
  intro H. apply in_app_or in H. destruct H as [H|[<-|[]]]; [now left|].
  right. now split.
Qed.

Lemma pushAll_In d ws : forall ks k,
  In k (fold_left (pushIfFound d) ws ks) ->
  In k ks \/ (In k ws /\ strIncludes d k = true).
Proof.
  induction ws as [|w ws IH]; intros ks k H; [now left|].
  cbn [fold_left] in H. apply IH in H. destruct H as [H|[H1 H2]].
  - apply pushIfFound_In in H. destruct H as [H|[-> H]]; [now left|].
    right. split; [now left | exact H].
  - right. split; [now right | exact H2].
Qed.

Lemma pushLists_In d lists : forall ks k,
  In k (fold_left (fun keywords words =>
                     fold_left (pushIfFound d) words keywords) lists ks) ->
  In k ks \/ (In k (List.concat lists) /\ strIncludes d k = true).
Proof.
  induction lists as [|ws lists IH]; intros ks k H; [now left|].
  cbn [fold_left] in H. apply IH in H. cbn [List.concat].
  destruct H as [H|[H1 H2]].
  - apply pushAll_In in H. destruct H as [H|[H1 H2]]; [now left|].
    right. split; [apply in_or_app; now left | exact H2].
  - right. split; [apply in_or_app; now right | exact H2].
Qed.

Lemma pushIfFound_keeps d ks w k : In k ks -> In k (pushIfFound d ks w).
Proof.
  unfold pushIfFound. intro H.
  destruct (strIncludes d w && negb (includes ks w)); [|exact H].
  apply in_or_app. now left.
Qed.

Lemma plainKeyword_check k :
  (match k with [] => false | _ :: _ => forallb isWord k end) = true ->
  plainKeyword k.
Proof.
  destruct k as [|c k]; [discriminate|]. intro H. split; [discriminate|].
  apply Forall_forall. exact (proj1 (forallb_forall _ _) H).
Qed.

Lemma plainKeywords_check l :
  forallb (fun k => match k with [] => false | _ :: _ => forallb isWord k end)
    l = true ->
  Forall plainKeyword l.
Proof.
  intro H. apply Forall_forall. intros k Hk. apply plainKeyword_check.
  exact (proj1 (forallb_forall _ _) H k Hk).
Qed.

Lemma listedWords_plain : Forall plainKeyword listedWords.
Proof. apply plainKeywords_check. vm_compute. reflexivity. Qed.

Lemma generalWords_plain : Forall plainKeyword generalWords.
Proof. apply plainKeywords_check. vm_compute. reflexivity. Qed.

Lemma stripped_is_word w :
  Forall (fun c => isWord c = true)
    (replaceAllWithEmpty (negClassMatches [ClassWord]) w).
Proof.
  unfold replaceAllWithEmpty. apply Forall_forall. intros c Hc.
  apply filter_In in Hc. destruct Hc as [_ Hc].
  unfold negClassMatches, classMatches in Hc. cbn in Hc.
  rewrite negb_involutive, orb_false_r in Hc. exact Hc.
Qed.

Lemma stripped_filter w :
  replaceAllWithEmpty (negClassMatches [ClassWord]) w = filter isWord w.
Proof.
  unfold replaceAllWithEmpty. apply filter_ext. intro c.
  unfold negClassMatches, classMatches. cbn.
  now rewrite negb_involutive, orb_false_r.
Qed.

Variable toLowerCase : jsstring -> jsstring.

(** Where a keyword of the result comes from. *)
Lemma keyword_origin imageDescription k :
  In k (getRelevantFreepikKeywords toLowerCase imageDescription) ->
  let description := toLowerCase imageDescription in
  (exists word, In word (splitSpaces description)
                /\ 3 < List.length word
                /\ k = filter isWord word /\ k <> [])
  \/ (In k listedWords /\ strIncludes description k = true)
  \/ (In k generalWords
      /\ exists t, In t generalTriggers /\ strIncludes description t = true).
Proof.
  intro H. unfold getRelevantFreepikKeywords in H. cbv zeta in *.
  set (description := toLowerCase imageDescription) in *.
  apply In_firstn in H. apply (proj1 (arrayFromSet_In _ _)) in H.
  set (uniq :=
         arrayFromSet
           (filter (fun word => 0 <? List.length word)
              (map (replaceAllWithEmpty (negClassMatches [ClassWord]))
                 (filter (fun word => 3 <? List.length word)
                    (splitSpaces description))))) in H.
  set (k1 := fold_left (fun keywords words =>
                          fold_left (pushIfFound description) words keywords)
               freepikCategories uniq) in H.
  set (k2 := fold_left (pushIfFound description) styleAdjectives k1) in H.
  assert (Hk2 : In k k2 ->
                (exists word, In word (splitSpaces description)
                              /\ 3 < List.length word
                              /\ k = filter isWord word /\ k <> [])
                \/ (In k listedWords /\ strIncludes description k = true)).
  { intro Hin. subst k2. apply pushAll_In in Hin.
    destruct Hin as [Hin|[H1 H2]].
    - subst k1. apply pushLists_In in Hin. destruct Hin as [Hin|[H1 H2]].
      + left. subst uniq. apply (proj1 (arrayFromSet_In _ _)) in Hin.
        apply filter_In in Hin. destruct Hin as [Hin Hlen].
        apply in_map_iff in Hin. destruct Hin as [word [E Hw]].
        apply filter_In in Hw. destruct Hw as [Hw H3].
        exists word. rewrite stripped_filter in E. repeat split.
        * exact Hw.
        * now apply Nat.ltb_lt.
        * now symmetry.
        * intro Hnil. rewrite Hnil in Hlen. discriminate.
      + right. split; [|exact H2]. apply in_or_app. now left.
    - right. split; [|exact H2]. apply in_or_app. now right. }
  assert (Hgen : forall (b : bool) (base extra : list jsstring) (t : jsstring),
             (b = true -> exists t, In t generalTriggers
                                    /\ strIncludes description t = true) ->
             incl extra generalWords ->
             In k (if b then base ++ extra else base) ->
             In k base
             \/ (In k generalWords
                 /\ exists t, In t generalTriggers
                              /\ strIncludes description t = true)).
  { intros b base extra _ Hb Hincl Hin. destruct b; [|now left].
    apply in_app_or in Hin. destruct Hin as [Hin|Hin]; [now left|].
    right. split; [now apply Hincl | now apply Hb]. }
  assert (Htrig : forall ts, incl ts generalTriggers ->
             existsb (strIncludes description) ts = true ->
             exists t, In t generalTriggers
                       /\ strIncludes description t = true).
  { intros ts Hts He. apply existsb_exists in He.
    destruct He as [t [Ht E]]. exists t. split; [now apply Hts | exact E]. }
  destruct (List.length k2 <? 15); [|destruct (Hk2 H); tauto].
  apply (Hgen _ _ _ k) in H.
  2:{ intro E. apply (Htrig (map js ["person"; "people"; "man"; "woman"]%string)).
      - intros t Ht. cbn in Ht. unfold generalTriggers. cbn.
        repeat (destruct Ht as [<-|Ht]; [tauto|]). contradiction.
      - cbn [map existsb]. now rewrite orb_false_r, !orb_assoc. }
  2:{ intros t Ht. cbn in Ht. unfold generalWords. cbn.
      repeat (destruct Ht as [<-|Ht]; [tauto|]). contradiction. }
  destruct H as [H|H]; [|tauto].
  apply (Hgen _ _ _ k) in H.
  2:{ intro E.
      apply (Htrig (map js ["outdoor"; "outside"; "garden"]%string)).
      - intros t Ht. cbn in Ht. unfold generalTriggers. cbn.
        repeat (destruct Ht as [<-|Ht]; [tauto|]). contradiction.
      - cbn [map existsb]. now rewrite orb_false_r, !orb_assoc. }
  2:{ intros t Ht. cbn in Ht. unfold generalWords. cbn.
      repeat (destruct Ht as [<-|Ht]; [tauto|]). contradiction. }
  destruct H as [H|H]; [|tauto].
  apply (Hgen _ _ _ k) in H.
  2:{ intro E.
      apply (Htrig (map js ["indoor"; "room"; "interior"]%string)).
      - intros t Ht. cbn in Ht. unfold generalTriggers. cbn.
        repeat (destruct Ht as [<-|Ht]; [tauto|]). contradiction.
      - cbn [map existsb]. now rewrite orb_false_r, !orb_assoc. }
  2:{ intros t Ht. cbn in Ht. unfold generalWords. cbn.
      repeat (destruct Ht as [<-|Ht]; [tauto|]). contradiction. }
  destruct H as [H|H]; [|tauto].
  destruct (Hk2 H); tauto.
Qed.

End FreepikFacts.

Section FreepikKeywordClaims.

(** X1: whatever the description, [getRelevantFreepikKeywords] returns at
    most 30 keywords, no keyword twice, and every keyword is a non-empty
    string of word characters (ASCII letters, digits, underscore). *)
Theorem freepik_keywords_few_distinct_plain :
  forall (toLowerCase : jsstring -> jsstring) (imageDescription : jsstring),
    List.length (getRelevantFreepikKeywords toLowerCase imageDescription) <= 30
    /\ NoDup (getRelevantFreepikKeywords toLowerCase imageDescription)
    /\ Forall plainKeyword
         (getRelevantFreepikKeywords toLowerCase imageDescription).
Proof.
  intros lc desc. split; [|split].
  - unfold getRelevantFreepikKeywords. cbv zeta. apply firstn_le_length.
  - unfold getRelevantFreepikKeywords. cbv zeta.
    apply NoDup_firstn, arrayFromSet_NoDup.
  - apply Forall_forall. intros k Hk.
    destruct (keyword_origin lc desc k Hk)
      as [[word [_ [_ [E Hne]]]] | [[Hl _] | [Hg _]]].
    + split; [exact Hne|]. rewrite E. apply Forall_forall. intros c Hc.
      apply filter_In in Hc. tauto.
    + exact (proj1 (Forall_forall _ _) listedWords_plain k Hl).
    + exact (proj1 (Forall_forall _ _) generalWords_plain k Hg).
Qed.

(** X2: every keyword that [getRelevantFreepikKeywords] returns comes from
    the lower-cased description: it is a white-space separated word of more
    than 3 code units with everything but word characters removed, or one of
    the listed words that occurs in the description as a substring, or one of
    the twelve general words, added only when the description contains one of
    their trigger words.  In particular an empty description gives no keyword
    at all. *)
Theorem freepik_keywords_come_from_description :
  forall (toLowerCase : jsstring -> jsstring) (imageDescription : jsstring),
    (forall k,
        In k (getRelevantFreepikKeywords toLowerCase imageDescription) ->
        (exists word,
            In word (splitSpaces (toLowerCase imageDescription))
            /\ 3 < List.length word
            /\ k = filter isWord word /\ k <> [])
        \/ (In k listedWords
            /\ strIncludes (toLowerCase imageDescription) k = true)
        \/ (In k generalWords
            /\ exists t, In t generalTriggers
                         /\ strIncludes (toLowerCase imageDescription) t
                            = true))
    /\ (toLowerCase imageDescription = [] ->
        getRelevantFreepikKeywords toLowerCase imageDescription = []).
Proof.
  intros lc desc. split; [intros k Hk; exact (keyword_origin lc desc k Hk)|].
  intro Hd.
  destruct (getRelevantFreepikKeywords lc desc) as [|k r] eqn:E;
    [reflexivity|].
  exfalso.
  assert (Hk : In k (getRelevantFreepikKeywords lc desc))
    by (rewrite E; now left).
  destruct (keyword_origin lc desc k Hk)
    as [[word [Hw [H3 _]]] | [[Hl Hi] | [_ [t [Ht Hi]]]]];
    cbv zeta in *; rewrite Hd in *.
  - cbn in Hw. destruct Hw as [<-|[]]. cbn in H3. lia.
  - apply strIncludes_empty in Hi. subst k.
    pose proof (proj1 (Forall_forall _ _) listedWords_plain [] Hl) as [Hn _].
    now apply Hn.
  - apply strIncludes_empty in Hi. subst t. apply includes_In in Ht.
    vm_compute in Ht. discriminate.
Qed.

Lemma freepik_keywords_come_from_description_witness :
  getRelevantFreepikKeywords toLowerCaseAscii [] = [].
Proof.
  apply (freepik_keywords_come_from_description toLowerCaseAscii []).
  reflexivity.
Defined.

End FreepikKeywordClaims.

(* --------------------------------------------------------------------- *)
(** ** More on the category matchers *)
(* --------------------------------------------------------------------- *)

Section MatcherExtras.

Variable toLowerCase : jsstring -> jsstring.


Lemma ranking_head_is_most_frequent table words c rest :
  Spec.rankedCategories table words = c :: rest ->
  In c (Spec.tokenMatches table words)
  /\ forall d, Spec.frequency (Spec.tokenMatches table words) d
               <= Spec.frequency (Spec.tokenMatches table words) c.
Proof.
  intro E. split.
  - apply rankedCategories_In. rewrite E. now left.
  - intro d.
    destruct (in_dec (list_eq_dec N.eq_dec) d
                (Spec.tokenMatches table words)) as [Hin|Hout].
    + apply rankedCategories_In in Hin. rewrite E in Hin.
      destruct (rankedCategories_ranking table words) as [Hs _].
      cbv zeta in Hs. rewrite E in Hs. inversion Hs as [|? ? _ Hall]; subst.
      destruct Hin as [<-|Hin]; [apply Nat.le_refl|].
      exact (proj1 (Forall_forall _ _) Hall d Hin).
    + rewrite (frequency_absent _ _ Hout). apply Nat.le_0_l.
Qed.

(** X4: when no word of the text reads a member of [Object.prototype] and at
    least one word is in the table, the category that
    [suggestCategoriesForAdobeStock] returns, and the first of the two that
    [suggestCategoriesForShutterstock] returns, is a category of a word of the
    text and no category was counted more often. *)
Theorem suggested_category_is_most_frequent :
  forall (title : jsstring) (keywords : list jsstring)
         (title' description : jsstring),
    let adobe :=
      Spec.tokenMatches adobeCategoryMatches
        (adobeWords toLowerCase title keywords) in
    let shutter :=
      Spec.tokenMatches shutterstockCategoryMatches
        (shutterstockWords toLowerCase title' description) in
    Forall (readsOwnOrNothing adobeCategoryMatches)
      (adobeWords toLowerCase title keywords) ->
    Forall (readsOwnOrNothing shutterstockCategoryMatches)
      (shutterstockWords toLowerCase title' description) ->
    adobe <> [] ->
    shutter <> [] ->
    (exists c,
        suggestCategoriesForAdobeStock toLowerCase title keywords = Normal [c]
        /\ In c adobe
        /\ forall d, Spec.frequency adobe d <= Spec.frequency adobe c)
    /\ (exists c c2,
           suggestCategoriesForShutterstock toLowerCase title' description
           = Normal [c; c2]
           /\ In c shutter
           /\ forall d, Spec.frequency shutter d <= Spec.frequency shutter c).
Proof.
  intros title keywords title' description adobe shutter Ha Hs Na Ns. split.
  - rewrite (adobe_suggest_ranked toLowerCase title keywords Ha).
    unfold Spec.topCategories. fold adobe.
    destruct adobe as [|m ms] eqn:Em; [congruence|].
    destruct (Spec.rankedCategories adobeCategoryMatches
                (adobeWords toLowerCase title keywords)) as [|c r] eqn:Er.
    + apply rankedCategories_nil in Er. unfold adobe in Em. congruence.
    + exists c. split; [reflexivity|]. rewrite <- Em.
      exact (ranking_head_is_most_frequent _ _ c r Er).
  - rewrite (shutterstock_suggest_ranked toLowerCase title' description Hs).
    destruct (Spec.rankedCategories shutterstockCategoryMatches
                (shutterstockWords toLowerCase title' description))
      as [|c r] eqn:Er.
    + apply rankedCategories_nil in Er. unfold shutter in Ns. congruence.
    + pose proof (ranking_head_is_most_frequent _ _ c r Er) as Hc.
      destruct r as [|c2 r'].
      * exists c, (js "Miscellaneous"). split; [reflexivity | exact Hc].
      * exists c, c2. split; [reflexivity | exact Hc].
Qed.

End MatcherExtras.

Section MatcherExtrasWitness.

Lemma suggested_category_is_most_frequent_witness :
  exists c,
    suggestCategoriesForAdobeStock toLowerCaseAscii
      (js "Tea and coffee on a bridge") [js "coffee"; js "bridge"; js "tea"]
    = Normal [c]
    /\ In c (Spec.tokenMatches adobeCategoryMatches
               (adobeWords toLowerCaseAscii (js "Tea and coffee on a bridge")
                  [js "coffee"; js "bridge"; js "tea"])).
Proof.
  destruct (suggested_category_is_most_frequent toLowerCaseAscii
              (js "Tea and coffee on a bridge")
              [js "coffee"; js "bridge"; js "tea"]
              (js "Old bridge") (js "a vintage photo of a car")) as [H _].
  - vm_compute. repeat constructor; discriminate.
  - vm_compute. repeat constructor; discriminate.
  - vm_compute. discriminate.
  - vm_compute. discriminate.
  - destruct H as [c [E [Hin _]]]. exists c. now split.
Defined.

End MatcherExtrasWitness.

(* --------------------------------------------------------------------- *)
(** ** More on titles and on the CSV export *)
(* --------------------------------------------------------------------- *)

Section TitleExtras.

Lemma filter_all {A} (f : A -> bool) (l : list A) :
  filter f l = l <-> Forall (fun x => f x = true) l.
Proof.
  split.
  - intro H. apply Forall_forall. intros x Hx. rewrite <- H in Hx.
    apply filter_In in Hx. tauto.
  - induction 1 as [|x l Hx _ IH]; [reflexivity|]. cbn [filter].
    now rewrite Hx, IH.
Qed.

Lemma filter_same_length {A} (f : A -> bool) (l : list A) :
  List.length (filter f l) = List.length l -> filter f l = l.
Proof.
  induction l as [|x l IH]; [reflexivity|]. cbn [filter].
  pose proof (filter_length_le f l) as Hle.
  destruct (f x); cbn [List.length]; intro H.
  - f_equal. apply IH. lia.
  - lia.
Qed.

(** X5: [removeSymbolsFromTitle] never lengthens a title; it returns the
    title unchanged exactly when every code unit of it is a kept one, and a
    strictly shorter string otherwise.  The result never holds a double quote
    or a semicolon, the characters that delimit the fields of the export. *)
Theorem removeSymbolsFromTitle_shortens_unless_clean :
  forall s : jsstring,
    List.length (removeSymbolsFromTitle s) <= List.length s
    /\ (removeSymbolsFromTitle s = s
        <-> Forall (fun c => keptInTitle c = true) s)
    /\ (removeSymbolsFromTitle s <> s ->
        List.length (removeSymbolsFromTitle s) < List.length s)
    /\ ~ In 34%N (removeSymbolsFromTitle s)
    /\ ~ In 59%N (removeSymbolsFromTitle s).
Proof.
  intro s. rewrite removeSymbolsFromTitle_filter.
  pose proof (filter_length_le keptInTitle s) as Hle.
  split; [exact Hle|]. split; [apply filter_all|]. split; [|split].
  - intro Hne.
    destruct (Nat.eq_dec (List.length (filter keptInTitle s))
                (List.length s)) as [E|E]; [|lia].
    apply filter_same_length in E. contradiction.
  - intro H. apply filter_In in H. destruct H as [_ H].
    vm_compute in H. discriminate.
  - intro H. apply filter_In in H. destruct H as [_ H].
    vm_compute in H. discriminate.
Qed.

End TitleExtras.

Section CsvExtras.

(** X6: for an exported image whose file is not a video, the header and the
    data row of [formatImagesAsCSV] are aligned column by column, as listed
    in [columnsOf]: both are made of quoted cells joined by the same
    separator (a semicolon for Freepik, a comma otherwise), and under each
    header cell stands the field of that name.  Freepik: file name, cleaned
    title, keywords joined by a comma and a space, prompt, and [leonardo] as
    base model.  Shutterstock: file name, description, keywords joined by a
    comma, categories joined by a comma.  Adobe Stock: file name, cleaned
    title, keywords joined by a comma and a space, categories.  Otherwise:
    file name, cleaned title, description, keywords joined by a comma and a
    space. *)
Theorem csv_row_has_the_columns_of_the_header :
  forall (isFreepikOnly isShutterstock isAdobeStock : bool)
         (img : ProcessedImage) (r : ImageResult),
    isVideoFile (file img) = false ->
    result img = Some r ->
    headerRow isFreepikOnly isShutterstock isAdobeStock
    = join (layoutSeparator isFreepikOnly)
        (map (fun column => cell (fst column))
           (columnsOf isFreepikOnly isShutterstock isAdobeStock
              (name (file img)) r))
    /\ csvRow isFreepikOnly isShutterstock isAdobeStock img
       = join (layoutSeparator isFreepikOnly)
           (map (fun column => [34%N] ++ snd column ++ [34%N])
              (columnsOf isFreepikOnly isShutterstock isAdobeStock
                 (name (file img)) r)).
Proof.
  intros f s a img r Hv Hr. unfold isVideoFile in Hv.
  split; [destruct f, s, a; reflexivity|].
  unfold csvRow, keywordsCell, categoriesCell, orEmpty. rewrite Hv, Hr.
  rewrite (removeSymbolsFromTitle_or_empty (title r)).
  destruct f; [|destruct s; [|destruct a]]; reflexivity.
Qed.

Lemma csv_row_has_the_columns_of_the_header_witness :
  csvRow true false false samplePhoto
  = join (js ";")
      (map quoted
         [js "beach.jpg"; js "Sunset  sea"; js "sunset, sea"; [];
          js "leonardo"]).
Proof.
  exact (proj2 (csv_row_has_the_columns_of_the_header true false false
                  samplePhoto
                  {| title := js "Sunset & sea!"; description := [];
                     keywords := [js "sunset"; js "sea"]; prompt := None;
                     baseModel := None; categories := None |}
                  eq_refl eq_refl)).
Defined.

(** X7: for an image whose file is a video, the data row does not depend on
    the platform: it always has the four fields file name, cleaned title,
    keywords joined by a comma and category index, joined by commas, also in
    the Freepik layout whose header has five cells joined by semicolons.  The
    category index is empty or the 1-based position of the first category of
    the result in [adobeStockCategories]. *)
Theorem csv_video_row_ignores_the_platform :
  forall (isFreepikOnly isShutterstock isAdobeStock : bool)
         (img : ProcessedImage),
    isVideoFile (file img) = true ->
    csvRow isFreepikOnly isShutterstock isAdobeStock img
    = csvRow false false false img
    /\ exists index,
         csvRow isFreepikOnly isShutterstock isAdobeStock img
         = join (js ",")
             (map quoted
                [name (file img);
                 match result img with
                 | Some r => removeSymbolsFromTitle (title r)
                 | None => []
                 end;
                 keywordsCell (js ",") img;
                 index])
         /\ (index = []
             \/ exists n cat r cats,
                  index = natToString (n + 1)
                  /\ nth_error adobeStockCategories n = Some cat
                  /\ result img = Some r
                  /\ categories r = Some (cat :: cats)).
Proof.
  intros f s a img Hv. unfold isVideoFile in Hv. unfold csvRow.
  rewrite Hv. split; [reflexivity|].
  exists (match result img with
          | Some r =>
              match categories r with
              | Some (cat :: _) =>
                  match findIndex adobeStockCategories cat with
                  | Some idx => natToString (idx + 1)
                  | None => []
                  end
              | _ => []
              end
          | None => []
          end).
  split.
  { destruct (result img) as [r|]; [|reflexivity].
    rewrite removeSymbolsFromTitle_or_empty. reflexivity. }
  destruct (result img) as [r|] eqn:Er; [|now left].
  destruct (categories r) as [[|cat cats]|] eqn:Ec; [now left | | now left].
  destruct (findIndex adobeStockCategories cat) as [n|] eqn:E; [|now left].
  right. exists n, cat, r, cats. split; [reflexivity|].
  split; [|split; [reflexivity | exact Ec]].
  clear -E. revert n E.
  induction adobeStockCategories as [|c l IH]; intros n E; [discriminate|].
  cbn [findIndex] in E. destruct (str_eqb c cat) eqn:Ecat.
  - inversion E; subst. apply str_eqb_eq in Ecat. now subst.
  - destruct (findIndex l cat) as [m|]; [|discriminate].
    inversion E; subst. cbn [nth_error]. now apply IH.
Qed.

Lemma csv_video_row_ignores_the_platform_witness :
  csvRow true false false sampleVideo = csvRow false false false sampleVideo.
Proof.
  exact (proj1 (csv_video_row_ignores_the_platform true false false
                  sampleVideo eq_refl)).
Defined.

(** X8: images that are not exported (status other than [complete], or no
    result) have no influence on the export: inserting one anywhere in the
    list leaves the output of [formatImagesAsCSV] as it is. *)
Theorem csv_skips_images_that_are_not_complete :
  forall (before after : list ProcessedImage) (img : ProcessedImage)
         (isFreepikOnly isShutterstock isAdobeStock : bool),
    status img <> complete \/ result img = None ->
    formatImagesAsCSV (before ++ img :: after) isFreepikOnly isShutterstock
      isAdobeStock
    = formatImagesAsCSV (before ++ after) isFreepikOnly isShutterstock
        isAdobeStock.
Proof.
  intros before after img f s a H. unfold formatImagesAsCSV.
  rewrite !filter_app. cbn [filter].
  assert (E : isExported img = false).
  { unfold isExported. destruct H as [H|H].
    - destruct (status img); try reflexivity. congruence.
    - rewrite H. apply andb_false_r. }
  now rewrite E.
Qed.

Lemma csv_skips_images_that_are_not_complete_witness :
  formatImagesAsCSV ([samplePhoto] ++ samplePending :: [sampleVideo])
    false false true
  = formatImagesAsCSV ([samplePhoto] ++ [sampleVideo]) false false true.
Proof.
  apply (csv_skips_images_that_are_not_complete [samplePhoto] [sampleVideo]
           samplePending false false true).
  left. discriminate.
Defined.

End CsvExtras.

Section DownloadExtras.

Lemma suffixed_last (p : jsstring) (x : char16) (l : jsstring) :
  p ++ js "-MetaData" = l ++ [x] -> x = 97%N.
Proof.
  change (js "-MetaData") with (js "-MetaDat" ++ [97%N]).
  rewrite app_assoc. intro H. apply app_inj_tail in H. now destruct H.
Qed.

(** X9: [downloadCSV] names the download [folder/filename], and two
    different platform names never get the same folder, nor the folder
    [metadata] that is used when no platform is given. *)
Theorem download_folder_tells_the_platform :
  forall (filename p q : jsstring),
    truthy p = true ->
    truthy q = true ->
    customFilename filename (Some p) = folderName (Some p) ++ js "/" ++ filename
    /\ (folderName (Some p) = folderName (Some q) -> p = q)
    /\ folderName (Some p) <> folderName None.
Proof.
  intros filename p q Hp Hq. split; [reflexivity|]. unfold folderName.
  rewrite Hp, Hq.
  destruct (str_eqb p (js "AdobeStock")) eqn:PA;
    [|destruct (str_eqb p (js "Freepik")) eqn:PF].
  - apply str_eqb_eq in PA. split; [|vm_compute; discriminate].
    destruct (str_eqb q (js "AdobeStock")) eqn:QA;
      [|destruct (str_eqb q (js "Freepik")) eqn:QF].
    + apply str_eqb_eq in QA. congruence.
    + vm_compute. discriminate.
    + intro H. symmetry in H. apply suffixed_last in H. discriminate.
  - apply str_eqb_eq in PF. split; [|vm_compute; discriminate].
    destruct (str_eqb q (js "AdobeStock")) eqn:QA;
      [|destruct (str_eqb q (js "Freepik")) eqn:QF].
    + vm_compute. discriminate.
    + apply str_eqb_eq in QF. congruence.
    + intro H. symmetry in H.
      change (js "Freepik-MetaData By Pikshine")
        with (js "Freepik-MetaData By Pikshin" ++ [101%N]) in H.
      apply suffixed_last in H. discriminate.
  - split.
    + destruct (str_eqb q (js "AdobeStock")) eqn:QA;
        [|destruct (str_eqb q (js "Freepik")) eqn:QF].
      * intro H. apply suffixed_last in H. discriminate.
      * intro H.
        change (js "Freepik-MetaData By Pikshine")
          with (js "Freepik-MetaData By Pikshin" ++ [101%N]) in H.
        apply suffixed_last in H. discriminate.
      * intro H. now apply app_inv_tail in H.
    + intro H. apply (f_equal (@List.length char16)) in H.
      rewrite length_app in H. cbn in H. lia.
Qed.

Lemma download_folder_tells_the_platform_witness :
  customFilename (js "image-metadata.csv") (Some (js "Shutterstock"))
  = js "Shutterstock-MetaData/image-metadata.csv".
Proof.
  exact (proj1 (download_folder_tells_the_platform (js "image-metadata.csv")
                  (js "Shutterstock") (js "Canva") eq_refl eq_refl)).
Defined.

End DownloadExtras.

(* --------------------------------------------------------------------- *)
(** ** The JSON text taken out of a reply *)
(* --------------------------------------------------------------------- *)

Section ExtractFacts.

Import GeminiApi.

Lemma dropUntil_head c s :
  dropUntil c s = [] \/ exists t, dropUntil c s = c :: t.
Proof.
  induction s as [|x s IH]; [now left|]. cbn [dropUntil].
  destruct (char_eqb x c) eqn:E; [|exact IH].
  apply char_eqb_eq in E. subst. right. now exists s.
Qed.

Lemma dropUntil_suffix c s : exists pre, s = pre ++ dropUntil c s.
Proof.
  induction s as [|x s [pre IH]]; [now exists []|]. cbn [dropUntil].
  destruct (char_eqb x c); [now exists []|].
  exists (x :: pre). cbn. now rewrite <- IH.
Qed.

Lemma dropUntil_skips c pre rest :
  ~ In c pre -> dropUntil c (pre ++ c :: rest) = c :: rest.
Proof.
  induction pre as [|x pre IH]; intro H; cbn [app dropUntil].
  - unfold char_eqb. now rewrite N.eqb_refl.
  - destruct (char_eqb x c) eqn:E.
    + apply char_eqb_eq in E. subst. exfalso. apply H. now left.
    + apply IH. intro Hin. apply H. now right.
Qed.

(** The two [replace] calls leave an empty string or a string from an
    opening brace to a closing brace. *)
Lemma braces_or_empty s :
  let cut := rev (dropUntil 125%N (rev (dropUntil 123%N s))) in
  cut = [] \/ exists mid, cut = 123%N :: mid ++ [125%N].
Proof.
  cbv zeta. destruct (dropUntil_head 123%N s) as [E|[u E]]; rewrite E;
    [now left|].
  match goal with
  | |- context [dropUntil ?c ?r] =>
      destruct (dropUntil_head c r) as [F|[v F]];
      destruct (dropUntil_suffix c r) as [pre Hp]
  end; rewrite F in *; [now left|]. right. apply (f_equal (@rev char16)) in Hp.
  rewrite rev_involutive, rev_app_distr in Hp. cbn [rev] in *.
  destruct (rev v) as [|h t].
  - cbn in Hp. inversion Hp.
  - cbn in Hp. inversion Hp; subst. now exists t.
Qed.

Lemma braces_unchanged mid :
  rev (dropUntil 125%N (rev (dropUntil 123%N (123%N :: mid ++ [125%N]))))
  = 123%N :: mid ++ [125%N].
Proof.
  cbn [dropUntil char_eqb]. rewrite N.eqb_refl.
  change (123%N :: mid ++ [125%N]) with ((123%N :: mid) ++ [125%N]).
  rewrite rev_app_distr. cbn [rev app dropUntil].
  unfold char_eqb. rewrite N.eqb_refl.
  change (125%N :: rev mid ++ [123%N]) with (rev ((123%N :: mid) ++ [125%N]))
    at 1 || idtac.
  cbn [rev]. rewrite rev_app_distr, rev_involutive. reflexivity.
Qed.

Lemma startsWith_app pat rest : startsWith (pat ++ rest) pat = true.
Proof.
  induction pat as [|c pat IH]; [now destruct rest|]. cbn.
  unfold char_eqb. now rewrite N.eqb_refl.
Qed.

Lemma firstOccurrence_absent c pat s :
  ~ In c s -> firstOccurrence (c :: pat) s = None.
Proof.
  induction s as [|x s IH]; intro H; [reflexivity|].
  cbn [firstOccurrence startsWith].
  destruct (char_eqb x c) eqn:E.
  - apply char_eqb_eq in E. subst. exfalso. apply H. now left.
  - cbn [andb]. rewrite IH; [reflexivity|]. intro Hin. apply H. now right.
Qed.

Lemma firstOccurrence_after c pat pre rest :
  ~ In c pre ->
  firstOccurrence (c :: pat) (pre ++ (c :: pat) ++ rest)
  = Some (List.length pre).
Proof.
  induction pre as [|x pre IH]; intro H.
  - cbn [app List.length].
    pose proof (startsWith_app (c :: pat) rest) as Hs.
    cbn [app] in Hs. destruct pat; cbn [firstOccurrence]; now rewrite Hs.
  - cbn [app firstOccurrence startsWith].
    destruct (char_eqb x c) eqn:E.
    + apply char_eqb_eq in E. subst. exfalso. apply H. now left.
    + cbn [andb List.length].
      cbn [app] in IH. rewrite IH; [reflexivity|].
      intro Hin. apply H. now right.
Qed.

(** The closing fence is found right after a body without backtick. *)
Lemma firstOccurrence_close body rest :
  ~ In 96%N body ->
  firstOccurrence fenceClose (body ++ fenceClose ++ rest)
  = Some (List.length body).
Proof.
  induction body as [|x body IH]; intro H.
  - cbn [app List.length]. pose proof (startsWith_app fenceClose rest) as Hs.
    unfold fenceClose in *. cbn [app js map list_ascii_of_string] in *.
    cbn [firstOccurrence]. now rewrite Hs.
  - assert (Hb : ~ In 96%N body) by (intro Hin; apply H; now right).
    cbn [app]. cbn [firstOccurrence].
    assert (Hs : startsWith (x :: body ++ fenceClose ++ rest) fenceClose
                 = false).
    { unfold fenceClose at 2. cbn [app js map list_ascii_of_string startsWith].
      destruct (char_eqb x 10%N); [|reflexivity]. cbn [andb].
      destruct body as [|y body'].
      - reflexivity.
      - cbn [app startsWith]. destruct (char_eqb y _) eqn:E; [|reflexivity].
        apply char_eqb_eq in E. subst. exfalso. apply Hb. now left. }
    rewrite Hs. cbn [List.length]. now rewrite (IH Hb).
Qed.

End ExtractFacts.

Section ExtractClaims.

Import GeminiApi.

(** X10: whatever the reply, the text that [analyzeImageWithGemini] hands to
    [JSON.parse] is empty or goes from an opening brace to a closing
    brace. *)
Theorem extractJson_is_empty_or_braced :
  forall text : jsstring,
    extractJson text = []
    \/ exists mid, extractJson text = 123%N :: mid ++ [125%N].
Proof. intro text. unfold extractJson. apply braces_or_empty. Qed.

Lemma skipn_prefix {A} (a b : list A) : skipn (List.length a) (a ++ b) = b.
Proof. induction a as [|x a IH]; [reflexivity | exact IH]. Qed.

Lemma skipn_two_prefixes {A} (a b c : list A) :
  skipn (List.length a + List.length b) (a ++ b ++ c) = c.
Proof.
  rewrite <- length_app, app_assoc. apply skipn_prefix.
Qed.

Lemma firstn_prefix {A} (a b : list A) :
  firstn (List.length a) (a ++ b) = a.
Proof. induction a as [|x a IH]; [reflexivity | cbn; now rewrite IH]. Qed.

Lemma no_fence_match opener text :
  ~ In 96%N text -> matchBetween (96%N :: opener) fenceClose text = None.
Proof.
  intro H. unfold matchBetween.
  now rewrite firstOccurrence_absent by exact H.
Qed.

(** X11: a reply without backtick that holds an object between a prefix
    without opening brace and a suffix without closing brace is cut down to
    the object: the text before and after it is dropped. *)
Theorem extractJson_finds_a_bare_object :
  forall pre mid post : jsstring,
    ~ In 96%N (pre ++ 123%N :: mid ++ [125%N] ++ post) ->
    ~ In 123%N pre ->
    ~ In 125%N post ->
    extractJson (pre ++ 123%N :: mid ++ [125%N] ++ post)
    = 123%N :: mid ++ [125%N].
Proof.
  intros pre mid post Hb Hpre Hpost. unfold extractJson.
  change fenceJson with (96%N :: js "``json" ++ [10%N]).
  change fencePlain with (96%N :: js "``" ++ [10%N]).
  rewrite !no_fence_match by exact Hb.
  assert (Hm : matchBraces (pre ++ 123%N :: mid ++ [125%N] ++ post)
               = Some (123%N :: mid ++ [125%N])).
  { unfold matchBraces. rewrite (dropUntil_skips 123%N pre _ Hpre).
    replace (rev (mid ++ [125%N] ++ post))
      with (rev post ++ 125%N :: rev mid)
      by (rewrite !rev_app_distr; cbn [rev app]; now rewrite <- app_assoc).
    rewrite dropUntil_skips by (intro H; apply Hpost; now apply in_rev).
    cbn [rev]. now rewrite rev_involutive. }
  rewrite Hm. apply braces_unchanged.
Qed.

Lemma extractJson_finds_a_bare_object_witness :
  extractJson (js "Here it is: {title: Boats} I hope it helps.")
  = js "{title: Boats}".
Proof.
  apply (extractJson_finds_a_bare_object (js "Here it is: ")
           (js "title: Boats") (js " I hope it helps."));
    vm_compute; intuition discriminate.
Defined.

(** X12: a reply that holds an object inside a [json] code fence, the fence
    lines ending with a line feed, is cut down to the object, provided no
    backtick stands before the fence or inside the object; what follows the
    closing fence is ignored. *)
Theorem extractJson_finds_a_fenced_object :
  forall pre mid post : jsstring,
    ~ In 96%N pre ->
    ~ In 96%N mid ->
    extractJson
      (pre ++ fenceJson ++ (123%N :: mid ++ [125%N]) ++ fenceClose ++ post)
    = 123%N :: mid ++ [125%N].
Proof.
  intros pre mid post Hpre Hmid. unfold extractJson.
  set (obj := 123%N :: mid ++ [125%N]).
  assert (Hobj : ~ In 96%N obj).
  { subst obj. intros [H|H]; [discriminate|].
    apply in_app_or in H. destruct H as [H|[H|[]]];
      [contradiction | discriminate]. }
  assert (Hm : matchBetween fenceJson fenceClose
                 (pre ++ fenceJson ++ obj ++ fenceClose ++ post)
               = Some (fenceJson ++ obj ++ fenceClose, obj)).
  { unfold matchBetween.
    change fenceJson with (96%N :: js "``json" ++ [10%N]) at 1 2.
    rewrite firstOccurrence_after by exact Hpre.
    change (96%N :: js "``json" ++ [10%N]) with fenceJson.
    rewrite (skipn_two_prefixes pre fenceJson), (skipn_prefix pre).
    rewrite firstOccurrence_close by exact Hobj.
    rewrite (firstn_prefix obj).
    replace (fenceJson ++ obj ++ fenceClose ++ post)
      with ((fenceJson ++ obj ++ fenceClose) ++ post)
      by now rewrite <- !app_assoc.
    replace (List.length fenceJson + List.length obj + List.length fenceClose)
      with (List.length (fenceJson ++ obj ++ fenceClose))
      by now rewrite !length_app, Nat.add_assoc.
    now rewrite firstn_prefix. }
  rewrite Hm. cbn [snd fst]. subst obj. cbn [truthy].
  apply braces_unchanged.
Qed.

Lemma extractJson_finds_a_fenced_object_witness :
  extractJson
    (js "Sure!" ++ [10%N] ++ fenceJson ++ js "{title: Boats}" ++ fenceClose
     ++ [10%N] ++ js "Anything else?")
  = js "{title: Boats}".
Proof.
  apply (extractJson_finds_a_fenced_object (js "Sure!" ++ [10%N])
           (js "title: Boats") ([10%N] ++ js "Anything else?"));
    vm_compute; intuition discriminate.
Defined.

End ExtractClaims.

(* --------------------------------------------------------------------- *)
(** ** More on the analysis of one image *)
(* --------------------------------------------------------------------- *)

Section AnalyzeExtras.

Variable rt : GeminiApi.Runtime.

Lemma cleaned_title_of_reply (t : option jsstring) :
  GeminiApi.strOr
    (match t with
     | Some t0 => if truthy t0 then Some (removeSymbolsFromTitle t0)
                  else Some t0
     | None => None
     end)
  = removeSymbolsFromTitle (GeminiApi.strOr t).
Proof. destruct t as [[|c t0]|]; reflexivity. Qed.

(** What a result of the statements after [JSON.parse] looks like. *)
Lemma finishResult_normal f s a mk parsed r :
  GeminiApi.finishResult rt f s a mk parsed = Normal r ->
  GeminiApi.title r = removeSymbolsFromTitle
                        (GeminiApi.strOr (GeminiApi.r_title parsed))
  /\ GeminiApi.error r = None
  /\ (exists m, GeminiApi.baseModel r = Some m /\ truthy m = true)
  /\ (f = true ->
      GeminiApi.baseModel r = Some (js "leonardo")
      /\ GeminiApi.keywords r
         = freepikKeywordsOf (GeminiApi.toLowerCase rt) mk parsed)
  /\ (f = false ->
      GeminiApi.keywords r = GeminiApi.listOr (GeminiApi.r_keywords parsed))
  /\ (a = true ->
      exists cats,
        GeminiApi.categories r = Some cats
        /\ suggestCategoriesForAdobeStock (GeminiApi.toLowerCase rt)
             (GeminiApi.title r) (GeminiApi.keywords r)
           = Normal cats)
  /\ (a = false -> s = true ->
      exists cats,
        GeminiApi.categories r = Some cats
        /\ suggestCategoriesForShutterstock (GeminiApi.toLowerCase rt)
             (GeminiApi.title r) (GeminiApi.description r)
           = Normal cats).
Proof.
  unfold GeminiApi.finishResult. rewrite !cleaned_title_of_reply.
  set (title1 := removeSymbolsFromTitle _).
  set (keywords1 := if f then _ else _).
  set (shut := suggestCategoriesForShutterstock _ _ _).
  set (adobe := suggestCategoriesForAdobeStock _ _ _).
  intro H.
  assert (Hbase : forall o : option jsstring,
             exists m, Some (match o with
                             | Some m0 => if truthy m0 then m0
                                          else js "leonardo"
                             | None => js "leonardo"
                             end) = Some m /\ truthy m = true).
  { intros [m0|]; [destruct (truthy m0) eqn:E|]; eexists; split;
      try reflexivity; assumption. }
  assert (Hkw : (f = true ->
                 GeminiApi.listOr keywords1
                 = freepikKeywordsOf (GeminiApi.toLowerCase rt) mk parsed)
                /\ (f = false ->
                    GeminiApi.listOr keywords1
                    = GeminiApi.listOr (GeminiApi.r_keywords parsed))).
  { subst keywords1. split; intros ->; [|reflexivity].
    unfold freepikKeywordsOf, GeminiApi.strOr.
    destruct (GeminiApi.r_keywords parsed) as [ks|]; [|reflexivity].
    rewrite Nat.ltb_antisym.
    destruct (mk <=? List.length ks); reflexivity. }
  destruct Hkw as [Hk1 Hk2].
  match type of H with
  | bindC ?c1 _ = _ => destruct c1 as [cats1|] eqn:E1; [|discriminate]
  end.
  cbn [bindC] in H.
  match type of H with
  | bindC ?c2 _ = _ => destruct c2 as [cats2|] eqn:E2; [|discriminate]
  end.
  cbn [bindC] in H. inversion H; subst r; clear H.
  cbn [GeminiApi.title GeminiApi.error GeminiApi.baseModel
         GeminiApi.keywords GeminiApi.categories GeminiApi.description].
  split; [reflexivity|]. split; [reflexivity|]. split; [apply Hbase|].
  split; [|split; [exact Hk2|split]].
  - intros ->. split; [reflexivity | now apply Hk1].
  - intros ->. destruct adobe as [cats|] eqn:Ea; [|discriminate].
    cbn [bindC] in E2. inversion E2; subst. now exists cats.
  - intros -> ->. inversion E2; subst.
    destruct shut as [cats|] eqn:Es; [|discriminate].
    cbn [bindC] in E1. inversion E1; subst. now exists cats.
Qed.

(** What a result of the [try] block looks like. *)
Lemma analyzeTry_normal imageFile apiKey options r :
  GeminiApi.analyzeTry rt imageFile apiKey options = Normal r ->
  (modeOf options = GeminiApi.imageToPrompt
   /\ GeminiApi.title r = [] /\ GeminiApi.keywords r = []
   /\ GeminiApi.error r = None /\ GeminiApi.categories r = None)
  \/ (exists parsed,
        replyParsed rt imageFile apiKey options parsed
        /\ GeminiApi.finishResult rt
             (GeminiApi.isOnly (platformsOf options) GeminiApi.Freepik)
             (GeminiApi.isOnly (platformsOf options) GeminiApi.Shutterstock)
             (GeminiApi.isOnly (platformsOf options) GeminiApi.AdobeStock)
             (minKeywordsOf options) parsed
           = Normal r).
Proof.
  unfold GeminiApi.analyzeTry.
  destruct (GeminiApi.sendRequest rt imageFile apiKey options)
    as [response|] eqn:Es; [|discriminate].
  cbn [bindC]. unfold GeminiApi.readResponse.
  destruct (GeminiApi.ok response) eqn:Eok; cbn [negb].
  - destruct (GeminiApi.replyText response) as [text|] eqn:Et;
      [|discriminate].
    cbn [bindC].
    destruct (GeminiApi.withDefault (GeminiApi.generationMode options)
                GeminiApi.metadata) eqn:Em.
    + destruct (GeminiApi.JSON_parse rt (GeminiApi.extractJson text))
        as [parsed|] eqn:Ep; [|discriminate].
      intro H. right. exists parsed. split; [|exact H].
      exists response, text. now repeat split.
    + intro H. inversion H; subst. left. now repeat split.
  - destruct (GeminiApi.errorBody response) as [errorData|];
      [|discriminate].
    cbn [bindC].
    match goal with
    | |- bindC ?c _ = _ -> _ => destruct c; discriminate
    end.
Qed.

End AnalyzeExtras.

Section AnalyzeClaims.

Variable rt : GeminiApi.Runtime.

Lemma isOnly_one platforms p q :
  GeminiApi.isOnly platforms p = true ->
  GeminiApi.isOnly platforms q = true -> p = q.
Proof.
  destruct platforms as [|x [|y l]]; try discriminate. cbn.
  destruct x, p; try discriminate; destruct q; try discriminate; reflexivity.
Qed.

Lemma isOnly_other platforms p q :
  GeminiApi.isOnly platforms p = true -> p <> q ->
  GeminiApi.isOnly platforms q = false.
Proof.
  intros Hp Hne. destruct (GeminiApi.isOnly platforms q) eqn:E;
    [|reflexivity].
  exfalso. apply Hne. eapply isOnly_one; eassumption.
Qed.


(** X13: whatever the runtime does, [analyzeImageWithGemini] returns a
    result, never an exception; the result either has no error, or is the
    failure result that holds the error message alone; and its title holds
    kept code units only, so it never needs cleaning again. *)
Theorem analysis_returns_clean_data_or_an_error :
  forall (imageFile : File) (apiKey : jsstring)
         (options : GeminiApi.AnalysisOptions),
  exists r,
    GeminiApi.analyzeImageWithGemini rt imageFile apiKey options = Normal r
    /\ (GeminiApi.error r = None
        \/ exists message, r = GeminiApi.failureResult message)
    /\ removeSymbolsFromTitle (GeminiApi.title r) = GeminiApi.title r.
Proof.
  intros imageFile apiKey options.
  unfold GeminiApi.analyzeImageWithGemini, tryCatch.
  destruct (GeminiApi.analyzeTry rt imageFile apiKey options) as [r|e] eqn:E.
  - exists r. split; [reflexivity|].
    destruct (analyzeTry_normal rt imageFile apiKey options r E)
      as [[_ [Ht [_ [He _]]]] | [parsed [_ Hf]]].
    + split; [now left | now rewrite Ht].
    + apply finishResult_normal in Hf. destruct Hf as [Ht [He _]].
      split; [now left|]. rewrite Ht.
      unfold removeSymbolsFromTitle, replaceAllWithEmpty. apply filter_idempotent.
  - eexists. split; [reflexivity|]. split; [right; now eexists | reflexivity].
Qed.


(** X15: when Adobe Stock alone is selected and the parsed reply has, in its
    cleaned title or in its keywords, a word that reads a member of
    [Object.prototype] (such as [constructor]), the [TypeError] of the
    matcher is caught by [analyzeImageWithGemini]: the whole analysis of the
    image fails, with the engine's message of that error as its only
    content. *)
Theorem matcher_error_fails_the_analysis :
  forall (imageFile : File) (apiKey : jsstring)
         (options : GeminiApi.AnalysisOptions)
         (parsed : GeminiApi.ParsedReply),
    replyParsed rt imageFile apiKey options parsed ->
    GeminiApi.isOnly (platformsOf options) GeminiApi.AdobeStock = true ->
    Exists (fun w => getProperty adobeCategoryMatches w = Inherited)
      (adobeWords (GeminiApi.toLowerCase rt)
         (removeSymbolsFromTitle (GeminiApi.strOr (GeminiApi.r_title parsed)))
         (GeminiApi.listOr (GeminiApi.r_keywords parsed))) ->
    GeminiApi.analyzeImageWithGemini rt imageFile apiKey options
    = Normal (GeminiApi.failureResult (GeminiApi.notIterableMessage rt)).
Proof.
  intros imageFile apiKey options parsed
    [response [text [Hs [Hok [Hr [Hm Hp]]]]]] Ha Hex.
  unfold GeminiApi.analyzeImageWithGemini, GeminiApi.analyzeTry.
  rewrite Hs. cbn [bindC]. unfold GeminiApi.readResponse.
  rewrite Hok, Hr. cbn [negb bindC]. unfold modeOf in Hm. rewrite Hm, Hp.
  unfold platformsOf in Ha.
  rewrite Ha, (isOnly_other _ _ GeminiApi.Freepik Ha),
    (isOnly_other _ _ GeminiApi.Shutterstock Ha) by discriminate.
  unfold GeminiApi.finishResult. rewrite !cleaned_title_of_reply.
  cbn [bindC]. rewrite (adobe_suggest_throws _ _ _ Hex). reflexivity.
Qed.

(** X16: when Freepik alone is selected and the reply was received, read in
    metadata mode and parsed, [analyzeImageWithGemini] returns a result
    without error that is fully determined by the reply: the cleaned title,
    the description, the prompt and the categories of the reply, the base
    model [leonardo] whatever the reply says, and as keywords those of the
    reply when it has at least the minimum asked for, otherwise (too few, or
    none) the keywords that [getRelevantFreepikKeywords] of [imageHelpers]
    generates from the prompt of the reply, or from the empty string when
    the reply has no prompt. *)
Theorem freepik_keywords_are_enough_or_generated :
  forall (imageFile : File) (apiKey : jsstring)
         (options : GeminiApi.AnalysisOptions)
         (parsed : GeminiApi.ParsedReply),
    replyParsed rt imageFile apiKey options parsed ->
    GeminiApi.isOnly (platformsOf options) GeminiApi.Freepik = true ->
    GeminiApi.analyzeImageWithGemini rt imageFile apiKey options
    = Normal
        {| GeminiApi.title :=
             removeSymbolsFromTitle
               (match GeminiApi.r_title parsed with
                | Some t => t
                | None => []
                end);
           GeminiApi.description :=
             match GeminiApi.r_description parsed with
             | Some d => d
             | None => []
             end;
           GeminiApi.keywords :=
             freepikKeywordsOf (GeminiApi.toLowerCase rt)
               (minKeywordsOf options) parsed;
           GeminiApi.prompt := GeminiApi.r_prompt parsed;
           GeminiApi.baseModel := Some (js "leonardo");
           GeminiApi.categories := GeminiApi.r_categories parsed;
           GeminiApi.error := None |}.
Proof.
  intros imageFile apiKey options parsed
    [response [text [Hs [Hok [Hr [Hm Hp]]]]]] Hf.
  unfold GeminiApi.analyzeImageWithGemini, GeminiApi.analyzeTry.
  rewrite Hs. cbn [bindC]. unfold GeminiApi.readResponse.
  rewrite Hok, Hr. cbn [negb bindC]. unfold modeOf in Hm. rewrite Hm, Hp.
  unfold platformsOf in Hf.
  rewrite Hf, (isOnly_other _ _ GeminiApi.Shutterstock Hf),
    (isOnly_other _ _ GeminiApi.AdobeStock Hf) by discriminate.
  unfold GeminiApi.finishResult. rewrite !cleaned_title_of_reply.
  cbn [bindC tryCatch truthy]. unfold freepikKeywordsOf, minKeywordsOf.
  fold (GeminiApi.strOr (GeminiApi.r_title parsed)).
  fold (GeminiApi.strOr (GeminiApi.r_description parsed)).
  fold (GeminiApi.strOr (GeminiApi.r_prompt parsed)).
  cbv zeta. f_equal. f_equal.
  destruct (GeminiApi.r_keywords parsed) as [ks|]; [|reflexivity].
  rewrite Nat.ltb_antisym.
  now destruct (GeminiApi.withDefault (GeminiApi.minKeywords options) 25
                <=? List.length ks).
Qed.

End AnalyzeClaims.

Section AnalyzeWitnesses.


Lemma matcher_error_fails_the_analysis_witness :
  GeminiApi.analyzeImageWithGemini constructorRuntime (file samplePending2)
    (js "AIza-key") sampleOptions
  = Normal (GeminiApi.failureResult (js "object is not iterable")).
Proof.
  apply (matcher_error_fails_the_analysis constructorRuntime
           (file samplePending2) (js "AIza-key") sampleOptions
           constructorReply).
  - eexists. eexists. repeat split; reflexivity.
  - reflexivity.
  - vm_compute. apply Exists_cons_hd. reflexivity.
Defined.

Lemma freepik_keywords_are_enough_or_generated_witness :
  GeminiApi.analyzeImageWithGemini constructorRuntime (file samplePending2)
    (js "AIza-key") freepikOptions
  = Normal freepikResult.
Proof.
  apply (freepik_keywords_are_enough_or_generated constructorRuntime
           (file samplePending2) (js "AIza-key") freepikOptions
           constructorReply).
  - eexists. eexists. repeat split; reflexivity.
  - reflexivity.
Defined.

End AnalyzeWitnesses.

(* --------------------------------------------------------------------- *)
(** ** More on uploads *)
(* --------------------------------------------------------------------- *)

Section UploadExtras.

Import ImageUploader.

Variable createImagePreview : File -> completion jsstring.
Variable generateId : nat -> jsstring.

Lemma processFile_outcome position f :
  (keptByUpload createImagePreview f = true
   /\ exists image,
       processFile createImagePreview generateId position f = Accepted image
       /\ file image = f /\ id image = generateId position
       /\ freshlyUploaded createImagePreview image)
  \/ (keptByUpload createImagePreview f = false
      /\ exists notice,
          processFile createImagePreview generateId position f
          = Rejected notice).
Proof.
  unfold processFile, keptByUpload.
  destruct (isValidMediaType f); cbn [negb andb];
    [|right; split; [reflexivity | eexists; reflexivity]].
  destruct (isValidFileSize f); cbn [negb andb];
    [|right; split; [reflexivity | eexists; reflexivity]].
  destruct (createImagePreview f) as [url|e] eqn:E;
    [|right; split; [reflexivity | eexists; reflexivity]].
  left. split; [reflexivity|]. eexists. split; [reflexivity|].
  cbn. unfold freshlyUploaded. cbn. now rewrite E.
Qed.

Lemma processFrom_kept files : forall position,
  map file (validResults (processFrom createImagePreview generateId position
                            files))
  = filter (keptByUpload createImagePreview) files
  /\ Forall (freshlyUploaded createImagePreview)
       (validResults (processFrom createImagePreview generateId position
                        files)).
Proof.
  induction files as [|f files IH]; intro position;
    [split; [reflexivity | constructor]|].
  cbn [processFrom validResults filter].
  destruct (IH (S position)) as [IH1 IH2].
  destruct (processFile_outcome position f)
    as [[Hk [image [E [Hf [_ Hfresh]]]]] | [Hk [notice E]]];
    rewrite E, Hk; cbn [validResults map].
  - split; [now rewrite Hf, IH1 | now constructor].
  - now split.
Qed.


End UploadExtras.

Section UploadWitness.


End UploadWitness.

(* --------------------------------------------------------------------- *)
(** ** More on runs and sessions *)
(* --------------------------------------------------------------------- *)

Section RunExtras.

Variable analyze : File -> completion GeminiApi.AnalysisResult.
Variable messageOf : thrown -> jsstring.
Variable platforms : list GeminiApi.Platform.

Let replacement := Index.replacement analyze messageOf platforms.
Let processLoop := Index.processLoop analyze messageOf platforms.
Let run := handleProcessImages analyze messageOf platforms.

(** One update of the loop, seen from one image of the state. *)
Let touch (x image : ProcessedImage) : ProcessedImage :=
  if str_eqb (id x) (id image) then replacement image x else x.

Lemma processLoop_folds pendingImages : forall index images,
  snd (processLoop index pendingImages images)
  = map (fun x => fold_left touch pendingImages x) images.
Proof.
  induction pendingImages as [|image rest IH]; intros index images.
  - cbn. now rewrite map_id.
  - unfold processLoop. rewrite (processLoop_step analyze messageOf platforms).
    cbn [snd]. fold processLoop. rewrite IH. unfold updateById.
    rewrite map_map. reflexivity.
Qed.

Lemma replacement_settled image x : settled (replacement image x).
Proof.
  unfold replacement, Index.replacement, settled.
  destruct (analyze (file image)) as [r|e]; cbn.
  - destruct (truthyError (GeminiApi.error r)) eqn:E; cbn;
      repeat split; try discriminate.
    intros _ H. rewrite H in E. discriminate.
  - repeat split; discriminate.
Qed.

Lemma touch_id x image : id (touch x image) = id x.
Proof.
  unfold touch. destruct (str_eqb (id x) (id image)); [|reflexivity].
  apply (replacement_id analyze messageOf platforms).
Qed.

Lemma touched_settled pendingImages : forall x,
  settled x \/ In (id x) (map id pendingImages) ->
  settled (fold_left touch pendingImages x).
Proof.
  induction pendingImages as [|image rest IH]; intros x H; cbn [fold_left].
  - destruct H as [H|[]]. exact H.
  - apply IH. rewrite touch_id. unfold touch.
    destruct (str_eqb (id x) (id image)) eqn:E.
    + left. apply replacement_settled.
    + destruct H as [H|[H|H]]; [now left | | now right].
      apply str_eqb_neq in E. congruence.
Qed.

Lemma untouched pendingImages : forall x,
  ~ In (id x) (map id pendingImages) -> fold_left touch pendingImages x = x.
Proof.
  induction pendingImages as [|image rest IH]; intros x H; [reflexivity|].
  cbn [fold_left]. unfold touch at 2.
  destruct (str_eqb (id x) (id image)) eqn:E.
  - apply str_eqb_eq in E. exfalso. apply H. left. now symmetry.
  - apply IH. intro Hin. apply H. now right.
Qed.

Lemma touched_or_same pendingImages : forall x,
  settled (fold_left touch pendingImages x)
  \/ fold_left touch pendingImages x = x.
Proof.
  intro x.
  destruct (in_dec (list_eq_dec N.eq_dec) (id x) (map id pendingImages))
    as [Hin|Hn].
  - left. apply touched_settled. now right.
  - right. now apply untouched.
Qed.

Lemma filter_none {A} (f : A -> bool) (l : list A) :
  (forall x, In x l -> f x = false) -> filter f l = [].
Proof.
  induction l as [|x l IH]; intro H; [reflexivity|]. cbn.
  rewrite (H x (or_introl eq_refl)). apply IH. intros y Hy. apply H.
  now right.
Qed.

Lemma processLoop_later pendingImages : forall index images,
  map withoutState (fst (processLoop (S index) pendingImages images))
  = flat_map (fun image => [Timeout 2000; Analyze (file image); SetImages []])
      pendingImages.
Proof.
  induction pendingImages as [|image rest IH]; intros index images;
    [reflexivity|].
  unfold processLoop. rewrite (processLoop_step analyze messageOf platforms).
  cbn [fst]. fold processLoop. cbn [Nat.ltb Nat.leb].
  rewrite !map_app. cbn [map withoutState flat_map app].
  now rewrite IH.
Qed.

Lemma processLoop_states_keep pendingImages : forall index images,
  Forall (fun st => map id st = map id images
                    /\ map file st = map file images)
    (states (fst (processLoop index pendingImages images))).
Proof.
  induction pendingImages as [|image rest IH]; intros index images;
    [constructor|].
  unfold processLoop. rewrite (processLoop_step analyze messageOf platforms).
  cbn [fst]. fold processLoop. rewrite !states_app.
  assert (Hi : map id (updateById (id image) (replacement image) images)
               = map id images)
    by apply updateById_ids, (replacement_id analyze messageOf platforms).
  assert (Hf : map file (updateById (id image) (replacement image) images)
               = map file images)
    by apply updateById_files, (replacement_file analyze messageOf platforms).
  cbn [states app]. apply Forall_app. split.
  { destruct (0 <? index); constructor. }
  constructor; [now split|].
  eapply Forall_impl; [|apply IH]. cbn beta. intros st [H1 H2].
  split; [exact (eq_trans H1 Hi) | exact (eq_trans H2 Hf)].
Qed.

(** X18: a run that passes the guards (a key, at least one pending image,
    the permission and the credit) does this and nothing else, in this
    order: it raises the processing flag and puts one state update; for the
    first pending image it calls the model and puts one state update; for
    each further pending image, in the order of the list, it pauses 2000 ms,
    calls the model and puts one state update; it gives the success notice
    and lowers the flag.  No state update adds, removes or reorders images:
    identifiers and files stay in place in every state and at the end. *)
Theorem run_calls_each_pending_image_once :
  forall (apiKey : jsstring) (images : list ProcessedImage)
         (first : ProcessedImage) (rest : list ProcessedImage),
    truthy apiKey = true ->
    pendingOf images = first :: rest ->
    let effects := fst (run apiKey true true images) in
    let final := snd (run apiKey true true images) in
    map withoutState effects
    = [SetIsProcessing true; SetImages [];
       Analyze (file first); SetImages []]
      ++ flat_map
           (fun image => [Timeout 2000; Analyze (file image); SetImages []])
           rest
      ++ [ToastSuccess (js "All images processed successfully");
          SetIsProcessing false]
    /\ Forall (fun st => map id st = map id images
                         /\ map file st = map file images)
         (states effects)
    /\ map id final = map id images
    /\ map file final = map file images.
Proof.
  intros apiKey images first rest Hk Hp effects final. subst effects final.
  unfold pendingOf in Hp. unfold run.
  rewrite (handleProcessImages_runs analyze messageOf platforms apiKey images
             first rest Hk Hp).
  cbn [fst snd]. fold processLoop. split; [|split; [|split]].
  - unfold processLoop.
    rewrite (processLoop_step analyze messageOf platforms).
    cbn [fst]. fold processLoop. cbn [Nat.ltb Nat.leb].
    rewrite !map_app. cbn [map withoutState app].
    now rewrite processLoop_later.
  - rewrite states_app. cbn [states app]. constructor.
    { split; [apply markProcessing_ids | apply markProcessing_files]. }
    rewrite states_app. cbn [states]. rewrite app_nil_r.
    eapply Forall_impl; [|apply processLoop_states_keep]. cbn beta.
    intros st [H1 H2].
    rewrite markProcessing_ids in H1. rewrite markProcessing_files in H2.
    now split.
  - unfold processLoop.
    rewrite (processLoop_ids analyze messageOf platforms).
    apply markProcessing_ids.
  - unfold processLoop.
    rewrite (processLoop_files analyze messageOf platforms).
    apply markProcessing_files.
Qed.

(** X19: when a guard stops the run (no key, no pending image, no
    permission, or the credit refused), nothing happens besides at most one
    notice: the state is returned as it was, the model is not called, there
    is no pause and no state update. *)
Theorem stopped_run_changes_nothing :
  forall (apiKey : jsstring) (canGenerateMetadata creditsGranted : bool)
         (images : list ProcessedImage),
    truthy apiKey = false \/ pendingOf images = []
    \/ canGenerateMetadata = false \/ creditsGranted = false ->
    let effects :=
      fst (run apiKey canGenerateMetadata creditsGranted images) in
    snd (run apiKey canGenerateMetadata creditsGranted images) = images
    /\ analyzedFiles effects = []
    /\ timeouts effects = []
    /\ states effects = []
    /\ List.length effects <= 1.
Proof.
  intros apiKey can granted images H effects. subst effects.
  unfold run, handleProcessImages, pendingOf in *.
  destruct (truthy apiKey); cbn [negb]; [|cbn; repeat split; lia].
  destruct (filter (fun img => status_eqb (status img) pending) images)
    as [|image rest]; [cbn; repeat split; lia|].
  destruct can; cbn [negb]; [|cbn; repeat split; lia].
  destruct granted; cbn [negb]; [|cbn; repeat split; lia].
  exfalso. destruct H as [H|[H|[H|H]]]; discriminate.
Qed.

(** The state at the end of a run that passes the guards. *)
Lemma run_final_state apiKey images :
  truthy apiKey = true ->
  pendingOf images <> [] ->
  snd (run apiKey true true images)
  = map (fun x => fold_left touch (pendingOf images)
                    (if status_eqb (status x) pending
                     then asProcessing x else x)) images.
Proof.
  intros Hk Hp. unfold pendingOf in *.
  destruct (filter (fun img => status_eqb (status img) pending) images)
    as [|image rest] eqn:E; [congruence|].
  unfold run.
  rewrite (handleProcessImages_runs analyze messageOf platforms apiKey images
             image rest Hk E).
  cbn [snd]. fold processLoop. rewrite processLoop_folds.
  rewrite markProcessing_map, map_map. reflexivity.
Qed.

Lemma passing_run_nothing_pending apiKey images :
  truthy apiKey = true ->
  pendingOf images <> [] ->
  pendingOf (snd (run apiKey true true images)) = [].
Proof.
  intros Hk Hp. rewrite (run_final_state apiKey images Hk Hp).
  unfold pendingOf at 1.
  apply filter_none. intros y Hy. apply in_map_iff in Hy.
  destruct Hy as [x [<- Hx]].
  destruct (status_eqb (status x) pending) eqn:Es.
  - assert (Hin : In (id (asProcessing x)) (map id (pendingOf images))).
    { change (id (asProcessing x)) with (id x). apply in_map.
      apply filter_In. now split. }
    destruct (touched_settled (pendingOf images) (asProcessing x)
                (or_intror Hin)) as [T _].
    revert T.
    now destruct (status (fold_left touch (pendingOf images)
                            (asProcessing x))).
  - destruct (touched_or_same (pendingOf images) x) as [[T _]|Same].
    + revert T.
      now destruct (status (fold_left touch (pendingOf images) x)).
    + rewrite Same. exact Es.
Qed.

(** X20: after a run that passes the guards no image is pending any more:
    every image that was pending is complete with a result or in error with
    a message, whatever the model answered, and every image whose identifier
    is not that of a pending image is left exactly as it was. *)
Theorem run_settles_every_pending_image :
  forall (apiKey : jsstring) (images : list ProcessedImage),
    truthy apiKey = true ->
    pendingOf images <> [] ->
    exists after : ProcessedImage -> ProcessedImage,
      snd (run apiKey true true images) = map after images
      /\ (forall x, In x images -> status x = pending -> settled (after x))
      /\ (forall x, In x images ->
                    ~ In (id x) (map id (pendingOf images)) -> after x = x)
      /\ pendingOf (snd (run apiKey true true images)) = [].
Proof.
  intros apiKey images Hk Hp.
  exists (fun x => fold_left touch (pendingOf images)
                     (if status_eqb (status x) pending
                      then asProcessing x else x)).
  assert (Hpend : forall x, In x images -> status x = pending ->
                            settled (fold_left touch (pendingOf images)
                                       (asProcessing x))).
  { intros x Hx Hs. apply touched_settled. right.
    change (id (asProcessing x)) with (id x). apply in_map.
    apply filter_In. split; [exact Hx | now rewrite Hs]. }
  split; [now apply run_final_state|]. split; [|split].
  - intros x Hx Hs. rewrite Hs. now apply Hpend.
  - intros x Hx Hn. destruct (status_eqb (status x) pending) eqn:Es.
    + exfalso. apply Hn. apply in_map. apply filter_In. now split.
    + now apply untouched.
  - now apply passing_run_nothing_pending.
Qed.

(** X21: a second run right after a run that passed the guards finds nothing
    to process, whatever the model would answer: it gives the notice
    [No images to process], calls nothing and leaves the state as it is.  In
    particular the images that ended in error are not tried again. *)
Theorem second_run_finds_nothing_to_process :
  forall (apiKey : jsstring) (images : list ProcessedImage)
         (analyze' : File -> completion GeminiApi.AnalysisResult)
         (messageOf' : thrown -> jsstring)
         (platforms' : list GeminiApi.Platform) (apiKey' : jsstring)
         (canGenerateMetadata creditsGranted : bool),
    truthy apiKey = true ->
    pendingOf images <> [] ->
    truthy apiKey' = true ->
    handleProcessImages analyze' messageOf' platforms' apiKey'
      canGenerateMetadata creditsGranted (snd (run apiKey true true images))
    = ([ToastInfo (js "No images to process")],
       snd (run apiKey true true images)).
Proof.
  intros apiKey images analyze' messageOf' platforms' apiKey' can granted
    Hk Hp Hk'.
  pose proof (passing_run_nothing_pending apiKey images Hk Hp) as E.
  unfold pendingOf at 1 in E.
  unfold handleProcessImages at 1. rewrite Hk'. cbn [negb]. now rewrite E.
Qed.

Lemma run_guards apiKey can granted images :
  (truthy apiKey = true /\ pendingOf images <> []
   /\ can = true /\ granted = true)
  \/ (truthy apiKey = false \/ pendingOf images = []
      \/ can = false \/ granted = false).
Proof.
  destruct (truthy apiKey); [|now right; left].
  destruct (pendingOf images) eqn:E; [now right; right; left|].
  destruct can; [|now right; right; right; left].
  destruct granted; [|now right; right; right; right].
  left. repeat split. discriminate.
Qed.

Lemma stopped_run apiKey can granted images :
  truthy apiKey = false \/ pendingOf images = []
  \/ can = false \/ granted = false ->
  snd (run apiKey can granted images) = images
  /\ analyzedFiles (fst (run apiKey can granted images)) = [].
Proof.
  intro H. unfold run, handleProcessImages, pendingOf in *.
  destruct (truthy apiKey); cbn [negb]; [|now split].
  destruct (filter (fun img => status_eqb (status img) pending) images)
    as [|image rest]; [now split|].
  destruct can; cbn [negb]; [|now split].
  destruct granted; cbn [negb]; [|now split].
  exfalso. destruct H as [H|[H|[H|H]]]; discriminate.
Qed.


Lemma settled_consistent x : settled x -> consistent x.
Proof.
  unfold settled, consistent. destruct (status x); cbn;
    intros [T [C E]]; try discriminate;
    (split; [discriminate | split; [discriminate | split; assumption]]).
Qed.

Lemma run_keeps_consistent apiKey can granted images :
  Forall consistent images ->
  Forall consistent (snd (run apiKey can granted images)).
Proof.
  intro H.
  destruct (run_guards apiKey can granted images)
    as [[Hk [Hp [-> ->]]] | Hstop];
    [|now rewrite (proj1 (stopped_run apiKey can granted images Hstop))].
  rewrite (run_final_state apiKey images Hk Hp).
  apply Forall_forall. intros y Hy. apply in_map_iff in Hy.
  destruct Hy as [x [<- Hx]].
  pose proof (proj1 (Forall_forall _ _) H x Hx) as Hc.
  destruct (status_eqb (status x) pending) eqn:Es.
  - apply settled_consistent, touched_settled. right.
    change (id (asProcessing x)) with (id x). apply in_map.
    apply filter_In. now split.
  - destruct (touched_or_same (pendingOf images) x) as [T|Same].
    + now apply settled_consistent.
    + now rewrite Same.
Qed.

End RunExtras.

Section RunWitnesses.

Let sampleRun :=
  handleProcessImages sampleAnalyze (GeminiApi.messageOf sampleRuntime)
    [GeminiApi.AdobeStock] (js "AIza-key") true true sampleBatch.

Lemma sampleBatch_pending : pendingOf sampleBatch <> [].
Proof. discriminate. Qed.

Lemma run_calls_each_pending_image_once_witness :
  map withoutState (fst sampleRun)
  = [SetIsProcessing true; SetImages [];
     Analyze (file samplePending); SetImages [];
     Timeout 2000; Analyze (file samplePending2); SetImages [];
     Timeout 2000; Analyze (file samplePending3); SetImages [];
     ToastSuccess (js "All images processed successfully");
     SetIsProcessing false].
Proof.
  exact (proj1 (run_calls_each_pending_image_once sampleAnalyze
                  (GeminiApi.messageOf sampleRuntime) [GeminiApi.AdobeStock]
                  (js "AIza-key") sampleBatch samplePending
                  [samplePending2; samplePending3] eq_refl eq_refl)).
Defined.

Lemma stopped_run_changes_nothing_witness :
  snd (handleProcessImages sampleAnalyze (GeminiApi.messageOf sampleRuntime)
         [GeminiApi.AdobeStock] [] true true sampleBatch)
  = sampleBatch.
Proof.
  refine (proj1 (stopped_run_changes_nothing sampleAnalyze
                   (GeminiApi.messageOf sampleRuntime) [GeminiApi.AdobeStock]
                   [] true true sampleBatch _)).
  left. reflexivity.
Defined.

Lemma run_settles_every_pending_image_witness :
  exists after : ProcessedImage -> ProcessedImage,
    snd sampleRun = map after sampleBatch
    /\ pendingOf (snd sampleRun) = [].
Proof.
  destruct (run_settles_every_pending_image sampleAnalyze
              (GeminiApi.messageOf sampleRuntime) [GeminiApi.AdobeStock]
              (js "AIza-key") sampleBatch eq_refl sampleBatch_pending)
    as [after [Hm [_ [_ Hp]]]].
  exists after. split; [exact Hm | exact Hp].
Defined.

Lemma second_run_finds_nothing_to_process_witness :
  handleProcessImages sampleAnalyze (GeminiApi.messageOf sampleRuntime)
    [GeminiApi.Freepik] (js "other-key") true true (snd sampleRun)
  = ([ToastInfo (js "No images to process")], snd sampleRun).
Proof.
  apply (second_run_finds_nothing_to_process sampleAnalyze
           (GeminiApi.messageOf sampleRuntime) [GeminiApi.AdobeStock]
           (js "AIza-key") sampleBatch sampleAnalyze
           (GeminiApi.messageOf sampleRuntime) [GeminiApi.Freepik]
           (js "other-key") true true eq_refl sampleBatch_pending eq_refl).
Defined.

End RunWitnesses.

Section SessionExtras.

Import ImageUploader.

Lemma session_cons a actions images :
  session (a :: actions) images
  = (fst (act images a) ++ fst (session actions (snd (act images a))),
     snd (session actions (snd (act images a)))).
Proof.
  cbn [session]. destruct (act images a) as [effects1 images1].
  cbn [fst snd]. now destruct (session actions images1).
Qed.

Lemma fresh_consistent createImagePreview x :
  freshlyUploaded createImagePreview x -> consistent x.
Proof.
  unfold freshlyUploaded, consistent. intros [S [R [E _]]]. rewrite S.
  split; [discriminate|]. split; [now intros _|]. split; discriminate.
Qed.


Lemma processFiles_fresh createImagePreview generateId files images :
  processFiles createImagePreview generateId files = Some images ->
  Forall (freshlyUploaded createImagePreview) images
  /\ List.length images
     = List.length (filter (keptByUpload createImagePreview) files).
Proof.
  unfold processFiles. intro H.
  destruct (processFrom_kept createImagePreview generateId files 0)
    as [Hf Hfresh].
  destruct (validResults (processFrom createImagePreview generateId 0 files))
    as [|image images']; [discriminate|].
  inversion H; subst. split; [exact Hfresh|].
  now rewrite <- Hf, length_map.
Qed.

Lemma act_keeps_consistent images a :
  Forall consistent images -> Forall consistent (snd (act images a)).
Proof.
  intro H. destruct a as [cp gid files|id0| |an mo pl key can granted];
    cbn [act].
  - destruct (processFiles cp gid files) as [newImages|] eqn:E;
      cbn [snd]; [|exact H].
    unfold handleImagesSelected. apply Forall_app. split; [exact H|].
    destruct (processFiles_fresh cp gid files newImages E) as [Hf _].
    eapply Forall_impl; [|exact Hf]. intros x. apply fresh_consistent.
  - cbn [snd]. unfold handleRemoveImage. apply Forall_forall. intros x Hx.
    apply filter_In in Hx. destruct Hx as [Hx _].
    now apply (proj1 (Forall_forall _ _) H).
  - constructor.
  - now apply run_keeps_consistent.
Qed.

Lemma session_consistent actions : forall images,
  Forall consistent images ->
  Forall consistent (snd (session actions images)).
Proof.
  induction actions as [|a actions IH]; intros images H; [exact H|].
  rewrite session_cons. cbn [snd]. apply IH. now apply act_keeps_consistent.
Qed.

Lemma consistent_exported images :
  Forall consistent images -> filter isExported images = completeOf images.
Proof.
  unfold completeOf. induction 1 as [|x l [_ [_ [C _]]] _ IH];
    [reflexivity|].
  cbn [filter]. rewrite IH. unfold isExported.
  destruct (status_eqb (status x) complete) eqn:S; [|reflexivity].
  assert (Hs : status x = complete) by (now destruct (status x)).
  specialize (C Hs). now destruct (result x).
Qed.

(** X22: between the actions of a session (uploads, removals, clearing,
    processing runs, each finished before the next starts) the images stay
    consistent when they were so at the start: none is left in the
    [processing] status, a pending image has neither result nor error, a
    complete image has a result and an image in error has a message.  The
    export made at that point therefore has the header and one row for each
    complete image, in the order of the list: the test for a result in
    [formatImagesAsCSV] drops nothing. *)
Theorem session_keeps_images_consistent :
  forall (actions : list Action) (images : list ProcessedImage),
    Forall consistent images ->
    Forall consistent (snd (session actions images))
    /\ (forall isFreepikOnly isShutterstock isAdobeStock : bool,
          formatImagesAsCSV (snd (session actions images)) isFreepikOnly
            isShutterstock isAdobeStock
          = join [10%N]
              (headerRow isFreepikOnly isShutterstock isAdobeStock
               :: map (csvRow isFreepikOnly isShutterstock isAdobeStock)
                    (completeOf (snd (session actions images))))).
Proof.
  intros actions images H.
  pose proof (session_consistent actions images H) as Hc.
  split; [exact Hc|]. intros f s a. unfold formatImagesAsCSV.
  now rewrite (consistent_exported _ Hc).
Qed.

Lemma session_keeps_images_consistent_witness :
  Forall consistent (snd (session sampleSession [])).
Proof.
  apply (session_keeps_images_consistent sampleSession []). constructor.
Defined.







End SessionExtras.
